(** * The Knex adapter of @moleculer/database (src/adapters/knex.js)

    A shallow embedding of the adapter: JavaScript values, the calls the
    adapter makes on the Knex query builder, the filter compiler
    [computeQuery], the query assembler [createQuery], the CRUD operations
    on a table and the schema operations, followed by the properties that
    the specification states about them. *)

From stdpp Require Import base option list strings pretty gmap.
From Stdlib Require Import ZArith Lia.

Set Warnings "-register-all".

Open Scope string_scope.
Open Scope list_scope.
Open Scope Z_scope.

(* ===================================================================== *)
(** * JavaScript values                                                   *)
(* ===================================================================== *)

Module JS.

(** The values a filter, an entity or a parameter object is made of. An
    object keeps its entries in the order [Object.entries] lists them.
    Numbers are integers here: the adapter only tests them against zero
    and hands them on. *)
Inductive value : Type :=
| VUndefined
| VNull
| VBool (b : bool)
| VNum (n : Z)
| VStr (s : string)
| VArr (items : list value)
| VObj (entries : list (string * value)).

(** [typeof v]; note that [typeof null] and [typeof []] are ["object"]. *)
Definition typeof (v : value) : string :=
  match v with
  | VUndefined => "undefined"
  | VNull => "object"
  | VBool _ => "boolean"
  | VNum _ => "number"
  | VStr _ => "string"
  | VArr _ => "object"
  | VObj _ => "object"
  end.

(** [Array.isArray v]. *)
Definition isArray (v : value) : bool :=
  match v with VArr _ => true | _ => false end.

(** [_.isString v] and [_.isNumber v]. *)
Definition isString (v : value) : bool :=
  match v with VStr _ => true | _ => false end.

Definition isNumber (v : value) : bool :=
  match v with VNum _ => true | _ => false end.

(** Truthiness, as [if (v)], [!v] and [a || b] see it. *)
Definition truthy (v : value) : bool :=
  match v with
  | VUndefined | VNull => false
  | VBool b => b
  | VNum n => negb (n =? 0)
  | VStr s => negb (String.eqb s "")
  | VArr _ | VObj _ => true
  end.

(** Property lookup in an entry list: the value of the first entry under
    [key], [undefined] when there is none. *)
Fixpoint lookup_entry (key : string) (es : list (string * value)) : value :=
  match es with
  | [] => VUndefined
  | (k, v) :: es' => if String.eqb k key then v else lookup_entry key es'
  end.

(** The array index a property key stands for: a decimal numeral without
    a leading zero. *)
Fixpoint decimal (s : string) (acc : nat) : option nat :=
  match s with
  | EmptyString => Some acc
  | String c rest =>
      let d := Ascii.nat_of_ascii c in
      if Nat.leb 48 d && Nat.leb d 57
      then decimal rest (10 * acc + (d - 48))%nat
      else None
  end.

Definition arrayIndex (key : string) : option nat :=
  match key with
  | EmptyString => None
  | String c rest =>
      if Nat.eqb (Ascii.nat_of_ascii c) 48 && negb (String.eqb rest "") then None
      else decimal key 0
  end.

(** [o[key]], own properties only (the methods a value inherits are no
    values of this model): the member of an object, the element or the
    length of an array, the character or the length of a string. [None] is
    the TypeError that reading a property of [null] or [undefined]
    raises. *)
Definition get (o : value) (key : string) : option value :=
  match o with
  | VUndefined | VNull => None
  | VObj es => Some (lookup_entry key es)
  | VArr items =>
      if String.eqb key "length" then Some (VNum (Z.of_nat (List.length items)))
      else Some (match arrayIndex key with
                 | Some i => default VUndefined (items !! i)
                 | None => VUndefined
                 end)
  | VStr s =>
      if String.eqb key "length" then Some (VNum (Z.of_nat (String.length s)))
      else Some (match arrayIndex key with
                 | Some i =>
                     match String.get i s with
                     | Some c => VStr (String c EmptyString)
                     | None => VUndefined
                     end
                 | None => VUndefined
                 end)
  | _ => Some VUndefined
  end.

(** [v === null], and [v == null]: [null] or [undefined]. *)
Definition nullValue (v : value) : bool :=
  match v with VNull => true | _ => false end.

Definition nullish (v : value) : bool :=
  match v with VUndefined | VNull => true | _ => false end.

(** The value is [undefined], or an array or an object that holds
    [undefined] at some depth. *)
Fixpoint undefinedIn (v : value) {struct v} : bool :=
  match v with
  | VUndefined => true
  | VArr items => existsb undefinedIn items
  | VObj entries => existsb (fun kv => undefinedIn kv.2) entries
  | _ => false
  end.

(** A mapping is an object that is not an array. *)
Definition isMapping (v : value) : bool :=
  match v with VObj _ => true | _ => false end.

Definition isBoolean (v : value) : bool :=
  match v with VBool _ => true | _ => false end.

(** The scalars of the specification: booleans, numbers and strings. *)
Definition is_scalar (v : value) : bool :=
  match v with
  | VBool _ | VNum _ | VStr _ => true
  | _ => false
  end.

End JS.

Import JS.

(* ===================================================================== *)
(** * The query builder                                                   *)
(* ===================================================================== *)

Module Knex.

(** One call on a Knex query builder. A builder method records its
    arguments and returns the builder itself, so a builder is the sequence
    of the calls made on it so far. A grouping callback is run by Knex on a
    fresh builder; the call carries the calls the callback makes there. *)
Inductive call : Type :=
| count_star                                   (* count({ count: "*" }) *)
| where2 (key : string) (v : value)            (* where(key, v) *)
| where3 (column op : string) (v : value)      (* where(column, op, v) *)
| orWhere3 (column op : string) (v : value)    (* orWhere(column, op, v) *)
| whereIn (column : string) (vs : value)        (* whereIn(column, vs) *)
| whereNotIn (column : string) (vs : value)     (* whereNotIn(column, vs) *)
| whereNotNull (column : string)
| whereNull (column : string)
| whereFn (body : list call)                   (* where(builder => ...) *)
| orWhereFn (body : list call)                 (* orWhere(builder => ...) *)
| whereNotFn (body : list call)                (* whereNot(builder => ...) *)
| whereNot2 (column : string) (v : value)      (* whereNot(column, v) *)
| whereRaw (sql bindings : value)              (* whereRaw(sql, bindings) *)
| orderBy (column direction : string)
| orderByRaw (sql : string)
| limit (n : value)
| offset (n : value).

Abbreviation builder := (list call).

(** [q.whereRaw(sql, bindings)] reads [sql.isRawInstance] before it
    records anything: a TypeError ([None]) when [sql] is [undefined] or
    [null]. *)
Definition rawCall (sql bindings : value) : option call :=
  if nullish sql then None else Some (whereRaw sql bindings).

(** ** The truth of a condition

    A condition of SQL is true, false or unknown on a row: a comparison
    with a column that is null is unknown, and so is its negation. A row
    is selected when the where clause is true. *)
Inductive truth : Type := TRUE | FALSE | UNKNOWN.

Definition ofBool (b : bool) : truth := if b then TRUE else FALSE.

(** The condition is true. *)
Definition holds (t : truth) : bool :=
  match t with TRUE => true | _ => false end.

(** The condition is true or false. *)
Definition known (t : truth) : bool :=
  match t with UNKNOWN => false | _ => true end.

Definition not3 (t : truth) : truth :=
  match t with TRUE => FALSE | FALSE => TRUE | UNKNOWN => UNKNOWN end.

Definition and3 (a b : truth) : truth :=
  match a, b with
  | FALSE, _ | _, FALSE => FALSE
  | TRUE, TRUE => TRUE
  | _, _ => UNKNOWN
  end.

Definition or3 (a b : truth) : truth :=
  match a, b with
  | TRUE, _ | _, TRUE => TRUE
  | FALSE, FALSE => FALSE
  | _, _ => UNKNOWN
  end.

Definition all3 (ts : list truth) : truth := foldr and3 TRUE ts.
Definition any3 (ts : list truth) : truth := foldr or3 FALSE ts.

(** ** What the where clause of a builder selects

    Knex compiles the where statements of a builder in the order of the
    calls and joins them with the connective of each call ([and] for
    [where...], [or] for [orWhere...]); the connective of the first
    statement is not printed, and in SQL [and] binds tighter than [or]. A
    group is compiled from the fresh builder its callback fills and printed
    in parentheses, after [not] for [whereNot]; a group whose builder has
    no where statement is printed as the empty string, and a statement
    printed as the empty string is left out of the clause. A builder
    without a where clause selects every row. [where(key, null)] and
    [whereNot(key, null)] are printed as [key is null] and
    [key is not null].

    The tests on a single column are the store's: they are parameters,
    three-valued as SQL has them, but for [is null], which is true or
    false. The values they are given are values Knex and the driver bind:
    Knex refuses to compile a statement with an [undefined] binding, and
    what a driver does with an array or an object outside [whereIn] is its
    own. *)

Inductive connective : Type := And | Or.

Section Where.

Variable row : Type.
(** [compare r column op v]: the truth of [column op v] on row [r]. *)
Variable compare : row -> string -> string -> value -> truth.
(** [member r column vs]: the truth of [column in vs] on row [r]. *)
Variable member : row -> string -> value -> truth.
(** [isNull r column]: row [r] passes [column is null]. *)
Variable isNull : row -> string -> bool.
(** [rawHolds r sql bindings]: the truth of the raw condition on row [r]. *)
Variable rawHolds : row -> value -> value -> truth.

(** The statements of one level, joined from the left: [acc] is the
    disjunction of the conjunctions already closed by an [or], [cur] the
    conjunction being read. *)
Fixpoint join (acc cur : truth) (l : list (connective * truth)) : truth :=
  match l with
  | [] => or3 acc cur
  | (And, v) :: l' => join acc (and3 cur v) l'
  | (Or, v) :: l' => join (or3 acc cur) v l'
  end.

(** The clause printed from the statements that are left: none when
    there is no statement. *)
Definition clause (l : list (connective * truth)) : option truth :=
  match l with
  | [] => None
  | (_, v) :: l' => Some (join FALSE v l')
  end.

(** The statement of one call with its connective and its truth on row
    [r]; [None] for a call that adds nothing to the where clause. *)
Fixpoint statement (r : row) (c : call) : option (connective * truth) :=
  match c with
  | where2 key v =>
      Some (And, if nullValue v then ofBool (isNull r key)
                 else compare r key "=" v)
  | where3 column op v => Some (And, compare r column op v)
  | orWhere3 column op v => Some (Or, compare r column op v)
  | whereIn column vs => Some (And, member r column vs)
  | whereNotIn column vs => Some (And, not3 (member r column vs))
  | whereNotNull column => Some (And, ofBool (negb (isNull r column)))
  | whereNull column => Some (And, ofBool (isNull r column))
  | whereFn body =>
      match clause (omap (statement r) body) with
      | Some b => Some (And, b)
      | None => None
      end
  | orWhereFn body =>
      match clause (omap (statement r) body) with
      | Some b => Some (Or, b)
      | None => None
      end
  | whereNotFn body =>
      match clause (omap (statement r) body) with
      | Some b => Some (And, not3 b)
      | None => None
      end
  | whereNot2 column v =>
      Some (And, if nullValue v then ofBool (negb (isNull r column))
                 else not3 (compare r column "=" v))
  | whereRaw sql bindings => Some (And, rawHolds r sql bindings)
  | count_star | orderBy _ _ | orderByRaw _ | limit _ | offset _ => None
  end.

(** The where clause of builder [q] on row [r], when there is one. *)
Definition whereClause (r : row) (q : builder) : option truth :=
  clause (omap (statement r) q).

(** Row [r] is selected by builder [q]. *)
Definition selects (r : row) (q : builder) : bool :=
  match whereClause r q with
  | Some t => holds t
  | None => true
  end.

End Where.

(** A call that only adds to the where clause, in its groups as well: no
    aggregate, ordering, limit or offset. *)
Fixpoint whereOnly (c : call) : bool :=
  match c with
  | count_star | orderBy _ _ | orderByRaw _ | limit _ | offset _ => false
  | whereFn body | orWhereFn body | whereNotFn body => forallb whereOnly body
  | _ => true
  end.

(** An ordering, limit or offset call. *)
Definition paging (c : call) : bool :=
  match c with
  | orderBy _ _ | orderByRaw _ | limit _ | offset _ => true
  | _ => false
  end.

(** A where call with an [undefined] binding: Knex refuses to compile the
    statement that holds one (Undefined binding(s) detected). A raw
    condition without bindings binds nothing; the bindings it is given
    are taken to be used by the condition. *)
Fixpoint unbound (c : call) : bool :=
  match c with
  | where2 _ v | where3 _ _ v | orWhere3 _ _ v | whereNot2 _ v => undefinedIn v
  | whereIn _ vs | whereNotIn _ vs => undefinedIn vs
  | whereFn body | orWhereFn body | whereNotFn body => existsb unbound body
  | whereRaw _ bindings =>
      match bindings with VUndefined => false | _ => undefinedIn bindings end
  | _ => false
  end.

(** The columns a call names. *)
Fixpoint columnsIn (c : call) : list string :=
  match c with
  | where2 column _ | where3 column _ _ | orWhere3 column _ _
  | whereIn column _ | whereNotIn column _ | whereNotNull column
  | whereNull column | whereNot2 column _ | orderBy column _ => [column]
  | whereFn body | orWhereFn body | whereNotFn body => flat_map columnsIn body
  | _ => []
  end.

End Knex.

Import Knex.

(* ===================================================================== *)
(** * The filter compiler                                                 *)
(* ===================================================================== *)

Module Adapter.

(** [q.method(args)]: the builder with one more call. *)
Definition calls (q : builder) (c : call) : builder := q ++ [c].

(** [builder[fn](callback)] for the method names the compiler uses; [body]
    is what the callback does to the fresh builder it is given. Any other
    name is not a grouping method of the builder. *)
Definition invoke (fn : string) (body : list call) : option call :=
  if String.eqb fn "where" then Some (whereFn body)
  else if String.eqb fn "orWhere" then Some (orWhereFn body)
  else if String.eqb fn "whereNot" then Some (whereNotFn body)
  else None.

(** [fieldValue === b] for a boolean literal [b]. *)
Definition strictEqBool (v : value) (b : bool) : bool :=
  match v with VBool b' => Bool.eqb b' b | _ => false end.

(** [value.forEach(...)] is a method of arrays only: on anything else the
    call is a TypeError. *)
Definition forEachOf {A} (v : value) (k : list value -> option A) : option A :=
  match v with VArr items => k items | _ => None end.

Section Compile.

(** The recursive call [this.computeQuery(innerBuilder, query, fieldName)]
    made inside a grouping callback, on the fresh builder Knex passes.
    [None] is an exception raised on the way. *)
Variable recur : value -> string -> option builder.

(** The local helper [assignQueryArrayElements], from element [i] on:
    element [i] becomes one group, added with [firstElementQuery] when
    [i == 0] and with [everyOtherElementQuery || firstElementQuery]
    otherwise (the empty string, the default, is falsy). *)
Fixpoint assignFrom (i : nat) (fieldName : string) (builder : builder)
    (value : list value) (firstElementQuery everyOtherElementQuery : string)
    : option Knex.builder :=
  match value with
  | [] => Some builder
  | query :: rest =>
      let fn :=
        if Nat.eqb i 0 then firstElementQuery
        else if String.eqb everyOtherElementQuery "" then firstElementQuery
        else everyOtherElementQuery in
      inner ← recur query fieldName;
      group ← invoke fn inner;
      assignFrom (S i) fieldName (calls builder group) rest
        firstElementQuery everyOtherElementQuery
  end.

Definition assignQueryArrayElements (fieldName : string) (builder : builder)
    (value : list value) (firstElementQuery everyOtherElementQuery : string)
    : option Knex.builder :=
  assignFrom 0 fieldName builder value firstElementQuery everyOtherElementQuery.

(** The body of the [Object.entries(query).forEach] loop: the call made
    on [q] for the entry [key: fieldValue], first matching rule only. *)
Definition entry (q : builder) (fieldName key : string) (fieldValue : value)
    : option builder :=
  if String.eqb key "$in" && isArray fieldValue then
    Some (calls q (whereIn fieldName fieldValue))
  else if String.eqb key "$nin" && isArray fieldValue then
    Some (calls q (whereNotIn fieldName fieldValue))
  else if String.eqb key "$gt" then Some (calls q (where3 fieldName ">" fieldValue))
  else if String.eqb key "$gte" then Some (calls q (where3 fieldName ">=" fieldValue))
  else if String.eqb key "$lt" then Some (calls q (where3 fieldName "<" fieldValue))
  else if String.eqb key "$lte" then Some (calls q (where3 fieldName "<=" fieldValue))
  else if String.eqb key "$eq" then Some (calls q (where3 fieldName "=" fieldValue))
  else if String.eqb key "$ne" then Some (calls q (where3 fieldName "!=" fieldValue))
  else if String.eqb key "$exists" && strictEqBool fieldValue true then
    Some (calls q (whereNotNull fieldName))
  else if String.eqb key "$exists" && strictEqBool fieldValue false then
    Some (calls q (whereNull fieldName))
  else if String.eqb key "$or" && isArray fieldValue then
    body ← forEachOf fieldValue (fun value =>
              assignQueryArrayElements fieldName [] value "where" "orWhere");
    Some (calls q (whereFn body))
  else if String.eqb key "$and" && isArray fieldValue then
    body ← forEachOf fieldValue (fun value =>
              assignQueryArrayElements fieldName [] value "where" "");
    Some (calls q (whereFn body))
  else if String.eqb key "$nor" && isArray fieldValue then
    body ← forEachOf fieldValue (fun value =>
              assignQueryArrayElements fieldName [] value "whereNot" "");
    Some (calls q (whereFn body))
  else if String.eqb key "$not" then
    if String.eqb (typeof fieldValue) "object" then
      body ← recur fieldValue fieldName;
      Some (calls q (whereNotFn body))
    else Some (calls q (whereNot2 fieldName fieldValue))
  else if String.eqb key "$raw" then
    if String.eqb (typeof fieldValue) "string" then
      Some (calls q (whereRaw fieldValue VUndefined))
    else if String.eqb (typeof fieldValue) "object" then
      condition ← get fieldValue "condition";
      bindings ← get fieldValue "bindings";
      raw ← rawCall condition bindings;
      Some (calls q raw)
    else Some q
  else if String.eqb (typeof fieldValue) "object" then
    body ← recur fieldValue key;
    Some (calls q (whereFn body))
  else if String.eqb key "$ilike" then
    Some (calls q (where3 fieldName "ilike" fieldValue))
  else Some (calls q (where2 key fieldValue)).

End Compile.

(** The comparison operators of rule 2. *)
Definition comparisonKey (key : string) : bool :=
  String.eqb key "$gt" || String.eqb key "$gte" || String.eqb key "$lt"
  || String.eqb key "$lte" || String.eqb key "$eq" || String.eqb key "$ne".

(** Rules 1 to 10 of the dispatch, as the specification lists them: one
    of the operator rules applies to the entry [key: fieldValue]. *)
Definition operatorRule (key : string) (fieldValue : value) : bool :=
  (String.eqb key "$in" || String.eqb key "$nin") && isArray fieldValue
  || comparisonKey key
  || String.eqb key "$exists"
     && (strictEqBool fieldValue true || strictEqBool fieldValue false)
  || (String.eqb key "$or" || String.eqb key "$and" || String.eqb key "$nor")
     && isArray fieldValue
  || String.eqb key "$not"
  || String.eqb key "$raw"
  || String.eqb (typeof fieldValue) "object"
  || String.eqb key "$ilike".

(** The guard of [computeQuery]:
    [!query || typeof query !== "object" || Array.isArray(query)]. *)
Definition notAnObject (query : value) : bool :=
  negb (truthy query) || negb (String.eqb (typeof query) "object") || isArray query.

(** [computeQuery(q, query, fieldName)]: a [query] that is falsy, not an
    object or an array leaves [q] as it is; otherwise [Object.entries]
    lists the entries of the object, and they are compiled in turn, each on
    the builder the previous one returned (the guard lets nothing but an
    object reach the loop).
    [None] is the TypeError of a [$raw] entry that is [null] or an object
    whose [condition] is [undefined] or [null], raised by this call or,
    inside a group, when Knex runs the grouping callback. *)
Fixpoint computeQuery (q : builder) (query : value) (fieldName : string)
    {struct query} : option builder :=
  if notAnObject query then Some q
  else
    match query with
    | VObj entries =>
        (fix forEach (es : list (string * value)) (q : builder) {struct es}
           : option builder :=
           match es with
           | [] => Some q
           | (key, fieldValue) :: es' =>
               q' ← entry (computeQuery []) q fieldName key fieldValue;
               forEach es' q'
           end) entries q
    | _ => Some q
    end.

(** ** The adapter and its service *)

(** A field definition of the host service. [generated] is a string when
    given; [columnLength], [max] and [length] are [VUndefined] when not
    given. *)
Module Field.
Record t : Type := {
  columnName : string;
  columnType : string;
  primaryKey : bool;
  generated : option string;
  columnLength : value;
  max : value;
  length : value;
  virtual : bool
}.
End Field.

(** An index definition: [fields] is a name, a sequence of names or a
    mapping whose keys are the names. *)
Module Index.
Record t : Type := {
  fields : value;
  name : value;
  type : value;
  unique : bool
}.
End Index.

(** What the adapter reads from [this.service]. *)
Record Service : Type := {
  service_name : string;
  primaryField : option Field.t;          (* service.$primaryField *)
  serviceFields : list Field.t;           (* service.$fields *)
  indexes : option (list Index.t)         (* service.settings.indexes *)
}.

(** The adapter after [init]: [this.opts.tableName], [this.opts.knex.client],
    [this.idFieldName] and [this.service]. *)
Record KnexAdapter : Type := {
  tableName : string;
  client : string;
  idFieldName : string;
  service : Service
}.

(** [init(service)] on an adapter constructed with [opts]: the identity
    column is the primary field's, ["id"] without one; the table is named
    after the service when [opts.tableName] is not given or empty. *)
Definition init (optsTableName : option string) (optsClient : string)
    (svc : Service) : KnexAdapter :=
  {| tableName :=
       match optsTableName with
       | Some name => if String.eqb name "" then service_name svc else name
       | None => service_name svc
       end;
     client := optsClient;
     idFieldName :=
       match primaryField svc with
       | Some f => Field.columnName f
       | None => "id"
       end;
     service := svc |}.

(** ** The query assembler *)

(** The parameters of a query. [searchFields] is a sequence of field names
    when given; the other members are tested by the code and are values. *)
Module Params.
Record t : Type := {
  query : value;
  search : value;
  searchFields : option (list string);
  sort : value;
  limit : value;
  offset : value
}.
End Params.

(** [Object.assign({}, v)]: the own enumerable properties of [v], which
    are the entries of an object, the elements of an array under their
    indices and the characters of a string under theirs. *)
Definition objectAssign (v : value) : value :=
  match v with
  | VObj es => VObj es
  | VArr items => VObj (imap (fun i x => (pretty i, x)) items)
  | VStr s =>
      VObj (imap (fun i c => (pretty i, VStr (String c EmptyString)))
                 (String.list_ascii_of_string s))
  | _ => VObj []
  end.

(** [field.startsWith(p)] and [field.slice(1)]. *)
Definition startsWith (field p : string) : bool := String.prefix p field.

Definition slice1 (field : string) : string :=
  match field with
  | String _ rest => rest
  | EmptyString => EmptyString
  end.

(** [v > 0] for a value that [_.isNumber] accepted. *)
Definition positive (v : value) : bool :=
  match v with VNum n => 0 <? n | _ => false end.

(** The text search loop: field [i] is matched with [where] when
    [i == 0] and with [orWhere] otherwise. *)
Fixpoint searchFrom (i : nat) (q : builder) (fields : list string)
    (pattern : value) : builder :=
  match fields with
  | [] => q
  | field :: rest =>
      let q' := if Nat.eqb i 0 then calls q (where3 field "like" pattern)
                else calls q (orWhere3 field "like" pattern) in
      searchFrom (S i) q' rest pattern
  end.

(** The body of [pSort.forEach]: [None] when [field] has no [startsWith],
    that is when it is not a string. *)
Definition sortField (q : builder) (field : value) : option builder :=
  match field with
  | VStr f =>
      if startsWith f "&" then Some (calls q (orderByRaw (slice1 f)))
      else if startsWith f "-" then Some (calls q (orderBy (slice1 f) "desc"))
      else Some (calls q (orderBy f "asc"))
  | _ => None
  end.

Fixpoint sortEach (q : builder) (pSort : list value) : option builder :=
  match pSort with
  | [] => Some q
  | field :: rest => q' ← sortField q field; sortEach q' rest
  end.

(** [createQuery(params, opts)] with [opts.counting] as [counting]. The
    builder [getTable()] returns is fresh: no call has been made on it. *)
Definition createQuery (this : KnexAdapter) (params : option Params.t)
    (counting : bool) : option builder :=
  let q : builder := [] in
  let q := if counting then calls q count_star else q in
  match params with
  | None => Some q
  | Some params =>
      let query := if truthy (Params.query params)
                   then objectAssign (Params.query params)
                   else VObj [] in
      q ← computeQuery q query "";
      (* Text search *)
      let q :=
        match Params.search params, Params.searchFields params with
        | VStr s, Some fields =>
            if negb (String.eqb s "") then
              searchFrom 0 q fields (VStr ("%" +:+ s +:+ "%"))
            else q
        | _, _ => q
        end in
      (* Sort *)
      q ← (if negb counting && truthy (Params.sort params) then
             match Params.sort params with
             | VStr f => sortEach q [VStr f]
             | VArr pSort => sortEach q pSort
             | _ => None
             end
           else Some q);
      (* Limit *)
      let q :=
        if negb counting && isNumber (Params.limit params)
           && positive (Params.limit params)
        then calls q (limit (Params.limit params)) else q in
      (* Offset *)
      let q :=
        if negb counting && isNumber (Params.offset params)
           && positive (Params.offset params) then
          let q := if negb (truthy (Params.sort params))
                      && String.eqb (client this) "mssql"
                   then calls q (orderBy (idFieldName this) "asc") else q in
          calls q (offset (Params.offset params))
        else q in
      Some q
  end.

(** The parameters without their sort, limit and offset. *)
Definition withoutPaging (params : Params.t) : Params.t :=
  {| Params.query := Params.query params;
     Params.search := Params.search params;
     Params.searchFields := Params.searchFields params;
     Params.sort := VUndefined;
     Params.limit := VUndefined;
     Params.offset := VUndefined |}.

(** The [$raw] entry with this value raises a TypeError: the value is
    [null], or an object or an array whose [condition] is [undefined] or
    [null]. *)
Definition rawFails (v : value) : bool :=
  String.eqb (typeof v) "object"
  && match get v "condition" with
     | Some condition => nullish condition
     | None => true
     end.

(** Some [$raw] entry of the spec, at any depth, raises. *)
Fixpoint rawError (spec : value) {struct spec} : bool :=
  match spec with
  | VObj entries =>
      existsb (fun kv => String.eqb kv.1 "$raw" && rawFails kv.2 || rawError kv.2)
              entries
  | VArr items => existsb rawError items
  | _ => false
  end.

(** A where call that Knex joins with [and]. *)
Definition andCall (c : call) : bool :=
  match c with
  | where2 _ _ | where3 _ _ _ | whereIn _ _ | whereNotIn _ _ | whereNotNull _
  | whereNull _ | whereFn _ | whereNotFn _ | whereNot2 _ _ | whereRaw _ _ => true
  | _ => false
  end.

End Adapter.

Import Adapter.

(* ===================================================================== *)
(** * The boolean algebra of a filter                                     *)
(* ===================================================================== *)

(** The reference the specification compares the compiled predicate with:
    the filter read directly as a formula. It follows the words of the
    specification, not the code: a mapping is the conjunction of its
    entries, [$and], [$or] and [$nor] are the conjunction, the disjunction
    and the negated disjunction of their elements, [$not] is negation, a
    field name over a mapping sets the scope, and a comparison operator is
    true when the row passes the store's test on the scope field. *)
Module Oracle.

Section Evaluate.

Variable row : Type.
Variable compare : row -> string -> string -> value -> truth.
Variable member : row -> string -> value -> truth.

Section Entry.

Variable recur : string -> value -> bool.
Variable r : row.

Definition evaluateEntry (scopeField key : string) (fieldValue : value) : bool :=
  if String.eqb key "$gt" then holds (compare r scopeField ">" fieldValue)
  else if String.eqb key "$gte" then holds (compare r scopeField ">=" fieldValue)
  else if String.eqb key "$lt" then holds (compare r scopeField "<" fieldValue)
  else if String.eqb key "$lte" then holds (compare r scopeField "<=" fieldValue)
  else if String.eqb key "$eq" then holds (compare r scopeField "=" fieldValue)
  else if String.eqb key "$ne" then holds (compare r scopeField "!=" fieldValue)
  else if String.eqb key "$in" then holds (member r scopeField fieldValue)
  else if String.eqb key "$nin" then negb (holds (member r scopeField fieldValue))
  else if String.eqb key "$and" then
    match fieldValue with
    | VArr items => forallb (recur scopeField) items
    | _ => true
    end
  else if String.eqb key "$or" then
    match fieldValue with
    | VArr items => existsb (recur scopeField) items
    | _ => true
    end
  else if String.eqb key "$nor" then
    match fieldValue with
    | VArr items => negb (existsb (recur scopeField) items)
    | _ => true
    end
  else if String.eqb key "$not" then negb (recur scopeField fieldValue)
  else recur key fieldValue.

(** The test of the entry is true or false on the row: no null is
    involved in it. *)
Definition definiteEntry (scopeField key : string) (fieldValue : value) : bool :=
  if String.eqb key "$gt" then known (compare r scopeField ">" fieldValue)
  else if String.eqb key "$gte" then known (compare r scopeField ">=" fieldValue)
  else if String.eqb key "$lt" then known (compare r scopeField "<" fieldValue)
  else if String.eqb key "$lte" then known (compare r scopeField "<=" fieldValue)
  else if String.eqb key "$eq" then known (compare r scopeField "=" fieldValue)
  else if String.eqb key "$ne" then known (compare r scopeField "!=" fieldValue)
  else if String.eqb key "$in" then known (member r scopeField fieldValue)
  else if String.eqb key "$nin" then known (member r scopeField fieldValue)
  else if String.eqb key "$and" || String.eqb key "$or" || String.eqb key "$nor" then
    match fieldValue with
    | VArr items => forallb (recur scopeField) items
    | _ => true
    end
  else if String.eqb key "$not" then recur scopeField fieldValue
  else recur key fieldValue.

End Entry.

(** The truth of [spec] on row [r] under the scope field. *)
Fixpoint evaluate (r : row) (scopeField : string) (spec : value) {struct spec}
    : bool :=
  match spec with
  | VObj entries =>
      forallb (fun kv => evaluateEntry (evaluate r) r scopeField kv.1 kv.2)
              entries
  | _ => true
  end.

(** Every comparison of [spec] is true or false on row [r]: none is
    unknown. *)
Fixpoint definite (r : row) (scopeField : string) (spec : value) {struct spec}
    : bool :=
  match spec with
  | VObj entries =>
      forallb (fun kv => definiteEntry (definite r) r scopeField kv.1 kv.2)
              entries
  | _ => true
  end.

End Evaluate.

(** The filters the comparison is about: built from [$and], [$or], [$not]
    and [$nor] over the comparison operators, each with a scalar operand,
    and [$in] and [$nin], each with a sequence of scalars, with field names
    setting the scope. *)
Definition logicalKey (key : string) : bool :=
  String.eqb key "$and" || String.eqb key "$or" || String.eqb key "$nor".

Definition membershipKey (key : string) : bool :=
  String.eqb key "$in" || String.eqb key "$nin".

Definition otherOperator (key : string) : bool :=
  String.eqb key "$exists" || String.eqb key "$raw" || String.eqb key "$ilike".

Section Grammar.

Variable recur : value -> bool.

Definition entryInGrammar (key : string) (fieldValue : value) : bool :=
  if comparisonKey key then is_scalar fieldValue
  else if membershipKey key then
    match fieldValue with
    | VArr items => forallb is_scalar items
    | _ => false
    end
  else if logicalKey key then
    match fieldValue with
    | VArr items => forallb recur items
    | _ => false
    end
  else if otherOperator key then false
  else recur fieldValue.

(** The entry compiles to no predicate: a group without a statement. *)
Definition entryVacuous (key : string) (fieldValue : value) : bool :=
  if comparisonKey key || membershipKey key then false
  else if logicalKey key then
    match fieldValue with
    | VArr items => forallb recur items
    | _ => false
    end
  else recur fieldValue.

End Grammar.

Fixpoint inGrammar (spec : value) {struct spec} : bool :=
  match spec with
  | VObj entries => forallb (fun kv => entryInGrammar inGrammar kv.1 kv.2) entries
  | _ => false
  end.

(** The filter compiles to no predicate: every entry of the mapping
    does. *)
Fixpoint vacuous (spec : value) {struct spec} : bool :=
  match spec with
  | VObj entries => forallb (fun kv => entryVacuous vacuous kv.1 kv.2) entries
  | _ => true
  end.

Section Shape.

Variable recur : value -> bool.

(** An [$or] sequence has an element, and its elements compile to a
    predicate either all or none; every element of a [$nor] sequence and
    the operand of [$not] compile to a predicate. *)
Definition entryWellFormed (key : string) (fieldValue : value) : bool :=
  if comparisonKey key || membershipKey key then true
  else if String.eqb key "$and" then
    match fieldValue with
    | VArr items => forallb recur items
    | _ => true
    end
  else if String.eqb key "$or" then
    match fieldValue with
    | VArr items =>
        negb (Nat.eqb (List.length items) 0)
        && forallb recur items
        && (forallb vacuous items || forallb (fun e => negb (vacuous e)) items)
    | _ => true
    end
  else if String.eqb key "$nor" then
    match fieldValue with
    | VArr items =>
        forallb recur items && forallb (fun e => negb (vacuous e)) items
    | _ => true
    end
  else if String.eqb key "$not" then recur fieldValue && negb (vacuous fieldValue)
  else recur fieldValue.

End Shape.

Fixpoint wellFormed (spec : value) {struct spec} : bool :=
  match spec with
  | VObj entries =>
      forallb (fun kv => entryWellFormed wellFormed kv.1 kv.2) entries
  | _ => true
  end.

End Oracle.

Import Oracle.

(* ===================================================================== *)
(** * The table and the CRUD operations                                   *)
(* ===================================================================== *)

Module Store.

(** An entity is a flat object: its entries. A table is the sequence of its
    rows. *)
Abbreviation entity := (list (string * value)).
Abbreviation table := (list entity).

(** The store as the operations see it: the committed rows of the table
    and, while a transaction is open, the rows as the transaction has
    them. *)
Record store : Type := {
  rows : table;
  pending : option table
}.

(** A query runs on the client itself or on a transaction handle:
    [getTable()] and [getTable(trx)]. *)
Inductive handle : Type := Client | Trx.

(** What an operation can be rejected with: an error of the store, or the
    TypeError of the adapter's own code, or the use of a transaction handle
    whose transaction is not open, or an Error with which Knex refuses to
    compile a statement: an update that writes no column, a statement with
    an [undefined] binding. *)
Inductive failure (E : Type) : Type :=
| StoreError (e : E)
| TypeError
| TransactionClosed
| EmptyUpdate
| UndefinedBinding.
Arguments StoreError {E} e.
Arguments TypeError {E}.
Arguments TransactionClosed {E}.
Arguments EmptyUpdate {E}.
Arguments UndefinedBinding {E}.

(** An asynchronous operation: from the store before to the store after
    and the value it resolves with or the failure it rejects with. *)
Definition op (E A : Type) : Type := store -> store * (failure E + A).

Definition resolve {E A} (a : A) : op E A := fun s => (s, inr a).
Definition reject {E A} (f : failure E) : op E A := fun s => (s, inl f).

(** [await m], then [k] on its value. *)
Definition await {E A B} (m : op E A) (k : A -> op E B) : op E B :=
  fun s =>
    match m s with
    | (s', inr a) => k a s'
    | (s', inl f) => (s', inl f)
    end.

(** A step of the adapter that raises a TypeError when it is [None]. *)
Definition orThrow {E A} (o : option A) : op E A :=
  match o with
  | Some a => resolve a
  | None => reject TypeError
  end.

(** [Promise.all(list.map(f))] on one connection: the queries run in the
    order of the list, the result keeps that order, and the first
    rejection rejects the whole. *)
Fixpoint all {E A B} (f : A -> op E B) (l : list A) : op E (list B) :=
  match l with
  | [] => resolve []
  | x :: l' => await (f x) (fun y => await (all f l') (fun ys => resolve (y :: ys)))
  end.

Section Crud.

(** The errors of the store. *)
Variable E : Type.

(** The store's tests on a row (see [Knex.selects]). *)
Variable compare : entity -> string -> string -> value -> truth.
Variable member : entity -> string -> value -> truth.
Variable isNull : entity -> string -> bool.
Variable rawHolds : entity -> value -> value -> truth.

(** The store's insert of one row, [insert(entity, [idFieldName])]: the
    table with the new row and the values returned for it, or the error
    of a violated constraint. *)
Variable insertRow : table -> entity -> E + (table * list value).

Variable this : KnexAdapter.

(** The names by which a statement can name a column of the table,
    besides the identity column, and the error with which the store
    answers a statement that names anything else. *)
Variable others : list string.
Variable noSuchColumn : string -> E.

Definition hasColumn (column : string) : bool :=
  String.eqb column (idFieldName this) || existsb (String.eqb column) others.

Definition matches (q : builder) (r : entity) : bool :=
  selects entity compare member isNull rawHolds r q.

(** What stands against a write with the where calls [q] that writes the
    columns [written]: Knex refuses to compile it when a binding is
    [undefined], and the store rejects it when it names a column the table
    does not have. The failures of the writes are modelled because their
    properties say what is left in the table; a read ([select], [first],
    the aggregate) is what the store answers when it runs the query. *)
Definition refused (q : builder) (written : list string) : option (failure E) :=
  if existsb unbound q then Some UndefinedBinding
  else
    match List.find (fun column => negb (hasColumn column))
                    (flat_map columnsIn q ++ written) with
    | Some column => Some (StoreError (noSuchColumn column))
    | None => None
    end.

(** The rows a handle works on. *)
Definition rowsOf (h : handle) (s : store) : option table :=
  match h with
  | Client => Some (rows s)
  | Trx => pending s
  end.

Definition setRows (h : handle) (t : table) (s : store) : store :=
  match h with
  | Client => {| rows := t; pending := pending s |}
  | Trx => {| rows := rows s; pending := Some t |}
  end.

(** [getTable(h).insert(entity, [this.idFieldName])]. A transaction
    handle is of use only while its transaction is open. *)
Definition insertOn (h : handle) (e : entity) : op E (list value) :=
  fun s =>
    match rowsOf h s with
    | None => (s, inl TransactionClosed)
    | Some t =>
        match insertRow t e with
        | inr (t', returned) => (setRows h t' s, inr returned)
        | inl err => (s, inl (StoreError err))
        end
    end.

(** [this.client.transaction(body)]: the body works on a copy of the
    rows; the copy is committed when the body resolves and thrown away
    when it rejects. *)
Definition transaction {A} (body : handle -> op E A) : op E A :=
  fun s =>
    match body Trx {| rows := rows s; pending := Some (rows s) |} with
    | (s', inr a) =>
        ({| rows := default (rows s') (pending s'); pending := None |}, inr a)
    | (s', inl f) =>
        ({| rows := rows s'; pending := None |}, inl f)
    end.

(** The rows a select on the client returns: the rows the where clause
    selects, in the order of the table (the queries below make no
    ordering, limit or offset call). *)
Definition select (q : builder) : op E (list entity) :=
  fun s => (s, inr (List.filter (matches q) (rows s))).

(** [q.first()]: the first of these rows, [undefined] without one. *)
Definition first (q : builder) : op E value :=
  await (select q) (fun found =>
    resolve (match found with r :: _ => VObj r | [] => VUndefined end)).

(** [q.del()]: unless the statement is refused, the selected rows are
    deleted; resolves with their number. *)
Definition del (q : builder) : op E nat :=
  fun s =>
    match refused q [] with
    | Some f => (s, inl f)
    | None =>
        ({| rows := List.filter (fun r => negb (matches q r)) (rows s);
            pending := pending s |},
         inr (List.length (List.filter (matches q) (rows s))))
    end.

(** [findOne(params)]. *)
Definition findOne (params : option Params.t) : op E value :=
  await (orThrow (createQuery this params false)) first.

(** [findById(id)]: [findOne({ query: { [this.idFieldName]: id } })]. *)
Definition findById (id : value) : op E value :=
  findOne (Some {| Params.query := VObj [(idFieldName this, id)];
                   Params.search := VUndefined;
                   Params.searchFields := None;
                   Params.sort := VUndefined;
                   Params.limit := VUndefined;
                   Params.offset := VUndefined |}).

(** [findByIds(idList)]: one [whereIn] query. *)
Definition findByIds (idList : list value) : op E (list entity) :=
  select (calls [] (whereIn (idFieldName this) (VArr idList))).

(** [a || b]. *)
Definition orElse (a b : value) : value := if truthy a then a else b.

(** [typeof r == "object" ? r[this.idFieldName] : r]. *)
Definition unwrap (r : value) : option value :=
  if String.eqb (typeof r) "object" then get r (idFieldName this) else Some r.

(** [insert(entity)]. *)
Definition insert (e : entity) : op E value :=
  await (insertOn Client e) (fun res =>
    match res with
    | res0 :: _ =>
        let id := orElse (lookup_entry (idFieldName this) e) res0 in
        await (orThrow (unwrap id)) findById
    | [] => resolve (VArr res)
    end).

(** [insertMany(entities, opts)] with [opts.returnEntities] as
    [returnEntities]. *)
Definition insertMany (entities : list entity) (returnEntities : bool)
    : op E value :=
  await (transaction (fun trx => all (fun e => insertOn trx e) entities))
    (fun res =>
  await (orThrow (mapM unwrap (concat res))) (fun res =>
    if returnEntities then
      await (findByIds res) (fun found => resolve (VArr (VObj <$> found)))
    else resolve (VArr res))).

(** [removeById(id)]. *)
Definition removeById (id : value) : op E value :=
  await (del (calls [] (where2 (idFieldName this) id))) (fun _ => resolve id).

(** The rows inserted one after the other into table [t], as the store
    does it: the table after the last insert and what each insert
    returned, or the error of the first insert that fails. *)
Fixpoint insertAll (t : table) (entities : list entity)
    : E + (table * list (list value)) :=
  match entities with
  | [] => inr (t, [])
  | e :: rest =>
      match insertRow t e with
      | inl err => inl err
      | inr (t', returned) =>
          match insertAll t' rest with
          | inl err => inl err
          | inr (t'', more) => inr (t'', returned :: more)
          end
      end
  end.

(** The identity [insert] reads the row back by, in the words of the
    specification: the caller's id when the entity has one and the
    primary field is generated by the user, otherwise the value the
    store returned, unwrapped when it is an object keyed by the identity
    field. *)
Definition generatedByUser : bool :=
  match primaryField (service this) with
  | Some f => match Field.generated f with
              | Some g => String.eqb g "user"
              | None => false
              end
  | None => false
  end.

Definition present (v : value) : bool :=
  match v with VUndefined => false | _ => true end.

Definition claimedIdentity (e : entity) (returned : value) : option value :=
  let supplied := lookup_entry (idFieldName this) e in
  if present supplied && generatedByUser then Some supplied
  else unwrap returned.

(** [q.where(query)] with an object: Knex adds [where(key, value)] for
    every property of the object, in their order. *)
Definition whereObject (q : builder) (query : entity) : builder :=
  fold_left (fun q kv => calls q (where2 kv.1 kv.2)) query q.

(** [removeMany(query)]: resolves with the number of deleted rows. *)
Definition removeMany (query : entity) : op E nat :=
  del (whereObject [] query).

(** [_.omit(entity, [key])]. *)
Definition omit (e : entity) (key : string) : entity :=
  List.filter (fun kv => negb (String.eqb kv.1 key)) e.

(** The write calls made on a builder before it is awaited. *)
Inductive write : Type :=
| update (changes : value)        (* p.update(changes) *)
| increment (deltas : value).     (* p.increment(deltas) *)

(** The store's update of one row by the write calls of a statement. *)
Variable updateRow : list write -> entity -> entity.

(** A write call that gives Knex no column to write. [update] keeps the
    members of its object whose value is not [undefined] (a number, a
    boolean and a string have none to keep, an array has its elements);
    [increment] makes a counter for every member of its object, or for the
    one column it is given. *)
Definition noColumn (w : write) : bool :=
  match w with
  | update (VObj changes) => forallb (fun kv => negb (present kv.2)) changes
  | update (VArr items) => forallb (fun v => negb (present v)) items
  | update _ => true
  | increment (VObj deltas) => Nat.eqb (List.length deltas) 0
  | increment (VArr items) => Nat.eqb (List.length items) 0
  | increment _ => false
  end.

Definition isUpdate (w : write) : bool :=
  match w with update _ => true | increment _ => false end.

(** The columns a write call gives Knex to write; a column given to
    [increment] by a value that is no string is named by the text of the
    value. *)
Definition columnsWritten (w : write) : list string :=
  match w with
  | update (VObj changes) => fst <$> List.filter (fun kv => present kv.2) changes
  | update (VArr items) =>
      fst <$> List.filter (fun kv => present kv.2) (imap (fun i x => (pretty i, x)) items)
  | increment (VObj deltas) => fst <$> deltas
  | increment (VArr items) => imap (fun i _ => pretty i) items
  | increment (VStr column) => [column]
  | increment (VNum n) => [pretty n]
  | increment (VBool b) => [if b then "true" else "false"]
  | increment VNull => ["null"]
  | increment VUndefined => ["undefined"]
  | update _ => []
  end.

(** [await p] for a builder with where calls [q] and write calls [ws].
    While no call has given a column to write, the builder is a select
    and changes nothing, unless [update] was called: then Knex refuses to
    compile the statement (Empty .update() call detected). Otherwise,
    unless the statement is refused, every selected row is updated in
    place. *)
Definition awaitWrites (q : builder) (ws : list write) : op E unit :=
  fun s =>
    if forallb noColumn ws then
      if existsb isUpdate ws then (s, inl EmptyUpdate) else (s, inr tt)
    else
      match refused q (flat_map columnsWritten ws) with
      | Some f => (s, inl f)
      | None =>
          ({| rows := (fun r => if matches q r then updateRow ws r else r) <$> rows s;
              pending := pending s |}, inr tt)
      end.

(** The write calls of [updateById] and [updateMany]: in raw mode
    [changes.$set] and [changes.$inc], each when truthy; otherwise the
    changes themselves. [None] is the TypeError of reading a member of
    [null] or [undefined], or of [update] listing the keys of [null] or
    [undefined]. *)
Definition writesOf (changes : value) (raw : bool) : option (list write) :=
  if raw then
    set ← get changes "$set";
    inc ← get changes "$inc";
    Some ((if truthy set then [update set] else [])
          ++ (if truthy inc then [increment inc] else []))
  else if nullish changes then None
  else Some [update changes].

(** [updateById(id, changes, opts)] with [opts && opts.raw] as [raw]. *)
Definition updateById (id : value) (changes : value) (raw : bool) : op E value :=
  await (orThrow (writesOf changes raw)) (fun ws =>
  await (awaitWrites (calls [] (where2 (idFieldName this) id)) ws) (fun _ =>
  findById id)).

(** [replaceById(id, entity)]. *)
Definition replaceById (id : value) (e : entity) : op E value :=
  updateById id (VObj (omit e (idFieldName this))) false.

(** How the store prints the count of an aggregate query: a number, or
    text as Postgres does. *)
Variable countValue : nat -> value.

(** JavaScript's [Number(s)] on a string. *)
Variable Number : string -> value.

(** [await q] for an aggregate query: one row with the count of the
    selected rows under [count]. *)
Definition aggregate (q : builder) : op E (list entity) :=
  fun s => (s, inr [[("count", countValue (List.length (List.filter (matches q) (rows s))))]]).

(** [count(params)]. *)
Definition count (params : option Params.t) : op E value :=
  await (orThrow (createQuery this params true)) (fun q =>
  await (aggregate q) (fun res =>
    let count := match res with
                 | r :: _ => lookup_entry "count" r
                 | [] => VNum 0
                 end in
    resolve (match count with VStr s => Number s | _ => count end))).

(** [getTable().truncate()]. *)
Definition truncate : op E unit :=
  fun s => ({| rows := []; pending := pending s |}, inr tt).

(** [clear()]. *)
Definition clear : op E value :=
  await (count None) (fun n => await truncate (fun _ => resolve n)).

End Crud.

End Store.

(* ===================================================================== *)
(** * The schema operations                                               *)
(* ===================================================================== *)

Module Schema.

(** A call on the table builder that the [createTable] callback receives:
    a column constructor [table[method](args)], followed by [.primary()]
    when [primary] is set, or an index constructor. *)
Inductive tableCall : Type :=
| column (method : string) (args : list value) (primary : bool)
| unique (fields name : value)
| index (fields name type : value).

(** The tables of the database, by name, each with the calls that defined
    it. *)
Abbreviation catalog := (gmap string (list tableCall)).

(** How a schema operation can be rejected: by the Error the callback
    throws, or by the store, which has the table already, or has no such
    table, or does not take the definition. *)
Inductive failure : Type :=
| InvalidType (columnName columnType : string)
| TableExists (name : string)
| NoSuchTable (name : string)
| Rejected (name : string).

Definition ddl (A : Type) : Type := catalog -> catalog * (failure + A).

(** The options of [createTable]. *)
Record Opts : Type := {
  dropTableIfExists : value;
  createIndexes : bool
}.

Section Tables.

(** [type in table]: the type vocabulary of the table builder. *)
Variable supported : string -> bool.

(** The store takes a table with this definition. What it does not take
    is its own: a table without a column in most dialects, two indexes of
    one name, an index on a column the table does not have. *)
Variable admits : list tableCall -> bool.

Variable this : KnexAdapter.

(** [c.hasTable(name)]. *)
Definition hasTable (name : string) : ddl bool :=
  fun cat => (cat, inr (bool_decide (is_Some (cat !! name)))).

(** [dropTable(name)]: drops the table; the store rejects the drop of a
    table it does not have. *)
Definition dropTable (name : string) : ddl unit :=
  fun cat =>
    match cat !! name with
    | Some _ => (delete name cat, inr tt)
    | None => (cat, inl (NoSuchTable name))
    end.

(** [_.isPlainObject(fields) ? Object.keys(fields) : fields]. *)
Definition indexFields (fields : value) : value :=
  match fields with
  | VObj es => VArr ((fun kv => VStr kv.1) <$> es)
  | _ => fields
  end.

(** [createTableIndex(table, def)]. *)
Definition createTableIndex (def : Index.t) : tableCall :=
  let fields := indexFields (Index.fields def) in
  if Index.unique def then unique fields (Index.name def)
  else index fields (Index.name def) (Index.type def).

(** [a || b]. *)
Definition orElse (a b : value) : value := if truthy a then a else b.

(** [field.generated == name]. *)
Definition generatedBy (field : Field.t) (name : string) : bool :=
  match Field.generated field with
  | Some g => String.eqb g name
  | None => false
  end.

(** The body of the [for (const field of fields)] loop: the column call
    made for [field], none for a virtual field, the thrown Error for a
    type outside the vocabulary. *)
Definition columnOf (field : Field.t) : failure + option tableCall :=
  if Field.virtual field then inr None
  else if negb (supported (Field.columnType field)) then
    inl (InvalidType (Field.columnName field) (Field.columnType field))
  else if Field.primaryKey field then
    if generatedBy field "user" then
      inr (Some (column (Field.columnType field)
                        [VStr (Field.columnName field)] true))
    else
      inr (Some (column "increments" [VStr (Field.columnName field)] true))
  else if String.eqb (Field.columnType field) "string" then
    let len := orElse (orElse (Field.columnLength field) (Field.max field))
                      (Field.length field) in
    inr (Some (column "string" [VStr (Field.columnName field); len] false))
  else
    inr (Some (column (Field.columnType field)
                      [VStr (Field.columnName field)] false)).

Fixpoint columnsOf (fields : list Field.t) : failure + list tableCall :=
  match fields with
  | [] => inr []
  | field :: rest =>
      match columnOf field with
      | inl err => inl err
      | inr made =>
          match columnsOf rest with
          | inl err => inl err
          | inr more => inr (from_option (fun c => [c]) [] made ++ more)
          end
      end
  end.

(** The callback handed to [c.createTable]: the columns, then the
    indexes when they are asked for and declared. *)
Definition tableCallback (fields : list Field.t) (opts : option Opts)
    : failure + list tableCall :=
  match columnsOf fields with
  | inl err => inl err
  | inr columns =>
      match opts, indexes (service this) with
      | Some o, Some defs =>
          if createIndexes o then inr (columns ++ (createTableIndex <$> defs))
          else inr columns
      | _, _ => inr columns
      end
  end.

(** A column call. *)
Definition isColumn (c : tableCall) : bool :=
  match c with column _ _ _ => true | _ => false end.

(** The statements that add the calls to a table defined by [def], one
    for each call, run in turn: the first the store rejects ends the run
    ([false]), and what the earlier ones added remains. *)
Fixpoint addInTurn (def calls : list tableCall) : list tableCall * bool :=
  match calls with
  | [] => (def, true)
  | c :: rest =>
      if admits (def ++ [c]) then addInTurn (def ++ [c]) rest
      else (def, false)
  end.

(** [c.createTable(name, callback)]: Knex runs the callback when it
    compiles the definition; an Error thrown there rejects the call and
    no statement reaches the store. The definition is compiled to one
    statement that creates the table with its columns, followed by one
    statement for every index, and the statements are run in turn: the
    store rejects the creation of a table it already has and of a table
    whose columns it does not take, and an index it does not take ends
    the run with the table created. *)
Definition knexCreateTable (name : string)
    (callback : failure + list tableCall) : ddl unit :=
  fun cat =>
    match callback with
    | inl err => (cat, inl err)
    | inr calls =>
        match cat !! name with
        | Some _ => (cat, inl (TableExists name))
        | None =>
            let columns := List.filter isColumn calls in
            let indexes := List.filter (fun c => negb (isColumn c)) calls in
            if admits columns then
              match addInTurn columns indexes with
              | (def, true) => (<[name := def]> cat, inr tt)
              | (def, false) => (<[name := def]> cat, inl (Rejected name))
              end
            else (cat, inl (Rejected name))
        end
    end.

(** [opts && opts.dropTableIfExists !== false]. *)
Definition dropsFirst (opts : option Opts) : bool :=
  match opts with
  | Some o => negb (strictEqBool (dropTableIfExists o) false)
  | None => false
  end.

(** [createTable(fields, opts)]: [fields] is [None] when not given,
    [opts] is [None] for [null]. *)
Definition createTable (fields : option (list Field.t)) (opts : option Opts)
    : ddl unit :=
  fun cat =>
    let fields := default (serviceFields (service this)) fields in
    let '(cat, dropped) :=
      if dropsFirst opts then
        match hasTable (tableName this) cat with
        | (cat, inr true) => dropTable (tableName this) cat
        | (cat, inr false) => (cat, inr tt)
        | (cat, inl err) => (cat, inl err)
        end
      else (cat, inr tt) in
    match dropped with
    | inl err => (cat, inl err)
    | inr _ => knexCreateTable (tableName this) (tableCallback fields opts) cat
    end.

(** [c.alterTable(name, callback)]: the calls of the callback are added
    to the table, a statement each; the store rejects the change of a
    table it does not have, and a change that gives a definition it does
    not take. *)
Definition alterTable (name : string) (calls : list tableCall) : ddl unit :=
  fun cat =>
    match cat !! name with
    | Some def =>
        match addInTurn def calls with
        | (def', true) => (<[name := def']> cat, inr tt)
        | (def', false) => (<[name := def']> cat, inl (Rejected name))
        end
    | None => (cat, inl (NoSuchTable name))
    end.

(** [createIndex(def)]. *)
Definition createIndex (def : Index.t) : ddl unit :=
  alterTable (tableName this) [createTableIndex def].

(** The column a call of the table builder makes: its name. *)
Definition columnNameOf (c : tableCall) : option value :=
  match c with
  | column _ (name :: _) _ => Some name
  | _ => None
  end.

End Tables.

End Schema.

Import Store Schema.

(* ===================================================================== *)
(** * A sample store                                                      *)
(* ===================================================================== *)

(** A small store to run the definitions on: numbers are compared as
    integers and strings for equality, a missing or null column is null
    and every comparison with null is unknown, membership is the
    disjunction of the equalities, no raw condition holds. Its table
    rejects a row whose identity is already there and returns the identity
    of the row it takes, wrapped in an object as Postgres does. *)
Module Sample.

Definition compare (r : entity) (column op : string) (v : value) : truth :=
  match lookup_entry column r, v with
  | VUndefined, _ | VNull, _ | _, VUndefined | _, VNull => UNKNOWN
  | VNum a, VNum b =>
      ofBool (if String.eqb op ">" then (b <? a)%Z
              else if String.eqb op ">=" then (b <=? a)%Z
              else if String.eqb op "<" then (a <? b)%Z
              else if String.eqb op "<=" then (a <=? b)%Z
              else if String.eqb op "=" then (a =? b)%Z
              else if String.eqb op "!=" then negb (a =? b)%Z
              else false)
  | VStr a, VStr b =>
      ofBool (if String.eqb op "=" then String.eqb a b
              else if String.eqb op "!=" then negb (String.eqb a b)
              else false)
  | _, _ => FALSE
  end.

Definition member (r : entity) (column : string) (vs : value) : truth :=
  match vs with
  | VArr items => any3 (compare r column "=" <$> items)
  | _ => FALSE
  end.

Definition isNull (r : entity) (column : string) : bool :=
  match lookup_entry column r with
  | VUndefined | VNull => true
  | _ => false
  end.

Definition rawHolds (r : entity) (sql bindings : value) : truth := FALSE.

Definition selects : entity -> builder -> bool :=
  Knex.selects entity compare member isNull rawHolds.

Definition evaluate : entity -> string -> value -> bool :=
  Oracle.evaluate entity compare member.

Definition definite : entity -> string -> value -> bool :=
  Oracle.definite entity compare member.

(** The insert of a table whose column [id] is unique. *)
Definition insertRow (t : table) (e : entity) : string + (table * list value) :=
  let id := lookup_entry "id" e in
  if existsb (fun r => holds (compare r "id" "=" id)) t then inl "duplicate id"
  else inr (t ++ [e], [VObj [("id", id)]]).

(** The insert of a table that numbers its rows and returns the number of
    the new row, as SQLite does. *)
Definition insertRowid (t : table) (e : entity) : string + (table * list value) :=
  inr (t ++ [e], [VNum (Z.of_nat (S (List.length t)))]).

(** The columns of the table of the examples besides [id]. *)
Definition others : list string := ["name"; "title"; "age"; "tag"].

Definition noSuchColumn (column : string) : string :=
  "no such column: " +:+ column.

(** The column types of the examples. *)
Definition supported (type : string) : bool :=
  String.eqb type "string" || String.eqb type "integer"
  || String.eqb type "boolean" || String.eqb type "increments".

(** The definitions the store of the examples takes: those with a column
    and without two indexes of one given name. *)
Definition indexName (c : tableCall) : option string :=
  match c with
  | unique _ (VStr name) | index _ (VStr name) _ => Some name
  | _ => None
  end.

Fixpoint distinct (names : list string) : bool :=
  match names with
  | [] => true
  | name :: rest => negb (existsb (String.eqb name) rest) && distinct rest
  end.

Definition admits (def : list tableCall) : bool :=
  existsb isColumn def && distinct (omap indexName def).

(** The service and the adapter of the examples. *)
Definition idField : Field.t :=
  {| Field.columnName := "id";
     Field.columnType := "string";
     Field.primaryKey := true;
     Field.generated := None;
     Field.columnLength := VUndefined;
     Field.max := VUndefined;
     Field.length := VUndefined;
     Field.virtual := false |}.

Definition posts : Service :=
  {| service_name := "posts";
     primaryField := Some idField;
     serviceFields := [idField];
     indexes := None |}.

Definition adapter : KnexAdapter := init None "pg" posts.

(** The update of a row: the members of an [update] replace the columns
    of the same names; increments are left out of the examples. *)
Definition setColumn (r : entity) (kv : string * value) : entity :=
  if existsb (fun old => String.eqb old.1 kv.1) r
  then (fun old => if String.eqb old.1 kv.1 then kv else old) <$> r
  else r ++ [kv].

Definition updateRow (ws : list write) (r : entity) : entity :=
  fold_left (fun r w => match w with
                        | update (VObj changes) => fold_left setColumn changes r
                        | _ => r
                        end) ws r.


Fixpoint digits (s : string) (acc : Z) : option Z :=
  match s with
  | EmptyString => Some acc
  | String c rest =>
      let d := (Z.of_nat (Ascii.nat_of_ascii c) - 48)%Z in
      if (0 <=? d)%Z && (d <=? 9)%Z then digits rest (10 * acc + d)%Z else None
  end.

Definition number (s : string) : value :=
  match digits s 0 with
  | Some n => VNum n
  | None => VUndefined
  end.

End Sample.

(* ===================================================================== *)
(** * Properties                                                          *)
(* ===================================================================== *)

(** Structural induction over values, with the elements of an array and
    the entries of an object covered by [Forall]. *)
Lemma value_ind' (P : value -> Prop) :
  P VUndefined -> P VNull ->
  (forall b, P (VBool b)) -> (forall n, P (VNum n)) -> (forall s, P (VStr s)) ->
  (forall items, Forall P items -> P (VArr items)) ->
  (forall entries, Forall (fun kv => P kv.2) entries -> P (VObj entries)) ->
  forall v, P v.
Proof.
  intros Hu Hn Hb Hz Hs Ha Ho.
  fix IH 1. intros [ | | b | n | s | items | entries ].
  - exact Hu.
  - exact Hn.
  - apply Hb.
  - apply Hz.
  - apply Hs.
  - apply Ha. induction items as [ | x xs IHxs ]; constructor.
    + apply IH.
    + exact IHxs.
  - apply Ho. induction entries as [ | [k x] xs IHxs ]; constructor.
    + apply IH.
    + exact IHxs.
Qed.

(** ** The filter compiler, entry by entry *)

(** The guard of [computeQuery] lets exactly the mappings through. *)
Lemma notAnObject_isMapping (query : value) :
  notAnObject query = negb (isMapping query).
Proof.
  destruct query; unfold notAnObject; cbn;
    rewrite ?orb_true_r, ?orb_false_r; reflexivity.
Qed.

Lemma computeQuery_guard q query fieldName :
  notAnObject query = true -> computeQuery q query fieldName = Some q.
Proof. intros H. destruct query; cbn [computeQuery]; rewrite H; reflexivity. Qed.

Lemma computeQuery_nil q fieldName :
  computeQuery q (VObj []) fieldName = Some q.
Proof. reflexivity. Qed.

Lemma computeQuery_cons q key fieldValue es fieldName :
  computeQuery q (VObj ((key, fieldValue) :: es)) fieldName =
  entry (computeQuery []) q fieldName key fieldValue
    ≫= fun q' => computeQuery q' (VObj es) fieldName.
Proof. reflexivity. Qed.

Lemma computeQuery_app q es1 es2 fieldName :
  computeQuery q (VObj (es1 ++ es2)) fieldName =
  computeQuery q (VObj es1) fieldName
    ≫= fun q' => computeQuery q' (VObj es2) fieldName.
Proof.
  revert q. induction es1 as [ | [key fieldValue] es1 IH ]; intros q.
  - reflexivity.
  - rewrite <- app_comm_cons, !computeQuery_cons.
    destruct (entry (computeQuery []) q fieldName key fieldValue) as [q' | ];
      simpl; [ apply IH | reflexivity ].
Qed.

(** C7: for every builder and every scope field, a spec that is not a
    mapping (null, undefined, a scalar or an array) is compiled to the
    builder it was given, unchanged. *)
Theorem computeQuery_not_mapping (q : builder) (spec : value) (scopeField : string) :
  isMapping spec = false ->
  notAnObject spec = true /\ computeQuery q spec scopeField = Some q.
Proof.
  intros Hspec.
  assert (Hguard : notAnObject spec = true)
    by (rewrite notAnObject_isMapping, Hspec; reflexivity).
  split; [ exact Hguard | apply computeQuery_guard, Hguard ].
Qed.

Lemma computeQuery_not_mapping_witness :
  let q := [where2 "name" (VStr "x"); orderBy "name" "asc"] in
  (notAnObject VNull = true /\ computeQuery q VNull "age" = Some q) /\
  (notAnObject (VNum 7) = true /\ computeQuery q (VNum 7) "age" = Some q) /\
  (notAnObject (VArr [VObj [("a", VNum 1)]]) = true /\
   computeQuery q (VArr [VObj [("a", VNum 1)]]) "age" = Some q).
Proof.
  intros q.
  split; [ | split ]; apply (computeQuery_not_mapping q _ "age"); reflexivity.
Defined.

(** The cases of a key against the operator names, one after the other. *)
Ltac case_key key :=
  repeat match goal with
         | |- context [String.eqb key ?s] =>
             destruct (String.eqb key s); cbn; try discriminate
         end.

(** A scalar under a key that no operator rule takes goes to the default
    rule, whatever the scope is. *)
Lemma entry_default recur q fieldName key fieldValue :
  is_scalar fieldValue = true ->
  operatorRule key fieldValue = false ->
  entry recur q fieldName key fieldValue = Some (calls q (where2 key fieldValue)).
Proof.
  intros Hs. unfold operatorRule, comparisonKey, entry.
  destruct fieldValue as [ | | [] | n | s | | ]; try discriminate Hs;
    cbn; case_key key; reflexivity.
Qed.

(** C2: an entry whose key matches no operator rule and whose value is a
    scalar is compiled, wherever it stands in the spec and whatever the
    scope field is, to [where(key, value)], Knex's equality of column
    [key] with [value]; the scope field does not occur in it. So
    [{age: {foo: "bar"}}] compiles to an equality on column [foo] inside
    the group opened for [age]. *)
Theorem default_rule_uses_literal_key
    (row : Type) (compare : row -> string -> string -> value -> truth)
    (member : row -> string -> value -> truth) (isNull : row -> string -> bool)
    (rawHolds : row -> value -> value -> truth)
    (q : builder) (before after : list (string * value))
    (key : string) (fieldValue : value) (scopeField : string) :
  is_scalar fieldValue = true ->
  operatorRule key fieldValue = false ->
  computeQuery q (VObj (before ++ (key, fieldValue) :: after)) scopeField =
    (computeQuery q (VObj before) scopeField
       ≫= fun q1 => computeQuery (calls q1 (where2 key fieldValue))
                                 (VObj after) scopeField)
  /\ (forall r, statement row compare member isNull rawHolds r (where2 key fieldValue)
                = Some (And, compare r key "=" fieldValue))
  /\ computeQuery [] (VObj [("age", VObj [("foo", VStr "bar")])]) ""
     = Some [whereFn [where2 "foo" (VStr "bar")]].
Proof.
  intros Hs Hr. split; [ | split; [ | reflexivity ] ].
  2: { intros r. destruct fieldValue; try discriminate Hs; reflexivity. }
  rewrite computeQuery_app.
  destruct (computeQuery q (VObj before) scopeField) as [q1 | ];
    cbn [mbind option_bind]; [ | reflexivity ].
  rewrite computeQuery_cons, (entry_default _ _ _ _ _ Hs Hr). reflexivity.
Qed.

Lemma default_rule_uses_literal_key_witness :
  computeQuery [] (VObj ([("$gt", VNum 1)] ++ ("foo", VStr "bar") :: [])) "age"
  = Some [where3 "age" ">" (VNum 1); where2 "foo" (VStr "bar")].
Proof.
  pose proof (default_rule_uses_literal_key unit (fun _ _ _ _ => TRUE)
                (fun _ _ _ => TRUE) (fun _ _ => true) (fun _ _ _ => TRUE)
                [] [("$gt", VNum 1)] [] "foo" (VStr "bar") "age"
                eq_refl eq_refl) as [H _].
  rewrite H. reflexivity.
Defined.

(** C10: an [$exists] entry whose value is a scalar other than a boolean
    is compiled to neither [whereNull] nor [whereNotNull] on the scope
    field: it falls to the default rule, the equality [where("$exists",
    value)] on a column named [$exists]. *)
Theorem exists_non_boolean_is_default
    (q : builder) (before after : list (string * value))
    (fieldValue : value) (scopeField : string) :
  is_scalar fieldValue = true ->
  isBoolean fieldValue = false ->
  entry (computeQuery []) q scopeField "$exists" fieldValue
    = Some (calls q (where2 "$exists" fieldValue))
  /\ computeQuery q (VObj (before ++ ("$exists", fieldValue) :: after)) scopeField =
    (computeQuery q (VObj before) scopeField
       ≫= fun q1 => computeQuery (calls q1 (where2 "$exists" fieldValue))
                                 (VObj after) scopeField).
Proof.
  intros Hs Hb.
  assert (He : forall q', entry (computeQuery []) q' scopeField "$exists" fieldValue
                          = Some (calls q' (where2 "$exists" fieldValue))).
  { intros q'. apply entry_default; [ exact Hs | ].
    destruct fieldValue; try discriminate Hs; try discriminate Hb; reflexivity. }
  split; [ apply He | ].
  rewrite computeQuery_app.
  destruct (computeQuery q (VObj before) scopeField) as [q1 | ];
    cbn [mbind option_bind]; [ | reflexivity ].
  rewrite computeQuery_cons, He. reflexivity.
Qed.

Lemma exists_non_boolean_is_default_witness :
  computeQuery [] (VObj [("age", VObj [("$exists", VNum 1)])]) ""
  = Some [whereFn [where2 "$exists" (VNum 1)]]
  /\ computeQuery [] (VObj ([] ++ ("$exists", VStr "true") :: [])) "age"
     = Some [where2 "$exists" (VStr "true")].
Proof.
  split.
  - reflexivity.
  - destruct (exists_non_boolean_is_default [] [] [] (VStr "true") "age"
                eq_refl eq_refl) as [_ H].
    rewrite H. reflexivity.
Defined.

(** ** The groups of [$or], [$and] and [$nor] *)

(** From the second element on, every element is added with the same
    method: with [everyOtherElementQuery], or with [firstElementQuery]
    when that one is not given. *)
Lemma assignFrom_rest recur fieldName first other (make : list call -> call) :
  (forall body,
     invoke (if String.eqb other "" then first else other) body = Some (make body)) ->
  forall items i builder,
    assignFrom recur (S i) fieldName builder items first other =
    mapM (fun e => recur e fieldName) items
      ≫= fun bodies => Some (builder ++ (make <$> bodies)).
Proof.
  intros Hmake. induction items as [ | e items IH ]; intros i builder.
  - cbn. rewrite app_nil_r. reflexivity.
  - cbn [assignFrom Nat.eqb mapM mbind option_bind mret option_ret].
    destruct (recur e fieldName) as [body | ]; [ | reflexivity ].
    cbn [mbind option_bind mret option_ret].
    rewrite Hmake. cbn [mbind option_bind]. rewrite IH. unfold calls.
    destruct (mapM _ items) as [bodies | ]; cbn; [ | reflexivity ].
    rewrite <- app_assoc. reflexivity.
Qed.

Lemma assignQueryArrayElements_eq recur fieldName first other
    (makeFirst make : list call -> call) :
  (forall body, invoke first body = Some (makeFirst body)) ->
  (forall body,
     invoke (if String.eqb other "" then first else other) body = Some (make body)) ->
  forall items builder,
    assignQueryArrayElements recur fieldName builder items first other =
    mapM (fun e => recur e fieldName) items
      ≫= fun bodies =>
           Some (builder ++ match bodies with
                            | [] => []
                            | body :: rest => makeFirst body :: (make <$> rest)
                            end).
Proof.
  intros Hfirst Hmake [ | e items ] builder.
  - cbn. rewrite app_nil_r. reflexivity.
  - unfold assignQueryArrayElements.
    cbn [assignFrom Nat.eqb mapM mbind option_bind mret option_ret].
    destruct (recur e fieldName) as [body | ]; [ | reflexivity ].
    cbn [mbind option_bind mret option_ret].
    rewrite Hfirst. cbn [mbind option_bind].
    rewrite (assignFrom_rest _ _ _ _ make Hmake). unfold calls.
    destruct (mapM _ items) as [bodies | ]; cbn; [ | reflexivity ].
    rewrite <- app_assoc. reflexivity.
Qed.

(** What the three logical operators over a sequence compile to. *)
Lemma entry_or recur q fieldName items :
  entry recur q fieldName "$or" (VArr items) =
  mapM (fun e => recur e fieldName) items
    ≫= fun bodies =>
         Some (calls q (whereFn match bodies with
                                | [] => []
                                | body :: rest => whereFn body :: (orWhereFn <$> rest)
                                end)).
Proof.
  unfold entry. cbn [String.eqb Ascii.eqb Bool.eqb andb isArray forEachOf].
  rewrite (assignQueryArrayElements_eq _ _ "where" "orWhere" whereFn orWhereFn)
    by reflexivity.
  destruct (mapM _ items); reflexivity.
Qed.

Lemma entry_and recur q fieldName items :
  entry recur q fieldName "$and" (VArr items) =
  mapM (fun e => recur e fieldName) items
    ≫= fun bodies => Some (calls q (whereFn (whereFn <$> bodies))).
Proof.
  unfold entry. cbn [String.eqb Ascii.eqb Bool.eqb andb isArray forEachOf].
  rewrite (assignQueryArrayElements_eq _ _ "where" "" whereFn whereFn)
    by reflexivity.
  destruct (mapM _ items) as [ [ | body rest ] | ]; reflexivity.
Qed.

Lemma entry_nor recur q fieldName items :
  entry recur q fieldName "$nor" (VArr items) =
  mapM (fun e => recur e fieldName) items
    ≫= fun bodies => Some (calls q (whereFn (whereNotFn <$> bodies))).
Proof.
  unfold entry. cbn [String.eqb Ascii.eqb Bool.eqb andb isArray forEachOf].
  rewrite (assignQueryArrayElements_eq _ _ "whereNot" "" whereNotFn whereNotFn)
    by reflexivity.
  destruct (mapM _ items) as [ [ | body rest ] | ]; reflexivity.
Qed.

(** ** The truth of a where clause *)

Lemma or3_FALSE_l (t : truth) : or3 FALSE t = t.
Proof. destruct t; reflexivity. Qed.

Lemma and3_TRUE_r (t : truth) : and3 t TRUE = t.
Proof. destruct t; reflexivity. Qed.

Lemma or3_FALSE_r (t : truth) : or3 t FALSE = t.
Proof. destruct t; reflexivity. Qed.

Lemma and3_assoc (a b c : truth) : and3 (and3 a b) c = and3 a (and3 b c).
Proof. destruct a, b, c; reflexivity. Qed.

Lemma or3_assoc (a b c : truth) : or3 (or3 a b) c = or3 a (or3 b c).
Proof. destruct a, b, c; reflexivity. Qed.

Lemma holds_and3 (a b : truth) : holds (and3 a b) = holds a && holds b.
Proof. destruct a, b; reflexivity. Qed.

Lemma holds_or3 (a b : truth) : holds (or3 a b) = holds a || holds b.
Proof. destruct a, b; reflexivity. Qed.

Lemma holds_ofBool (b : bool) : holds (ofBool b) = b.
Proof. destruct b; reflexivity. Qed.


(** A condition that is not unknown is the boolean that says whether it
    holds. *)
Lemma known_ofBool (t : truth) : known t = true -> t = ofBool (holds t).
Proof. destruct t; intros H; try discriminate H; reflexivity. Qed.

Lemma holds_all3 (ts : list truth) : holds (all3 ts) = forallb holds ts.
Proof.
  induction ts as [ | t ts IH ]; [ reflexivity | ].
  cbn [all3 foldr forallb]. fold (all3 ts). rewrite holds_and3, IH. reflexivity.
Qed.

Lemma holds_any3 (ts : list truth) : holds (any3 ts) = existsb holds ts.
Proof.
  induction ts as [ | t ts IH ]; [ reflexivity | ].
  cbn [any3 foldr existsb]. fold (any3 ts). rewrite holds_or3, IH. reflexivity.
Qed.






Lemma forallb_omap {A B} (f : A -> option B) (g : B -> bool) (l : list A) :
  forallb g (omap f l)
  = forallb (fun x => match f x with Some y => g y | None => true end) l.
Proof.
  induction l as [ | x l IH ]; [ reflexivity | ].
  cbn [omap list_omap forallb]. fold (omap f l).
  destruct (f x); cbn [forallb]; rewrite IH; reflexivity.
Qed.

(** ** The elements that compile to a predicate *)

(** The clause of a list of conditions, when there is one. *)
Local Abbreviation nonEmpty h ts :=
  (match ts with [] => None | t :: ts' => Some (h (t :: ts')) end).

Section Sieve.

Context {A : Type}.
Variables vac f : A -> bool.

Local Abbreviation kept l := (List.filter (fun x => negb (vac x)) l).








End Sieve.

(** ** The where clause of the compiled filter *)

Section Clauses.

Variable row : Type.
Variable compare : row -> string -> string -> value -> truth.
Variable member : row -> string -> value -> truth.
Variable isNull : row -> string -> bool.
Variable rawHolds : row -> value -> value -> truth.

Local Abbreviation stmt := (statement row compare member isNull rawHolds).
Local Abbreviation wclause := (whereClause row compare member isNull rawHolds).
Local Abbreviation sel := (selects row compare member isNull rawHolds).
Local Abbreviation eval := (evaluate row compare member).
Local Abbreviation decided := (definite row compare member).

Lemma join_all_and (ts : list truth) (acc cur : truth) :
  join acc cur (pair And <$> ts) = or3 acc (and3 cur (all3 ts)).
Proof.
  revert cur. induction ts as [ | t ts IH ]; intros cur.
  - cbn. rewrite and3_TRUE_r. reflexivity.
  - cbn [fmap list_fmap join]. fold (fmap (M:=list) (pair And) ts).
    rewrite IH, and3_assoc. reflexivity.
Qed.

Lemma join_all_or (ts : list truth) (acc cur : truth) :
  join acc cur (pair Or <$> ts) = or3 (or3 acc cur) (any3 ts).
Proof.
  revert acc cur. induction ts as [ | t ts IH ]; intros acc cur.
  - cbn. rewrite or3_FALSE_r. reflexivity.
  - cbn [fmap list_fmap join]. fold (fmap (M:=list) (pair Or) ts).
    rewrite IH, !or3_assoc. reflexivity.
Qed.

Lemma clause_all_and (ts : list truth) :
  clause (pair And <$> ts) = nonEmpty all3 ts.
Proof.
  destruct ts as [ | t ts ]; [ reflexivity | ].
  cbn [fmap list_fmap clause]. fold (fmap (M:=list) (pair And) ts).
  rewrite join_all_and, or3_FALSE_l. reflexivity.
Qed.



Lemma statement_whereFn r body :
  stmt r (whereFn body) = pair And <$> wclause r body.
Proof. reflexivity. Qed.

Lemma statement_orWhereFn r body :
  stmt r (orWhereFn body) = pair Or <$> wclause r body.
Proof. reflexivity. Qed.


(** The statements of a sequence of groups: a group without a where
    clause of its own leaves no statement. *)
Lemma omap_groups r (make : list call -> call) (c : connective)
    (f : truth -> truth) (bodies : list (list call)) :
  (forall body, stmt r (make body) = (fun t => (c, f t)) <$> wclause r body) ->
  omap (stmt r) (make <$> bodies)
  = (fun t => (c, f t)) <$> omap (wclause r) bodies.
Proof.
  intros Hmake. induction bodies as [ | body bodies IH ]; [ reflexivity | ].
  cbn [fmap list_fmap omap list_omap].
  fold (fmap (M:=list) make bodies). fold (omap (stmt r) (make <$> bodies)).
  fold (omap (wclause r) bodies).
  rewrite Hmake, IH. destruct (wclause r body); reflexivity.
Qed.


Lemma statement_nor_group r (bodies : list (list call)) :
  stmt r (whereFn (whereNotFn <$> bodies))
  = pair And <$> nonEmpty (fun ts => all3 (not3 <$> ts)) (omap (wclause r) bodies).
Proof.
  rewrite statement_whereFn. unfold whereClause at 1.
  rewrite (omap_groups r whereNotFn And not3) by reflexivity.
  change (fun t : truth => (And, not3 t)) with (pair (B:=truth) And ∘ not3).
  rewrite list_fmap_compose, clause_all_and.
  destruct (omap (wclause r) bodies); reflexivity.
Qed.


(** A builder of one statement selects the rows on which it is true. *)
Lemma selects_one r (c : call) (k : connective) (t : truth) :
  stmt r c = Some (k, t) -> sel r [c] = holds t.
Proof.
  intros H. unfold selects, whereClause. cbn [omap list_omap]. rewrite H.
  cbn [clause join]. rewrite or3_FALSE_l. reflexivity.
Qed.

Lemma selects_none r (c : call) : stmt r c = None -> sel r [c] = true.
Proof.
  intros H. unfold selects, whereClause. cbn [omap list_omap]. rewrite H.
  reflexivity.
Qed.

(** A call without a statement is left out of the where clause. *)
Lemma whereClause_without r (before after : list call) (c : call) :
  stmt r c = None -> wclause r (before ++ c :: after) = wclause r (before ++ after).
Proof.
  intros H. unfold whereClause. rewrite !omap_app. cbn [omap list_omap].
  rewrite H. reflexivity.
Qed.

Lemma selects_nor_group r (bodies : list (list call)) :
  sel r [whereFn (whereNotFn <$> bodies)] =
  forallb (fun body => match wclause r body with
                       | Some t => holds (not3 t)
                       | None => true
                       end) bodies.
Proof.
  rewrite <- (forallb_omap (wclause r) (fun t => holds (not3 t))).
  pose proof (statement_nor_group r bodies) as H.
  destruct (omap (wclause r) bodies) as [ | t ts ].
  - apply selects_none. exact H.
  - rewrite (selects_one r _ _ _ H), holds_all3.
    clear. induction (t :: ts) as [ | x xs IH ]; [ reflexivity | ].
    cbn [fmap list_fmap forallb]. fold (fmap (M:=list) not3 xs).
    rewrite IH. reflexivity.
Qed.

(** ** The compiled filter against the boolean algebra *)

(** What it is for a compiled filter to agree with the algebra: the
    body has no where clause when the filter compiles to no predicate,
    and then the algebra holds on every row; otherwise its where clause
    is the truth of the algebra. *)
Local Abbreviation agrees r scope v body :=
  (wclause r body = (if vacuous v then None else Some (ofBool (eval r scope v)))
   /\ computeQuery [] v scope = Some body
   /\ (vacuous v = true -> eval r scope v = true))
  (body in scope list_scope).

Local Abbreviation compiles r v :=
  (inGrammar v = true -> wellFormed v = true ->
   forall scope, decided r scope v = true ->
   exists body, agrees r scope v body).



Local Abbreviation evalEntry r :=
  (evaluateEntry row compare member (eval r) r).
Local Abbreviation decidedEntry r :=
  (definiteEntry row compare member (decided r) r).





End Clauses.




(** C1 as stated also fails on a row with a null: under
    [{age: {$not: {$gt: 30}}}] a row whose [age] is null is not selected,
    the comparison and its negation being unknown, while the boolean
    algebra, in which the row does not pass [age > 30], holds for it. *)
Lemma null_column_counterexample :
  let spec := VObj [("age", VObj [("$not", VObj [("$gt", VNum 30)])])] in
  let r := [("name", VStr "z"); ("age", VNull)] in
  inGrammar spec = true
  /\ wellFormed spec = true
  /\ Sample.definite r "" spec = false
  /\ computeQuery [] spec "" = Some [whereFn [whereNotFn [where3 "age" ">" (VNum 30)]]]
  /\ Sample.selects r [whereFn [whereNotFn [where3 "age" ">" (VNum 30)]]] = false
  /\ Sample.evaluate r "" spec = true.
Proof. cbv zeta. repeat split. Qed.

(** C5 (as amended): a [$nor] entry over a sequence compiles to one group
    holding, for every element in order, the group of that element's
    compiled predicate under [whereNot]. On every row the statement of
    that group is the conjunction of NOT(e) over the elements [e] that
    compile to a where clause, in SQL's three-valued logic: the group is
    satisfied exactly when NOT(e) is true for each of them. An element
    that compiles to no where clause leaves no statement in the group, and
    when no element leaves one the group is no statement itself: the where
    clause of the query is the one without it. *)
Theorem nor_negates_and_conjoins
    (row : Type) (compare : row -> string -> string -> value -> truth)
    (member : row -> string -> value -> truth) (isNull : row -> string -> bool)
    (rawHolds : row -> value -> value -> truth)
    (q : builder) (scopeField : string) (items : list value) :
  let statement := statement row compare member isNull rawHolds in
  let whereClause := whereClause row compare member isNull rawHolds in
  entry (computeQuery []) q scopeField "$nor" (VArr items)
  = (mapM (fun e => computeQuery [] e scopeField) items
       ≫= fun bodies => Some (calls q (whereFn (whereNotFn <$> bodies))))
  /\ forall (bodies : list (list call)) (r : row),
       let group := whereFn (whereNotFn <$> bodies) in
       statement r group
       = match omap (whereClause r) bodies with
         | [] => None
         | clauses => Some (And, all3 (not3 <$> clauses))
         end
       /\ selects row compare member isNull rawHolds r [group]
          = forallb (fun body =>
                       match whereClause r body with
                       | Some holding => holds (not3 holding)
                       | None => true
                       end) bodies
       /\ (omap (whereClause r) bodies = [] ->
           forall before after : list call,
             whereClause r (before ++ group :: after)
             = whereClause r (before ++ after)).
Proof.
  cbv zeta. split; [ apply entry_nor | ].
  intros bodies r.
  pose proof (statement_nor_group row compare member isNull rawHolds r bodies) as H.
  split; [ | split ].
  - rewrite H. destruct (omap _ bodies); reflexivity.
  - apply selects_nor_group.
  - intros Hnone before after. apply whereClause_without.
    rewrite H, Hnone. reflexivity.
Qed.

Lemma nor_negates_and_conjoins_witness :
  let r := [("age", VNum 70)] in
  Knex.whereClause entity Sample.compare Sample.member Sample.isNull Sample.rawHolds r
    ([where3 "age" ">" (VNum 80)] ++ whereFn (whereNotFn <$> [[]; []]) :: [])
  = Some FALSE.
Proof.
  intros r.
  destruct (nor_negates_and_conjoins entity Sample.compare Sample.member
              Sample.isNull Sample.rawHolds [] "" []) as [_ H].
  destruct (H [[]; []] r) as (_ & _ & Hout).
  rewrite (Hout eq_refl [where3 "age" ">" (VNum 80)] []). reflexivity.
Defined.

(** C5 as stated fails on an element that compiles to no predicate:
    [{$nor: [{}]}] compiles to a group whose only statement is the negation
    of an empty group; Knex leaves that statement out, so the query selects
    every row, while NOT of the empty filter, which every row satisfies,
    holds for no row. *)
Lemma nor_of_empty_filter_counterexample :
  let r := [("age", VNum 70)] in
  computeQuery [] (VObj [("$nor", VArr [VObj []])]) ""
    = Some [whereFn [whereNotFn []]]
  /\ computeQuery [] (VObj []) "" = Some []
  /\ Sample.selects r [whereFn [whereNotFn []]] = true
  /\ negb (Sample.selects r []) = false
  /\ Sample.selects r [whereFn (whereNotFn <$> [[]])]
     <> forallb (fun body => negb (Sample.selects r body)) [[]].
Proof.
  cbv zeta. repeat split. discriminate.
Qed.

(** ** The calls of a compiled filter *)

Ltac split_key :=
  repeat match goal with
         | |- context [String.eqb ?k ?s] =>
             is_var k; destruct (String.eqb_spec k s) as [-> | ?]; try congruence
         end.

Lemma whereOnly_calls (q : builder) (c : call) :
  forallb whereOnly q = true -> whereOnly c = true ->
  forallb whereOnly (calls q c) = true.
Proof.
  intros Hq Hc. unfold calls. rewrite forallb_app, Hq. cbn. rewrite Hc. reflexivity.
Qed.

Lemma whereOnly_groups (make : list call -> call) (bodies : list (list call)) :
  (forall body, whereOnly (make body) = forallb whereOnly body) ->
  Forall (fun body => forallb whereOnly body = true) bodies ->
  forallb whereOnly (make <$> bodies) = true.
Proof.
  intros Hmake. induction 1 as [ | body bodies Hbody _ IH ]; [ reflexivity | ].
  cbn [fmap list_fmap forallb]. rewrite Hmake, Hbody, IH. reflexivity.
Qed.

(** One entry adds where calls only, when the recursive calls do. *)
Lemma entry_whereOnly recur q fieldName key fieldValue q' :
  (forall scope body, recur fieldValue scope = Some body ->
                      forallb whereOnly body = true) ->
  (forall items scope bodies,
     fieldValue = VArr items ->
     mapM (fun e => recur e scope) items = Some bodies ->
     Forall (fun body => forallb whereOnly body = true) bodies) ->
  forallb whereOnly q = true ->
  entry recur q fieldName key fieldValue = Some q' ->
  forallb whereOnly q' = true.
Proof.
  intros Hrecur Hitems Hq.
  destruct (String.eqb_spec key "$or") as [-> | Nor].
  { destruct fieldValue as [ | | | | | items | ];
      try solve [ unfold entry; cbn;
                  try destruct (recur _ _) eqn:Hbody; cbn;
                  intros [= <-]; apply whereOnly_calls; cbn; eauto ].
    rewrite entry_or.
    destruct (mapM _ items) as [bodies | ] eqn:Hbodies; [ | discriminate ].
    intros [= <-]. apply whereOnly_calls; [ exact Hq | ].
    specialize (Hitems _ _ _ eq_refl Hbodies).
    destruct Hitems as [ | body bodies Hbody Hrest ]; [ reflexivity | ].
    cbn [whereOnly forallb]. rewrite Hbody.
    apply (whereOnly_groups orWhereFn); [ reflexivity | exact Hrest ]. }
  destruct (String.eqb_spec key "$and") as [-> | Nand].
  { destruct fieldValue as [ | | | | | items | ];
      try solve [ unfold entry; cbn;
                  try destruct (recur _ _) eqn:Hbody; cbn;
                  intros [= <-]; apply whereOnly_calls; cbn; eauto ].
    rewrite entry_and.
    destruct (mapM _ items) as [bodies | ] eqn:Hbodies; [ | discriminate ].
    intros [= <-]. apply whereOnly_calls; [ exact Hq | ].
    cbn [whereOnly].
    apply (whereOnly_groups whereFn); [ reflexivity | eauto ]. }
  destruct (String.eqb_spec key "$nor") as [-> | Nnor].
  { destruct fieldValue as [ | | | | | items | ];
      try solve [ unfold entry; cbn;
                  try destruct (recur _ _) eqn:Hbody; cbn;
                  intros [= <-]; apply whereOnly_calls; cbn; eauto ].
    rewrite entry_nor.
    destruct (mapM _ items) as [bodies | ] eqn:Hbodies; [ | discriminate ].
    intros [= <-]. apply whereOnly_calls; [ exact Hq | ].
    cbn [whereOnly].
    apply (whereOnly_groups whereNotFn); [ reflexivity | eauto ]. }
  unfold entry. split_key;
    destruct fieldValue as [ | | [ | ] | | | | entries ];
    cbn [andb orb isArray strictEqBool Bool.eqb typeof String.eqb Ascii.eqb get];
    try destruct (recur _ _) eqn:Hbody;
    cbn [mbind option_bind];
    try (unfold rawCall; destruct (nullish _); cbn [mbind option_bind]);
    try discriminate;
    try solve [ intros [= <-]; try exact Hq; apply whereOnly_calls; cbn; eauto ].
Qed.

(** The calls of an entry are added behind the calls already made. *)
Lemma entry_appends recur q fieldName key fieldValue :
  entry recur q fieldName key fieldValue =
  entry recur [] fieldName key fieldValue ≫= fun cs => Some (q ++ cs).
Proof.
  unfold entry, calls.
  repeat match goal with
         | |- context [if ?c then _ else _] => destruct c
         end;
    repeat (cbn [mbind option_bind];
            match goal with
            | |- context [mbind _ ?o] => destruct o
            end);
    cbn [mbind option_bind app]; rewrite ?app_nil_r; reflexivity.
Qed.

Lemma computeQuery_appends (q : builder) (es : list (string * value)) fieldName :
  computeQuery q (VObj es) fieldName =
  computeQuery [] (VObj es) fieldName ≫= fun cs => Some (q ++ cs).
Proof.
  revert q. induction es as [ | [key fieldValue] es IH ]; intros q.
  - cbn. rewrite app_nil_r. reflexivity.
  - rewrite !computeQuery_cons, entry_appends.
    destruct (entry (computeQuery []) [] fieldName key fieldValue) as [c | ];
      cbn [mbind option_bind]; [ | reflexivity ].
    rewrite IH, (IH c).
    destruct (computeQuery [] (VObj es) fieldName) as [cs | ];
      cbn [mbind option_bind]; [ | reflexivity ].
    rewrite app_assoc. reflexivity.
Qed.

Lemma mapM_whereOnly (items : list value) scope (bodies : list (list call)) :
  Forall (fun e => forall scope body,
                     computeQuery [] e scope = Some body ->
                     forallb whereOnly body = true) items ->
  mapM (fun e => computeQuery [] e scope) items = Some bodies ->
  Forall (fun body => forallb whereOnly body = true) bodies.
Proof.
  intros Hitems Hbodies. apply mapM_Some in Hbodies.
  induction Hbodies as [ | e body items bodies He _ IH ]; constructor.
  - inversion Hitems as [ | ? ? H1 H2 ]; subst. eapply H1, He.
  - apply IH. inversion Hitems; assumption.
Qed.

Lemma computeQuery_whereOnly (v : value) :
  (forall q scope q',
     forallb whereOnly q = true ->
     computeQuery q v scope = Some q' -> forallb whereOnly q' = true)
  /\ (forall items, v = VArr items ->
        Forall (fun e => forall scope body,
                           computeQuery [] e scope = Some body ->
                           forallb whereOnly body = true) items).
Proof.
  induction v as [ | | b | n | s | items IH | entries IH ] using value_ind';
    try (split; [ intros q scope q' Hq; rewrite computeQuery_guard
                    by (rewrite notAnObject_isMapping; reflexivity);
                  intros [= <-]; exact Hq
                | intros items' H; discriminate H ]).
  - split; [ intros q scope q' Hq [= <-]; exact Hq | ].
    intros items' [= <-]. eapply Forall_impl; [ exact IH | ].
    intros e [He _] scope body. apply He. reflexivity.
  - split; [ | intros items' H; discriminate H ].
    induction IH as [ | [key fieldValue] es [Hfv Hitems] _ IHes ];
      intros q scope q' Hq.
    + intros [= <-]. exact Hq.
    + rewrite computeQuery_cons.
      destruct (entry (computeQuery []) q scope key fieldValue) as [q1 | ] eqn:Hentry;
        cbn [mbind option_bind]; [ | discriminate ].
      intros Hrest. eapply IHes; [ | exact Hrest ].
      eapply entry_whereOnly; [ | | exact Hq | exact Hentry ].
      * intros scope' body. apply Hfv. reflexivity.
      * intros items scope' bodies -> Hbodies.
        eapply mapM_whereOnly; [ apply Hitems; reflexivity | exact Hbodies ].
Qed.

(** ** The query assembler in counting mode *)

Lemma whereOnly_not_paging (c : call) : whereOnly c = true -> paging c = false.
Proof. destruct c; cbn; congruence. Qed.

Lemma objectAssign_isMapping (v : value) : exists es, objectAssign v = VObj es.
Proof. destruct v; cbn; eauto. Qed.

Lemma searchFrom_appends (fields : list string) (i : nat) (q : builder) pattern :
  exists cs, searchFrom i q fields pattern = q ++ cs /\ forallb whereOnly cs = true.
Proof.
  revert i q. induction fields as [ | field fields IH ]; intros i q.
  - exists []. rewrite app_nil_r. split; reflexivity.
  - cbn [searchFrom].
    destruct (Nat.eqb i 0);
      [ destruct (IH (S i) (calls q (where3 field "like" pattern))) as (cs & -> & Hcs)
      | destruct (IH (S i) (calls q (orWhere3 field "like" pattern))) as (cs & -> & Hcs) ];
      eexists (_ :: cs); unfold calls; rewrite <- app_assoc;
      (split; [ reflexivity | exact Hcs ]).
Qed.

(** C6: in counting mode the assembled query is the same whatever sort,
    limit and offset the parameters carry, and when it is assembled it is
    the row-count aggregate followed by where calls only: it contains no
    ordering, no limit and no offset call. *)
Theorem counting_suppresses_paging (this : KnexAdapter) (params : option Params.t) :
  createQuery this params true = createQuery this (withoutPaging <$> params) true
  /\ forall q, createQuery this params true = Some q ->
       exists ws, q = count_star :: ws
                  /\ forallb whereOnly ws = true
                  /\ Forall (fun c => paging c = false) q.
Proof.
  split.
  - destruct params as [params | ]; reflexivity.
  - intros q Hq.
    assert (Hshape : exists ws, q = count_star :: ws /\ forallb whereOnly ws = true).
    { destruct params as [params | ]; cbn in Hq.
      - unfold createQuery in Hq. cbn [negb andb calls app] in Hq.
        set (query := if truthy (Params.query params)
                      then objectAssign (Params.query params) else VObj []) in Hq.
        assert (Hmap : exists es, query = VObj es).
        { subst query. destruct (truthy (Params.query params));
            [ apply objectAssign_isMapping | eauto ]. }
        destruct Hmap as [es Hes]. rewrite Hes, computeQuery_appends in Hq.
        destruct (computeQuery [] (VObj es) "") as [cs | ] eqn:Hcs;
          cbn [mbind option_bind] in Hq; [ | discriminate Hq ].
        assert (Hwo : forallb whereOnly cs = true).
        { apply (proj1 (computeQuery_whereOnly (VObj es)) [] "" cs eq_refl Hcs). }
        injection Hq as <-.
        destruct (Params.search params) as [ | | | | s | | ];
          try (exists cs; split; [ reflexivity | exact Hwo ]).
        destruct (Params.searchFields params) as [fields | ];
          [ | exists cs; split; [ reflexivity | exact Hwo ] ].
        destruct (negb (String.eqb s ""));
          [ | exists cs; split; [ reflexivity | exact Hwo ] ].
        destruct (searchFrom_appends fields 0 (count_star :: cs)
                    (VStr ("%" +:+ s +:+ "%"))) as (more & -> & Hmore).
        exists (cs ++ more). split; [ reflexivity | ].
        rewrite forallb_app, Hwo, Hmore. reflexivity.
      - injection Hq as <-. exists []. split; reflexivity. }
    destruct Hshape as (ws & -> & Hws). exists ws.
    split; [ reflexivity | split; [ exact Hws | ] ].
    constructor; [ reflexivity | ].
    apply List.Forall_forall. intros c Hc. apply whereOnly_not_paging.
    rewrite forallb_forall in Hws. apply Hws. exact Hc.
Qed.

Lemma counting_suppresses_paging_witness :
  let params :=
    {| Params.query := VObj [("age", VObj [("$gt", VNum 30)])];
       Params.search := VStr "ann";
       Params.searchFields := Some ["name"; "email"];
       Params.sort := VArr [VStr "-createdAt"; VStr "name"];
       Params.limit := VNum 10;
       Params.offset := VNum 20 |} in
  exists ws,
    [count_star; whereFn [where3 "age" ">" (VNum 30)];
     where3 "name" "like" (VStr "%ann%"); orWhere3 "email" "like" (VStr "%ann%")]
    = count_star :: ws
    /\ forallb whereOnly ws = true
    /\ Forall (fun c => paging c = false)
         [count_star; whereFn [where3 "age" ">" (VNum 30)];
          where3 "name" "like" (VStr "%ann%"); orWhere3 "email" "like" (VStr "%ann%")].
Proof.
  intros params.
  apply (proj2 (counting_suppresses_paging Sample.adapter (Some params))).
  reflexivity.
Defined.


(** ** The CRUD operations *)

Lemma filter_filter_same {A} (f : A -> bool) (l : list A) :
  List.filter f (List.filter f l) = List.filter f l.
Proof.
  induction l as [ | x l IH ]; [ reflexivity | ].
  cbn. destruct (f x) eqn:Hx; cbn; rewrite ?Hx, IH; reflexivity.
Qed.

Lemma filter_all {A} (f : A -> bool) (l : list A) :
  Forall (fun x => f x = true) l -> List.filter f l = l.
Proof.
  induction 1 as [ | x l Hx _ IH ]; [ reflexivity | ].
  cbn. rewrite Hx, IH. reflexivity.
Qed.

Lemma filter_Forall {A} (f : A -> bool) (l : list A) :
  Forall (fun x => f x = true) (List.filter f l).
Proof.
  induction l as [ | x l IH ]; [ constructor | ].
  cbn. destruct (f x) eqn:Hx; [ constructor; assumption | assumption ].
Qed.

Section CrudFacts.

Variable E : Type.
Variable compare : entity -> string -> string -> value -> truth.
Variable member : entity -> string -> value -> truth.
Variable isNull : entity -> string -> bool.
Variable rawHolds : entity -> value -> value -> truth.
Variable insertRow : table -> entity -> E + (table * list value).
Variable this : KnexAdapter.
Variable others : list string.
Variable noSuchColumn : string -> E.

Local Abbreviation matches := (Store.matches compare member isNull rawHolds).
Local Abbreviation refused :=
  (Store.refused E this others noSuchColumn).
Local Abbreviation removeById :=
  (Store.removeById E compare member isNull rawHolds this others noSuchColumn).
Local Abbreviation findById :=
  (Store.findById E compare member isNull rawHolds this).
Local Abbreviation insert :=
  (Store.insert E compare member isNull rawHolds insertRow this).
Local Abbreviation insertMany :=
  (Store.insertMany E compare member isNull rawHolds insertRow this).
Local Abbreviation insertOn := (Store.insertOn E insertRow).
Local Abbreviation insertAll := (Store.insertAll E insertRow).

(** The equality of a column with a scalar, as [where(key, value)]
    states it. *)
Lemma matches_where2 (key : string) (v : value) (r : entity) :
  is_scalar v = true ->
  matches (calls [] (where2 key v)) r = holds (compare r key "=" v).
Proof.
  intros Hs.
  apply (selects_one entity compare member isNull rawHolds r (where2 key v) And).
  destruct v; try discriminate Hs; reflexivity.
Qed.

(** A scalar holds no [undefined]. *)
Lemma scalar_defined (v : value) : is_scalar v = true -> undefinedIn v = false.
Proof. destruct v; intros H; try discriminate H; reflexivity. Qed.

(** Nothing stands against a write on the identity column with a scalar. *)
Lemma refused_identity (id : value) :
  is_scalar id = true ->
  refused (calls [] (where2 (idFieldName this) id)) [] = None.
Proof.
  intros Hs. unfold Store.refused, calls, hasColumn.
  cbn [app existsb unbound flat_map columnsIn List.find orb].
  rewrite (scalar_defined id Hs), String.eqb_refl. reflexivity.
Qed.

(** [removeById] with a scalar id: the rows whose identity column equals
    the id are deleted. *)
Lemma removeById_scalar (id : value) (s : store) :
  is_scalar id = true ->
  removeById id s
  = ({| rows := List.filter
                  (fun r => negb (holds (compare r (idFieldName this) "=" id))) (rows s);
        pending := pending s |}, inr id).
Proof.
  intros Hs. unfold Store.removeById, await, del, resolve.
  rewrite (refused_identity id Hs). do 2 f_equal.
  apply List.filter_ext. intros r. rewrite (matches_where2 _ _ _ Hs). reflexivity.
Qed.

(** C8: for an id that is a scalar (a boolean, a number or a string, the
    values an identity column holds), [removeById(id)] resolves with the
    id whether or not a row has that identity; afterwards no row of the
    table has it and the other rows are as before; on a table without such
    a row nothing changes; and removing the id again resolves with the id
    and leaves the store as the first removal left it. *)
Theorem removeById_is_idempotent (id : value) (s : store) :
  is_scalar id = true ->
  let same r := holds (compare r (idFieldName this) "=" id) in
  let absent (t : table) := Forall (fun r => same r = false) t in
  exists s1,
    removeById id s = (s1, inr id)
    /\ rows s1 = List.filter (fun r => negb (same r)) (rows s)
    /\ pending s1 = pending s
    /\ absent (rows s1)
    /\ (absent (rows s) -> s1 = s)
    /\ removeById id s1 = (s1, inr id).
Proof.
  intros Hs same absent.
  exists {| rows := List.filter (fun r => negb (same r)) (rows s);
            pending := pending s |}.
  split; [ apply removeById_scalar, Hs | ].
  split; [ reflexivity | ]. split; [ reflexivity | ].
  split; [ | split ].
  - subst absent. cbn [rows].
    eapply Forall_impl; [ apply filter_Forall | ].
    intros r Hr. cbv beta in Hr. apply negb_true_iff. exact Hr.
  - intros Habsent. destruct s as [t p]. cbn [rows pending] in *. f_equal.
    apply filter_all. eapply Forall_impl; [ exact Habsent | ].
    intros r Hr. cbv beta in Hr. rewrite Hr. reflexivity.
  - rewrite (removeById_scalar id _ Hs). cbn [rows pending].
    fold same. rewrite filter_filter_same. reflexivity.
Qed.

(** The inserts of [insertMany] on the transaction handle: they work on
    the rows of the transaction and leave the committed rows alone. *)
Lemma all_insertOn_fails (entities : list entity) (s : store) (t : table) err :
  pending s = Some t ->
  insertAll t entities = inl err ->
  exists s', all (fun e => insertOn Trx e) entities s = (s', inl (StoreError err))
             /\ rows s' = rows s.
Proof.
  revert s t. induction entities as [ | e entities IH ]; intros s t Hp Hall.
  - discriminate Hall.
  - cbn [Store.insertAll] in Hall. cbn [all]. unfold await at 1.
    unfold Store.insertOn at 1. cbn [rowsOf]. rewrite Hp.
    destruct (insertRow t e) as [err' | [t' returned]].
    + injection Hall as <-. exists s. split; reflexivity.
    + destruct (insertAll t' entities) as [err' | [t'' more]] eqn:Hrest;
        [ | discriminate Hall ].
      injection Hall as <-.
      destruct (IH (setRows Trx t' s) t' eq_refl Hrest) as (s' & Hs' & Hrows).
      exists s'. unfold await. rewrite Hs'. split; [ reflexivity | exact Hrows ].
Qed.

Lemma all_insertOn_succeeds (entities : list entity) (s : store) (t t' : table)
    returned :
  pending s = Some t ->
  insertAll t entities = inr (t', returned) ->
  all (fun e => insertOn Trx e) entities s
  = ({| rows := rows s; pending := Some t' |}, inr returned).
Proof.
  revert s t returned. induction entities as [ | e entities IH ];
    intros s t returned Hp Hall.
  - injection Hall as <- <-. destruct s as [r p]. cbn in Hp. subst p. reflexivity.
  - cbn [Store.insertAll] in Hall. cbn [all]. unfold await at 1.
    unfold Store.insertOn at 1. cbn [rowsOf]. rewrite Hp.
    destruct (insertRow t e) as [err' | [t1 ret]]; [ discriminate Hall | ].
    destruct (insertAll t1 entities) as [err' | [t2 more]] eqn:Hrest;
      [ discriminate Hall | ].
    injection Hall as <- <-.
    unfold await. rewrite (IH (setRows Trx t1 s) t1 more eq_refl Hrest).
    reflexivity.
Qed.

(** What each insert of the sequence returned is what the store returned
    for the entity at the same place. *)
Lemma insertAll_aligned (entities : list entity) (t t' : table) returned :
  insertAll t entities = inr (t', returned) ->
  Forall2 (fun e ret => exists t0 t1, insertRow t0 e = inr (t1, ret))
          entities returned.
Proof.
  revert t returned. induction entities as [ | e entities IH ];
    intros t returned Hall.
  - injection Hall as <- <-. constructor.
  - cbn [Store.insertAll] in Hall.
    destruct (insertRow t e) as [err' | [t1 ret]] eqn:He; [ discriminate Hall | ].
    destruct (insertAll t1 entities) as [err' | [t2 more]] eqn:Hrest;
      [ discriminate Hall | ].
    injection Hall as <- <-. constructor; [ eauto | eapply IH, Hrest ].
Qed.

Lemma mapM_unwrap_singletons (returned : list (list value)) (ids : list value) :
  Forall2 (fun ret id => exists r, ret = [r] /\ unwrap this r = Some id)
          returned ids ->
  mapM (unwrap this) (concat returned) = Some ids.
Proof.
  intros H. apply mapM_Some.
  induction H as [ | ret id returned ids (r & -> & Hr) _ IH ]; cbn [concat app];
    constructor; assumption.
Qed.

(** C3: the inserts of [insertMany] run inside one transaction. When one
    of them fails, the table is left with the rows it had and the call
    is rejected with that one error; when all succeed, the table has the
    rows of all of them, and, each insert returning one value, the
    identities the call resolves with are those values, unwrapped, in
    the order of the entities. *)
Theorem insertMany_is_atomic (entities : list entity) (returnEntities : bool)
    (s : store) :
  match insertAll (rows s) entities with
  | inl err =>
      insertMany entities returnEntities s
      = ({| rows := rows s; pending := None |}, inl (StoreError err))
  | inr (t', returned) =>
      Forall2 (fun e ret => exists t0 t1, insertRow t0 e = inr (t1, ret))
              entities returned
      /\ forall ids,
           Forall2 (fun ret id => exists r, ret = [r] /\ unwrap this r = Some id)
                   returned ids ->
           insertMany entities false s
           = ({| rows := t'; pending := None |}, inr (VArr ids))
  end.
Proof.
  destruct (insertAll (rows s) entities) as [err | [t' returned]] eqn:Hall.
  - destruct (all_insertOn_fails entities
                {| rows := rows s; pending := Some (rows s) |} (rows s) err
                eq_refl Hall) as (s' & Hs' & Hrows).
    unfold Store.insertMany, await, Store.transaction. rewrite Hs', Hrows.
    reflexivity.
  - split; [ eapply insertAll_aligned, Hall | ].
    intros ids Hids.
    unfold Store.insertMany, await, Store.transaction.
    rewrite (all_insertOn_succeeds entities
               {| rows := rows s; pending := Some (rows s) |} (rows s) t' returned
               eq_refl Hall).
    cbn [rows pending default]. rewrite (mapM_unwrap_singletons returned ids Hids).
    reflexivity.
Qed.

(** [findById] with a scalar id under an identity column that is not
    named like an operator: the first row whose identity column equals the
    id, [undefined] without one. *)
Lemma findById_scalar (id : value) (s : store) :
  is_scalar id = true ->
  operatorRule (idFieldName this) id = false ->
  findById id s
  = (s, inr match List.filter
                    (fun r => holds (compare r (idFieldName this) "=" id)) (rows s) with
            | r :: _ => VObj r
            | [] => VUndefined
            end).
Proof.
  intros Hs Hr.
  rewrite <- (List.filter_ext _ _ (fun r => matches_where2 (idFieldName this) id r Hs)).
  unfold Store.findById, Store.findOne, createQuery.
  cbn [Params.query Params.search Params.searchFields Params.sort Params.limit
       Params.offset truthy objectAssign negb andb isNumber].
  rewrite computeQuery_cons, (entry_default _ _ _ _ _ Hs Hr).
  reflexivity.
Qed.

(** C9 (as amended): [insert(entity)] writes one row. When the store
    returns a value for it, the identity is the caller's id whenever the
    entity carries a truthy one, whatever [generated] is, and the first
    value the store returned otherwise; an object is replaced by its
    member under the identity field; the call then resolves as
    [findById] of that identity on the table with the new row, which for
    a scalar identity is the first row whose identity column equals it.
    When the store returns no value, the call resolves with the empty
    result. *)
Theorem insert_resolves_identity (e : entity) (s : store) :
  match insertRow (rows s) e with
  | inl err => insert e s = (s, inl (StoreError err))
  | inr (t', returned) =>
      let s' := {| rows := t'; pending := pending s |} in
      match returned with
      | [] => insert e s = (s', inr (VArr []))
      | res0 :: _ =>
          let supplied := lookup_entry (idFieldName this) e in
          match unwrap this (if truthy supplied then supplied else res0) with
          | Some id =>
              insert e s = findById id s'
              /\ (is_scalar id = true ->
                  operatorRule (idFieldName this) id = false ->
                  insert e s
                  = (s', inr match List.filter
                                     (fun r => holds (compare r (idFieldName this) "=" id))
                                     t' with
                             | r :: _ => VObj r
                             | [] => VUndefined
                             end))
          | None => insert e s = (s', inl TypeError)
          end
      end
  end.
Proof.
  unfold Store.insert, await, Store.insertOn. cbn [rowsOf setRows].
  destruct (insertRow (rows s) e) as [err | [t' [ | res0 rest]]];
    try reflexivity.
  cbv zeta. unfold orElse.
  destruct (unwrap this _) as [id | ]; [ | reflexivity ].
  split; [ reflexivity | ].
  intros Hs Hr. cbn [orThrow resolve].
  apply (findById_scalar id {| rows := t'; pending := pending s |} Hs Hr).
Qed.

End CrudFacts.

Lemma removeById_is_idempotent_witness :
  let s := {| rows := [[("id", VNum 1); ("name", VStr "a")];
                       [("id", VNum 2); ("name", VStr "b")]];
              pending := None |} in
  let removeById :=
    Store.removeById string Sample.compare Sample.member Sample.isNull
      Sample.rawHolds Sample.adapter Sample.others Sample.noSuchColumn in
  exists s1,
    removeById (VNum 2) s = (s1, inr (VNum 2))
    /\ rows s1 = [[("id", VNum 1); ("name", VStr "a")]]
    /\ removeById (VNum 2) s1 = (s1, inr (VNum 2))
    /\ removeById (VNum 7) s = (s, inr (VNum 7)).
Proof.
  intros s removeById.
  destruct (removeById_is_idempotent string Sample.compare Sample.member
              Sample.isNull Sample.rawHolds Sample.adapter Sample.others
              Sample.noSuchColumn (VNum 2) s eq_refl)
    as (s1 & Hfirst & Hrows & _ & _ & _ & Hagain).
  destruct (removeById_is_idempotent string Sample.compare Sample.member
              Sample.isNull Sample.rawHolds Sample.adapter Sample.others
              Sample.noSuchColumn (VNum 7) s eq_refl)
    as (s2 & Hmiss & _ & _ & _ & Hsame & _).
  exists s1. split; [ exact Hfirst | ]. split; [ exact Hrows | ].
  split; [ exact Hagain | ].
  rewrite <- (Hsame ltac:(repeat constructor)) at 2. exact Hmiss.
Defined.

(** Scenario E and its counterpart: three entities of which the second has
    an identity the table already holds, and three entities that are all
    new. *)
Lemma insertMany_is_atomic_witness :
  let s := {| rows := [[("id", VNum 2); ("name", VStr "b")]]; pending := None |} in
  let insertMany :=
    Store.insertMany string Sample.compare Sample.member Sample.isNull
      Sample.rawHolds Sample.insertRow Sample.adapter in
  insertMany [[("id", VNum 1)]; [("id", VNum 2)]; [("id", VNum 3)]] false s
  = (s, inl (StoreError "duplicate id"))
  /\ insertMany [[("id", VNum 5)]; [("id", VNum 4)]; [("id", VNum 3)]] false s
     = ({| rows := [[("id", VNum 2); ("name", VStr "b")];
                    [("id", VNum 5)]; [("id", VNum 4)]; [("id", VNum 3)]];
           pending := None |},
        inr (VArr [VNum 5; VNum 4; VNum 3])).
Proof.
  intros s insertMany. split.
  - exact (insertMany_is_atomic string Sample.compare Sample.member Sample.isNull
             Sample.rawHolds Sample.insertRow Sample.adapter
             [[("id", VNum 1)]; [("id", VNum 2)]; [("id", VNum 3)]] false s).
  - apply (proj2 (insertMany_is_atomic string Sample.compare Sample.member
                    Sample.isNull Sample.rawHolds Sample.insertRow Sample.adapter
                    [[("id", VNum 5)]; [("id", VNum 4)]; [("id", VNum 3)]] false s)).
    repeat constructor; eexists; split; reflexivity.
Defined.

Lemma insert_resolves_identity_witness :
  let s := {| rows := [[("id", VStr "a")]]; pending := None |} in
  let e := [("id", VStr "abc"); ("title", VStr "t")] in
  Store.insert string Sample.compare Sample.member Sample.isNull Sample.rawHolds
    Sample.insertRowid Sample.adapter e s
  = ({| rows := [[("id", VStr "a")]; e]; pending := None |}, inr (VObj e)).
Proof.
  intros s e.
  apply (insert_resolves_identity string Sample.compare Sample.member Sample.isNull
           Sample.rawHolds Sample.insertRowid Sample.adapter e s); reflexivity.
Defined.

(** C9 as stated fails where the primary field is not generated by the
    user and the entity carries an id: the specification's identity is the
    value the store returned, here the row number 2, under which no row is
    found; the code reads the row back by the caller's id. *)
Lemma insert_ignores_generated_counterexample :
  let s := {| rows := [[("id", VStr "a")]]; pending := None |} in
  let e := [("id", VStr "abc"); ("title", VStr "t")] in
  let s' := {| rows := [[("id", VStr "a")]; e]; pending := None |} in
  generatedByUser Sample.adapter = false
  /\ Sample.insertRowid (rows s) e = inr (rows s', [VNum 2])
  /\ claimedIdentity Sample.adapter e (VNum 2) = Some (VNum 2)
  /\ Store.findById string Sample.compare Sample.member Sample.isNull
       Sample.rawHolds Sample.adapter (VNum 2) s' = (s', inr VUndefined)
  /\ Store.insert string Sample.compare Sample.member Sample.isNull Sample.rawHolds
       Sample.insertRowid Sample.adapter e s = (s', inr (VObj e))
  /\ Store.insert string Sample.compare Sample.member Sample.isNull Sample.rawHolds
       Sample.insertRowid Sample.adapter e s
     <> Store.findById string Sample.compare Sample.member Sample.isNull
          Sample.rawHolds Sample.adapter (VNum 2) s'.
Proof.
  cbv zeta. repeat split. discriminate.
Qed.

(** ** The schema operations *)

Section SchemaFacts.

Variable supported : string -> bool.
Variable admits : list tableCall -> bool.
Variable this : KnexAdapter.

Local Abbreviation columnOf := (Schema.columnOf supported).
Local Abbreviation columnsOf := (Schema.columnsOf supported).
Local Abbreviation createTable := (Schema.createTable supported admits this).

(** A field outside the vocabulary that is not virtual, and a field that
    is virtual or inside the vocabulary. *)
Local Abbreviation invalid f :=
  (Field.virtual f = false /\ supported (Field.columnType f) = false).
Local Abbreviation valid f :=
  (Field.virtual f = true \/ supported (Field.columnType f) = true).

Lemma columnOf_invalid (f : Field.t) :
  invalid f ->
  columnOf f = inl (InvalidType (Field.columnName f) (Field.columnType f)).
Proof. intros [Hv Hs]. unfold Schema.columnOf. rewrite Hv, Hs. reflexivity. Qed.

Lemma columnOf_valid (f : Field.t) :
  valid f -> exists made, columnOf f = inr made.
Proof.
  intros Hf. unfold Schema.columnOf.
  destruct (Field.virtual f) eqn:Hv; [ eauto | ].
  destruct Hf as [Hf | Hf]; [ discriminate Hf | ]. rewrite Hf.
  cbn [negb]. destruct (Field.primaryKey f);
    [ destruct (generatedBy f "user") | destruct (String.eqb _ _) ]; eauto.
Qed.

(** The first invalid field of a list that has one. *)
Lemma first_invalid (fields : list Field.t) :
  Exists (fun f => invalid f) fields ->
  exists before f after,
    fields = before ++ f :: after
    /\ Forall (fun g => valid g) before
    /\ invalid f.
Proof.
  induction fields as [ | g fields IH ]; intros Hex; [ inversion Hex | ].
  destruct (Field.virtual g) eqn:Hv;
    [ | destruct (supported (Field.columnType g)) eqn:Hs ].
  - assert (Hrest : Exists (fun f => invalid f) fields)
      by (inversion Hex as [ ? ? [Hf _] | ]; [ congruence | assumption ]).
    destruct (IH Hrest) as (before & f & after & -> & Hbefore & Hf).
    exists (g :: before), f, after. split; [ reflexivity | ].
    split; [ constructor; [ left; exact Hv | exact Hbefore ] | exact Hf ].
  - assert (Hrest : Exists (fun f => invalid f) fields)
      by (inversion Hex as [ ? ? [_ Hf] | ]; [ congruence | assumption ]).
    destruct (IH Hrest) as (before & f & after & -> & Hbefore & Hf).
    exists (g :: before), f, after. split; [ reflexivity | ].
    split; [ constructor; [ right; exact Hs | exact Hbefore ] | exact Hf ].
  - exists [], g, fields. split; [ reflexivity | ].
    split; [ constructor | split; assumption ].
Qed.

(** The loop over the fields stops at the first invalid field, with the
    error of that field. *)
Lemma columnsOf_invalid (before after : list Field.t) (f : Field.t) :
  Forall (fun g => valid g) before ->
  invalid f ->
  columnsOf (before ++ f :: after)
  = inl (InvalidType (Field.columnName f) (Field.columnType f)).
Proof.
  intros Hbefore Hf. induction Hbefore as [ | g before Hg _ IH ].
  - cbn [app Schema.columnsOf]. rewrite (columnOf_invalid f Hf). reflexivity.
  - cbn [app Schema.columnsOf]. destruct (columnOf_valid g Hg) as [made ->].
    rewrite IH. reflexivity.
Qed.

(** What [createTable] does when a field is invalid: the drop, when it
    is asked for, and the rejection. *)
Lemma createTable_rejected (fields : option (list Field.t)) (opts : option Opts)
    (cat : catalog) (before after : list Field.t) (f : Field.t) :
  default (serviceFields (service this)) fields = before ++ f :: after ->
  Forall (fun g => valid g) before ->
  invalid f ->
  createTable fields opts cat
  = ((if dropsFirst opts then delete (tableName this) cat else cat),
     inl (InvalidType (Field.columnName f) (Field.columnType f))).
Proof.
  intros Hfields Hbefore Hf.
  unfold Schema.createTable, Schema.tableCallback.
  rewrite Hfields, (columnsOf_invalid before after f Hbefore Hf).
  destruct (dropsFirst opts); [ | reflexivity ].
  unfold hasTable, Schema.dropTable.
  destruct (cat !! tableName this) as [def | ] eqn:Hcat.
  - rewrite bool_decide_true by eauto. reflexivity.
  - rewrite bool_decide_false by (intros [? ?]; congruence).
    cbv beta iota zeta. rewrite delete_id by exact Hcat. reflexivity.
Qed.

(** C4 (as amended): when a non-virtual field has a column type outside
    the vocabulary of the table builder, [createTable] is rejected with
    the error of the first such field, the one before which every field
    is virtual or of a supported type, and creates no table. Every other
    table is left as it was, and so is the whole catalog when no table
    of that name existed or when [dropTableIfExists] is [false]. When
    the drop is not switched off, an existing table of that name is
    dropped before the fields are examined, and is gone after the
    rejection. *)
Theorem createTable_unsupported_type (fields : option (list Field.t))
    (opts : option Opts) (cat : catalog) :
  Exists (fun f => invalid f) (default (serviceFields (service this)) fields) ->
  exists before f after cat',
    default (serviceFields (service this)) fields = before ++ f :: after
    /\ Forall (fun g => valid g) before
    /\ invalid f
    /\ createTable fields opts cat
       = (cat', inl (InvalidType (Field.columnName f) (Field.columnType f)))
    /\ cat' = (if dropsFirst opts then delete (tableName this) cat else cat)
    /\ (forall name, name <> tableName this -> cat' !! name = cat !! name)
    /\ (cat !! tableName this = None -> cat' = cat)
    /\ (dropsFirst opts = false -> cat' = cat)
    /\ (dropsFirst opts = true -> cat' !! tableName this = None).
Proof.
  intros Hex.
  destruct (first_invalid _ Hex) as (before & f & after & Hfields & Hbefore & Hf).
  exists before, f, after,
    (if dropsFirst opts then delete (tableName this) cat else cat).
  split; [ exact Hfields | ]. split; [ exact Hbefore | ]. split; [ exact Hf | ].
  split; [ apply (createTable_rejected fields opts cat before after f); assumption | ].
  split; [ reflexivity | ].
  destruct (dropsFirst opts); repeat split; intros; try discriminate;
    try reflexivity.
  - apply lookup_delete_ne. congruence.
  - apply delete_id. assumption.
  - apply lookup_delete_eq.
Qed.

End SchemaFacts.

Lemma createTable_unsupported_type_witness :
  let bad :=
    {| Field.columnName := "body"; Field.columnType := "jsonx";
       Field.primaryKey := false; Field.generated := None;
       Field.columnLength := VUndefined; Field.max := VUndefined;
       Field.length := VUndefined; Field.virtual := false |} in
  let worse :=
    {| Field.columnName := "tags"; Field.columnType := "setx";
       Field.primaryKey := false; Field.generated := None;
       Field.columnLength := VUndefined; Field.max := VUndefined;
       Field.length := VUndefined; Field.virtual := false |} in
  let keep := Some {| dropTableIfExists := VBool false; createIndexes := false |} in
  let cat : catalog := {[ "posts" := [column "string" [VStr "title"] false] ]} in
  Schema.createTable Sample.supported Sample.admits Sample.adapter
    (Some [Sample.idField; bad; worse]) keep cat
  = (cat, inl (InvalidType "body" "jsonx")).
Proof.
  intros bad worse keep cat.
  destruct (createTable_unsupported_type Sample.supported Sample.admits
              Sample.adapter (Some [Sample.idField; bad; worse]) keep cat)
    as (before & f & after & cat' & Hfields & Hbefore & Hf & Hrun & _ & _ & _
        & Hkeep & _).
  - right. left. split; reflexivity.
  - rewrite Hrun, (Hkeep eq_refl).
    assert (Hfirst : f = bad).
    { cbn in Hfields.
      destruct before as [ | b0 [ | b1 [ | b2 before ] ] ]; cbn in Hfields.
      - injection Hfields as <- _. destruct Hf as [_ Hf]. discriminate Hf.
      - injection Hfields as _ <- _. reflexivity.
      - injection Hfields as _ <- _ _.
        inversion Hbefore as [ | ? ? _ Hrest ]; subst.
        inversion Hrest as [ | ? ? [Hb | Hb] _ ]; discriminate Hb.
      - injection Hfields as _ _ _ Hnil. destruct before; discriminate Hnil. }
    rewrite Hfirst. reflexivity.
Defined.

(** C4 as stated fails when the table exists and the drop is not switched
    off: with the default options the table [posts] is dropped, then the
    field of type [jsonx] is rejected, and the table is gone. *)
Lemma createTable_drops_before_validating_counterexample :
  let bad :=
    {| Field.columnName := "body"; Field.columnType := "jsonx";
       Field.primaryKey := false; Field.generated := None;
       Field.columnLength := VUndefined; Field.max := VUndefined;
       Field.length := VUndefined; Field.virtual := false |} in
  let opts := Some {| dropTableIfExists := VUndefined; createIndexes := false |} in
  let cat : catalog := {[ "posts" := [column "string" [VStr "title"] false] ]} in
  let after :=
    Schema.createTable Sample.supported Sample.admits Sample.adapter (Some [bad])
      opts cat in
  Sample.supported "jsonx" = false
  /\ cat !! "posts" = Some [column "string" [VStr "title"] false]
  /\ after.2 = inl (InvalidType "body" "jsonx")
  /\ after.1 !! "posts" = None
  /\ after.1 <> cat.
Proof.
  cbv zeta. split; [ reflexivity | ]. split; [ reflexivity | ].
  split; [ reflexivity | ]. split; [ reflexivity | ].
  intros H.
  assert (Hl : (Schema.createTable Sample.supported Sample.admits Sample.adapter
                  (Some [{| Field.columnName := "body"; Field.columnType := "jsonx";
                            Field.primaryKey := false; Field.generated := None;
                            Field.columnLength := VUndefined; Field.max := VUndefined;
                            Field.length := VUndefined; Field.virtual := false |}])
                  (Some {| dropTableIfExists := VUndefined; createIndexes := false |})
                  ({[ "posts" := [column "string" [VStr "title"] false] ]} : catalog)).1
                !! "posts" = None) by reflexivity.
  rewrite H in Hl. discriminate Hl.
Qed.


(* ===================================================================== *)
(** * Further properties of the filter compiler                           *)
(* ===================================================================== *)

(** The calls of one entry are joined with [and]. *)
Lemma entry_andCall recur fieldName key fieldValue cs :
  entry recur [] fieldName key fieldValue = Some cs ->
  forallb andCall cs = true.
Proof.
  unfold entry, calls.
  repeat match goal with
         | |- context [if ?c then _ else _] => destruct c
         end;
    repeat (cbn [mbind option_bind]; unfold rawCall;
            match goal with
            | |- context [if ?c then _ else _] => destruct c
            | |- context [mbind _ ?o] => destruct o
            end);
    cbn [mbind option_bind app]; intros [= <-]; reflexivity.
Qed.

Lemma computeQuery_andCall (es : list (string * value)) fieldName cs :
  computeQuery [] (VObj es) fieldName = Some cs ->
  forallb andCall cs = true.
Proof.
  revert cs. induction es as [ | [key fieldValue] es IH ]; intros cs.
  - intros [= <-]. reflexivity.
  - rewrite computeQuery_cons.
    destruct (entry (computeQuery []) [] fieldName key fieldValue) as [c1 | ] eqn:He;
      cbn [mbind option_bind]; [ | discriminate ].
    rewrite computeQuery_appends.
    destruct (computeQuery [] (VObj es) fieldName) as [c2 | ] eqn:Hrest;
      cbn [mbind option_bind]; [ | discriminate ].
    intros [= <-]. rewrite forallb_app, (entry_andCall _ _ _ _ _ He), (IH c2 eq_refl).
    reflexivity.
Qed.

(** X1: whatever the spec is, a successful [computeQuery] keeps the calls
    already made on the builder, in their order, and adds behind them only
    where calls that Knex joins with [and]: no [orWhere] at the level of
    the builder, and no aggregate, ordering, limit or offset call at any
    depth. *)
Theorem computeQuery_adds_where_calls_only
    (q : builder) (spec : value) (scopeField : string) (q' : builder) :
  computeQuery q spec scopeField = Some q' ->
  exists cs,
    q' = q ++ cs
    /\ computeQuery [] spec scopeField = Some cs
    /\ forallb andCall cs = true
    /\ forallb whereOnly cs = true.
Proof.
  intros Hq.
  destruct (isMapping spec) eqn:Hm.
  - destruct spec as [ | | | | | | es ]; try discriminate Hm.
    rewrite computeQuery_appends in Hq.
    destruct (computeQuery [] (VObj es) scopeField) as [cs | ] eqn:Hcs;
      [ | discriminate Hq ].
    injection Hq as <-. exists cs.
    split; [ reflexivity | ]. split; [ reflexivity | ].
    split; [ eapply computeQuery_andCall, Hcs | ].
    eapply (proj1 (computeQuery_whereOnly (VObj es)) [] scopeField cs eq_refl Hcs).
  - assert (Hguard : notAnObject spec = true)
      by (rewrite notAnObject_isMapping, Hm; reflexivity).
    rewrite computeQuery_guard in Hq by exact Hguard. injection Hq as <-.
    exists []. rewrite app_nil_r, computeQuery_guard by exact Hguard.
    repeat split.
Qed.

Lemma computeQuery_adds_where_calls_only_witness :
  exists cs,
    [count_star; whereFn [where3 "age" ">" (VNum 1)];
     whereFn [whereFn [where2 "a" (VNum 1)]; orWhereFn [where2 "b" (VNum 2)]]]
    = [count_star] ++ cs
    /\ computeQuery []
         (VObj [("age", VObj [("$gt", VNum 1)]);
                ("$or", VArr [VObj [("a", VNum 1)]; VObj [("b", VNum 2)]])]) ""
       = Some cs
    /\ forallb andCall cs = true
    /\ forallb whereOnly cs = true.
Proof.
  apply (computeQuery_adds_where_calls_only [count_star]
           (VObj [("age", VObj [("$gt", VNum 1)]);
                  ("$or", VArr [VObj [("a", VNum 1)]; VObj [("b", VNum 2)]])]) "").
  reflexivity.
Defined.

(** A [$raw] entry that is an array has no [condition]. *)
Lemma rawFails_array (items : list value) : rawFails (VArr items) = true.
Proof. reflexivity. Qed.

(** The [$raw] entries that raise, and those that do not. *)
Lemma entry_raw_fails recur q fieldName fieldValue :
  rawFails fieldValue = true ->
  entry recur q fieldName "$raw" fieldValue = None.
Proof.
  intros H. destruct fieldValue as [ | | b | n | s | items | entries ];
    try discriminate H; try reflexivity.
  unfold rawFails in H. cbn [typeof String.eqb Ascii.eqb Bool.eqb andb get] in H.
  unfold entry. cbn [String.eqb Ascii.eqb Bool.eqb andb typeof get mbind option_bind].
  unfold rawCall. rewrite H. reflexivity.
Qed.

Lemma entry_raw_succeeds recur q fieldName fieldValue :
  rawFails fieldValue = false ->
  is_Some (entry recur q fieldName "$raw" fieldValue).
Proof.
  intros H. destruct fieldValue as [ | | b | n | s | items | entries ];
    try discriminate H; try (unfold entry; cbn; eauto).
  unfold rawFails in H. cbn [typeof String.eqb Ascii.eqb Bool.eqb andb get] in H.
  unfold rawCall. rewrite H. cbn. eauto.
Qed.

(** One entry is compiled without an exception unless it is a [$raw]
    entry that raises, when the recursive calls are. *)
Lemma entry_succeeds recur q fieldName key fieldValue :
  String.eqb key "$raw" && rawFails fieldValue = false ->
  (forall scope, is_Some (recur fieldValue scope)) ->
  (forall items scope, fieldValue = VArr items ->
                       is_Some (mapM (fun e => recur e scope) items)) ->
  is_Some (entry recur q fieldName key fieldValue).
Proof.
  intros Hraw Hrecur Hitems.
  destruct (String.eqb_spec key "$raw") as [-> | Nraw];
    [ apply entry_raw_succeeds, Hraw | clear Hraw ].
  destruct (String.eqb_spec key "$or") as [-> | Nor].
  { destruct fieldValue as [ | | | | | items | ];
      try solve [ unfold entry; cbn;
                  try (destruct (Hrecur "$or") as [? ->]); cbn; eauto ].
    rewrite entry_or. destruct (Hitems items fieldName eq_refl) as [bodies ->].
    cbn. eauto. }
  destruct (String.eqb_spec key "$and") as [-> | Nand].
  { destruct fieldValue as [ | | | | | items | ];
      try solve [ unfold entry; cbn;
                  try (destruct (Hrecur "$and") as [? ->]); cbn; eauto ].
    rewrite entry_and. destruct (Hitems items fieldName eq_refl) as [bodies ->].
    cbn. eauto. }
  destruct (String.eqb_spec key "$nor") as [-> | Nnor].
  { destruct fieldValue as [ | | | | | items | ];
      try solve [ unfold entry; cbn;
                  try (destruct (Hrecur "$nor") as [? ->]); cbn; eauto ].
    rewrite entry_nor. destruct (Hitems items fieldName eq_refl) as [bodies ->].
    cbn. eauto. }
  clear Hitems. unfold entry. split_key;
    destruct fieldValue as [ | | [ | ] | | | | entries ];
    cbn [andb orb isArray strictEqBool Bool.eqb typeof String.eqb Ascii.eqb];
    repeat match goal with
           | |- context [recur ?v ?scope] => destruct (Hrecur scope) as [? ->]
           end;
    cbn [mbind option_bind]; eauto.
Qed.

Lemma computeQuery_succeeds (v : value) :
  (rawError v = false -> forall q scope, is_Some (computeQuery q v scope))
  /\ (forall items, v = VArr items -> rawError v = false ->
        Forall (fun e => forall scope, is_Some (computeQuery [] e scope)) items).
Proof.
  induction v as [ | | b | n | s | items IH | entries IH ] using value_ind';
    try (split; [ intros _ q scope; rewrite computeQuery_guard
                    by (rewrite notAnObject_isMapping; reflexivity); eauto
                | intros items' H; discriminate H ]).
  - split; [ intros _ q scope; eauto | ].
    intros items' [= <-] Hraw. cbn [rawError] in Hraw.
    induction IH as [ | e items [He _] _ IHitems ]; constructor.
    + intros scope. apply He. cbn in Hraw. apply orb_false_elim in Hraw. tauto.
    + apply IHitems. cbn in Hraw. apply orb_false_elim in Hraw. tauto.
  - split; [ | intros items' H; discriminate H ].
    induction IH as [ | [key fieldValue] es [Hfv Hitems] _ IHes ];
      intros Hraw q scope.
    + eauto.
    + cbn [rawError existsb fst snd] in Hraw.
      apply orb_false_elim in Hraw as [Hhead Hrest].
      apply orb_false_elim in Hhead as [Hnull Hdeep].
      rewrite computeQuery_cons.
      destruct (entry_succeeds (computeQuery []) q scope key fieldValue Hnull)
        as [q1 ->].
      * intros scope'. apply Hfv, Hdeep.
      * intros items scope' ->. apply mapM_is_Some.
        eapply Forall_impl; [ apply (Hitems items eq_refl Hdeep) | ].
        intros e He. apply He.
      * cbn [mbind option_bind]. apply IHes. exact Hrest.
Qed.

(** X2: the only exception of [computeQuery], and of the grouping
    callbacks of the builder it returns, is the TypeError of a [$raw]
    entry that is [null], or an object or an array whose [condition] is
    [undefined] or [null]. On a spec without such an entry at any depth a
    builder is returned for every builder and scope field; with such an
    entry among the entries of the mapping, none is. *)
Theorem computeQuery_raises_only_on_raw
    (q : builder) (spec : value) (scopeField : string) :
  (rawError spec = false -> exists q', computeQuery q spec scopeField = Some q')
  /\ (forall (before after : list (string * value)) (fieldValue : value),
        spec = VObj (before ++ ("$raw", fieldValue) :: after) ->
        rawFails fieldValue = true ->
        computeQuery q spec scopeField = None).
Proof.
  split.
  - intros Hraw. apply (proj1 (computeQuery_succeeds spec) Hraw).
  - intros before after fieldValue -> Hfails. rewrite computeQuery_app.
    destruct (computeQuery q (VObj before) scopeField) as [q1 | ];
      cbn [mbind option_bind]; [ | reflexivity ].
    rewrite computeQuery_cons, (entry_raw_fails _ _ _ _ Hfails). reflexivity.
Qed.

Lemma computeQuery_raises_only_on_raw_witness :
  (exists q',
     computeQuery [count_star]
       (VObj [("$raw", VObj [("condition", VStr "a > ?"); ("bindings", VArr [VNum 1])]);
              ("tags", VObj [("$in", VArr [VNull])]);
              ("$nor", VArr [VObj [("$raw", VStr "1 = 1")]; VNull])]) "" = Some q')
  /\ computeQuery [] (VObj ([("a", VNum 1)] ++ ("$raw", VObj []) :: [])) "" = None
  /\ computeQuery [] (VObj ([] ++ ("$raw", VArr [VStr "a = 1"]) :: [])) "" = None.
Proof.
  split; [ | split ].
  - apply computeQuery_raises_only_on_raw. reflexivity.
  - apply (proj2 (computeQuery_raises_only_on_raw [] _ "") [("a", VNum 1)] []
             (VObj []) eq_refl eq_refl).
  - apply (proj2 (computeQuery_raises_only_on_raw [] _ "") [] []
             (VArr [VStr "a = 1"]) eq_refl eq_refl).
Defined.

(** X3: a [$raw] entry whose value is [null] makes [computeQuery] raise
    the TypeError of reading [null.condition], wherever the entry stands
    in the mapping and whatever the other entries are. *)
Theorem raw_null_is_a_type_error
    (q : builder) (before after : list (string * value)) (scopeField : string) :
  computeQuery q (VObj (before ++ ("$raw", VNull) :: after)) scopeField = None.
Proof.
  rewrite computeQuery_app.
  destruct (computeQuery q (VObj before) scopeField) as [q1 | ];
    cbn [mbind option_bind]; [ | reflexivity ].
  rewrite computeQuery_cons. reflexivity.
Qed.

(** X4: a [$raw] entry whose value is neither a string nor an object (a
    number, a boolean, [undefined]) adds no call: the spec compiles as it
    does without the entry. *)
Theorem raw_scalar_is_ignored
    (q : builder) (before after : list (string * value)) (fieldValue : value)
    (scopeField : string) :
  String.eqb (typeof fieldValue) "string" = false ->
  String.eqb (typeof fieldValue) "object" = false ->
  computeQuery q (VObj (before ++ ("$raw", fieldValue) :: after)) scopeField
  = computeQuery q (VObj (before ++ after)) scopeField.
Proof.
  intros Hs Ho. rewrite !computeQuery_app.
  destruct (computeQuery q (VObj before) scopeField) as [q1 | ];
    cbn [mbind option_bind]; [ | reflexivity ].
  rewrite computeQuery_cons.
  assert (He : entry (computeQuery []) q1 scopeField "$raw" fieldValue = Some q1).
  { unfold entry. cbn [String.eqb Ascii.eqb Bool.eqb andb].
    destruct fieldValue; try discriminate Hs; try discriminate Ho; reflexivity. }
  rewrite He. reflexivity.
Qed.

Lemma raw_scalar_is_ignored_witness :
  computeQuery [] (VObj ([("a", VNum 1)] ++ ("$raw", VNum 5) :: [("b", VNum 2)])) ""
  = Some [where2 "a" (VNum 1); where2 "b" (VNum 2)].
Proof.
  rewrite (raw_scalar_is_ignored [] [("a", VNum 1)] [("b", VNum 2)] (VNum 5) ""
             eq_refl eq_refl).
  reflexivity.
Defined.

Section Conjunction.

Variable row : Type.
Variable compare : row -> string -> string -> value -> truth.
Variable member : row -> string -> value -> truth.
Variable isNull : row -> string -> bool.
Variable rawHolds : row -> value -> value -> truth.

Local Abbreviation stmt := (statement row compare member isNull rawHolds).
Local Abbreviation sel := (selects row compare member isNull rawHolds).

(** The statements of calls that are joined with [and]. *)
Lemma andCalls_statements r (cs : list call) :
  forallb andCall cs = true ->
  exists bs, omap (stmt r) cs = pair And <$> bs.
Proof.
  induction cs as [ | c cs IH ]; intros Hcs.
  - exists []. reflexivity.
  - cbn [forallb] in Hcs. apply andb_prop in Hcs as [Hc Hcs].
    destruct (IH Hcs) as [bs Hbs]. cbn [omap list_omap]. fold (omap (stmt r) cs).
    rewrite Hbs.
    destruct c; try discriminate Hc; cbn [statement];
      try (eexists (_ :: bs); reflexivity);
      match goal with
      | |- context [clause ?l] =>
          destruct (clause l); [ eexists (_ :: bs); reflexivity | exists bs; reflexivity ]
      end.
Qed.

Lemma selects_all_and r (cs : list call) (bs : list truth) :
  omap (stmt r) cs = pair And <$> bs -> sel r cs = forallb holds bs.
Proof.
  intros H. unfold selects, whereClause. rewrite H, clause_all_and.
  destruct bs; [ reflexivity | apply holds_all3 ].
Qed.

Lemma selects_app_and r (cs1 cs2 : list call) :
  forallb andCall cs1 = true -> forallb andCall cs2 = true ->
  sel r (cs1 ++ cs2) = sel r cs1 && sel r cs2.
Proof.
  intros H1 H2.
  destruct (andCalls_statements r cs1 H1) as [bs1 Hbs1].
  destruct (andCalls_statements r cs2 H2) as [bs2 Hbs2].
  rewrite (selects_all_and r cs1 bs1 Hbs1), (selects_all_and r cs2 bs2 Hbs2).
  rewrite (selects_all_and r (cs1 ++ cs2) (bs1 ++ bs2)).
  - apply forallb_app.
  - rewrite omap_app, Hbs1, Hbs2, fmap_app. reflexivity.
Qed.

(** X5: the entries of one mapping are conjoined. When two mappings
    compile under a scope, the mapping with the entries of both compiles
    to the calls of the first followed by the calls of the second, a row
    is selected by it exactly when it is selected by both, and so the
    order in which the entries are listed does not change the rows
    selected. *)
Theorem mapping_entries_are_conjoined
    (es1 es2 : list (string * value)) (scopeField : string) (cs1 cs2 : builder) :
  computeQuery [] (VObj es1) scopeField = Some cs1 ->
  computeQuery [] (VObj es2) scopeField = Some cs2 ->
  computeQuery [] (VObj (es1 ++ es2)) scopeField = Some (cs1 ++ cs2)
  /\ computeQuery [] (VObj (es2 ++ es1)) scopeField = Some (cs2 ++ cs1)
  /\ forall r, sel r (cs1 ++ cs2) = sel r cs1 && sel r cs2
               /\ sel r (cs2 ++ cs1) = sel r (cs1 ++ cs2).
Proof.
  intros H1 H2.
  assert (Happ : forall a b ca cb,
             computeQuery [] (VObj a) scopeField = Some ca ->
             computeQuery [] (VObj b) scopeField = Some cb ->
             computeQuery [] (VObj (a ++ b)) scopeField = Some (ca ++ cb)).
  { intros a b ca cb Ha Hb. rewrite computeQuery_app, Ha. cbn [mbind option_bind].
    rewrite computeQuery_appends, Hb. reflexivity. }
  split; [ apply Happ; assumption | ]. split; [ apply Happ; assumption | ].
  intros r.
  pose proof (computeQuery_andCall es1 scopeField cs1 H1) as A1.
  pose proof (computeQuery_andCall es2 scopeField cs2 H2) as A2.
  rewrite !selects_app_and by assumption.
  split; [ reflexivity | apply andb_comm ].
Qed.

End Conjunction.

Lemma mapping_entries_are_conjoined_witness :
  let r := [("age", VNum 40); ("status", VStr "active")] in
  computeQuery []
    (VObj ([("age", VObj [("$gt", VNum 30)])] ++ [("status", VStr "active")])) ""
  = Some ([whereFn [where3 "age" ">" (VNum 30)]] ++ [where2 "status" (VStr "active")])
  /\ Sample.selects r ([whereFn [where3 "age" ">" (VNum 30)]]
                       ++ [where2 "status" (VStr "active")]) = true.
Proof.
  intros r.
  destruct (mapping_entries_are_conjoined entity Sample.compare Sample.member
              Sample.isNull Sample.rawHolds
              [("age", VObj [("$gt", VNum 30)])] [("status", VStr "active")] ""
              [whereFn [where3 "age" ">" (VNum 30)]] [where2 "status" (VStr "active")]
              eq_refl eq_refl) as (Hc & _ & Hsel).
  split; [ exact Hc | ].
  unfold Sample.selects. rewrite (proj1 (Hsel r)). reflexivity.
Defined.

(* ===================================================================== *)
(** * Further properties of the query assembler                           *)
(* ===================================================================== *)

Lemma searchFrom_from_nil (fields : list string) (i : nat) (q : builder) pattern :
  searchFrom i q fields pattern = q ++ searchFrom i [] fields pattern.
Proof.
  revert i q. induction fields as [ | field fields IH ]; intros i q.
  - cbn. rewrite app_nil_r. reflexivity.
  - cbn [searchFrom]. rewrite IH. rewrite (IH (S i) (if Nat.eqb i 0 then _ else _)).
    destruct (Nat.eqb i 0); unfold calls; cbn [app]; rewrite <- app_assoc; reflexivity.
Qed.

Lemma searchFrom_later (fields : list string) (i : nat) pattern :
  searchFrom (S i) [] fields pattern
  = (fun field => orWhere3 field "like" pattern) <$> fields.
Proof.
  revert i. induction fields as [ | field fields IH ]; intros i; [ reflexivity | ].
  cbn [searchFrom Nat.eqb]. rewrite searchFrom_from_nil, IH. reflexivity.
Qed.

Lemma sortEach_from_nil (pSort : list value) (q : builder) :
  sortEach q pSort = sortEach [] pSort ≫= fun os => Some (q ++ os).
Proof.
  revert q. induction pSort as [ | field pSort IH ]; intros q.
  - cbn. rewrite app_nil_r. reflexivity.
  - cbn [sortEach]. destruct field; try reflexivity. cbn [sortField].
    repeat match goal with
           | |- context [if ?c then _ else _] => destruct c
           end;
      cbn [mbind option_bind]; rewrite IH; rewrite (IH (calls [] _));
      destruct (sortEach [] pSort); cbn [mbind option_bind]; unfold calls;
      rewrite <- ?app_assoc; reflexivity.
Qed.

Section Assembler.

Variable this : KnexAdapter.
Variables (query search : value) (searchFields : option (list string)).

(** The parameters of this section, by their sort, limit and offset. *)
Local Abbreviation params sort limit offset :=
  {| Params.query := query; Params.search := search;
     Params.searchFields := searchFields; Params.sort := sort;
     Params.limit := limit; Params.offset := offset |}.

(** The filter [createQuery] compiles. *)
Local Abbreviation filter :=
  (if truthy query then objectAssign query else VObj []).

(** The calls of the text search. *)
Local Abbreviation searchCalls :=
  (match search, searchFields with
   | VStr s, Some fields =>
       if negb (String.eqb s "") then searchFrom 0 [] fields (VStr ("%" +:+ s +:+ "%"))
       else []
   | _, _ => []
   end).

(** The limit and offset calls. *)
Local Abbreviation limitCalls lim :=
  (if isNumber lim && positive lim then [limit lim] else []).

Local Abbreviation offsetCalls sort off :=
  (if isNumber off && positive off then
     (if negb (truthy sort) && String.eqb (client this) "mssql"
      then [orderBy (idFieldName this) "asc"] else []) ++ [offset off]
   else []).

(** The assembled query, part by part. *)
Lemma createQuery_parts (sort lim off : value) (counting : bool) :
  createQuery this (Some (params sort lim off)) counting
  = computeQuery [] filter "" ≫= fun cs =>
    (if negb counting && truthy sort then
       match sort with
       | VStr f => sortEach [] [VStr f]
       | VArr pSort => sortEach [] pSort
       | _ => None
       end
     else Some []) ≫= fun os =>
    Some ((if counting then [count_star] else []) ++ cs ++ searchCalls ++ os
          ++ (if counting then [] else limitCalls lim ++ offsetCalls sort off)).
Proof.
  unfold createQuery.
  cbn [Params.query Params.search Params.searchFields Params.sort Params.limit
       Params.offset].
  assert (Hmap : exists es, filter = VObj es).
  { destruct (truthy query); [ apply objectAssign_isMapping | eauto ]. }
  destruct Hmap as [es ->]. rewrite computeQuery_appends.
  destruct (computeQuery [] (VObj es) "") as [cs | ]; cbn [mbind option_bind];
    [ | reflexivity ].
  set (pre := if counting then calls [] count_star else []).
  assert (Hpre : pre = if counting then [count_star] else [])
    by (subst pre; destruct counting; reflexivity).
  rewrite <- Hpre. clearbody pre.
  set (searched := match search with VStr s => _ | _ => _ end).
  assert (Hsearched : searched = (pre ++ cs) ++ searchCalls).
  { subst searched. destruct search as [ | | | | s | | ];
      try (rewrite app_nil_r; reflexivity).
    destruct searchFields as [fields | ]; [ | rewrite app_nil_r; reflexivity ].
    destruct (negb (String.eqb s "")); [ | rewrite app_nil_r; reflexivity ].
    apply searchFrom_from_nil. }
  rewrite Hsearched. clearbody searched. clear Hsearched.
  destruct counting; cbn [negb andb].
  - cbn [mbind option_bind]. rewrite !app_nil_r, <- !app_assoc. reflexivity.
  - assert (Hsort : forall pSort,
               sortEach ((pre ++ cs) ++ searchCalls) pSort
               = sortEach [] pSort ≫= fun os => Some (((pre ++ cs) ++ searchCalls) ++ os))
      by (intros; apply sortEach_from_nil).
    destruct (truthy sort) eqn:Hts; cbn [negb andb].
    + destruct sort as [ | | | | f | pSort | ];
        try reflexivity; rewrite Hsort;
        match goal with
        | |- context [sortEach [] ?l] => destruct (sortEach [] l) as [os | ]
        end; cbn [mbind option_bind]; try reflexivity;
        destruct (isNumber lim && positive lim);
        destruct (isNumber off && positive off);
        unfold calls; cbn [app]; rewrite <- ?app_assoc; cbn [app];
        rewrite ?app_nil_r; reflexivity.
    + cbn [mbind option_bind].
      destruct (isNumber lim && positive lim);
        destruct (isNumber off && positive off);
        destruct (String.eqb (client this) "mssql");
        unfold calls; cbn [app]; rewrite <- ?app_assoc; cbn [app];
        rewrite ?app_nil_r; rewrite <- ?app_assoc; reflexivity.
Qed.

(** X6: a sort given as one non-empty string is assembled as the sort
    given as the sequence of that one string, in every mode and with every
    other parameter. *)
Theorem sort_string_is_singleton (f : string) (lim off : value) (counting : bool) :
  String.eqb f "" = false ->
  createQuery this (Some (params (VStr f) lim off)) counting
  = createQuery this (Some (params (VArr [VStr f]) lim off)) counting.
Proof.
  intros Hf. rewrite !createQuery_parts. cbn [truthy]. rewrite Hf. reflexivity.
Qed.

Lemma sortEach_strings (tokens : list string) :
  exists os,
    sortEach [] (VStr <$> tokens) = Some os
    /\ Forall2 (fun t o => sortField [] (VStr t) = Some [o]) tokens os.
Proof.
  induction tokens as [ | t tokens (os & Hos & Hall) ].
  - exists []. split; [ reflexivity | constructor ].
  - assert (Hone : exists o, sortField [] (VStr t) = Some [o]).
    { cbn [sortField].
      repeat match goal with
             | |- context [if ?c then _ else _] => destruct c
             end; eauto. }
    destruct Hone as [o Ho]. exists (o :: os). split.
    + cbn [fmap list_fmap sortEach]. rewrite Ho. cbn [mbind option_bind].
      rewrite sortEach_from_nil. fold (fmap (M:=list) VStr tokens). rewrite Hos.
      reflexivity.
    + constructor; assumption.
Qed.

(** X7: outside counting mode, a sort given as a sequence of strings adds
    one ordering call for each token, in the order of the tokens, behind
    the calls of the filter and of the search; the limit call, then the
    offset call, each for a positive number only, come behind the
    ordering. The filter and search calls are those of the query without
    sort, limit and offset. *)
Theorem sort_tokens_in_order (tokens : list string) (lim off : value) :
  exists os,
    Forall2 (fun t o => sortField [] (VStr t) = Some [o]) tokens os
    /\ createQuery this (Some (params (VArr (VStr <$> tokens)) lim off)) false
       = createQuery this (Some (params VUndefined VUndefined VUndefined)) false
         ≫= fun base =>
              Some (base ++ os ++ limitCalls lim
                    ++ (if isNumber off && positive off then [offset off] else [])).
Proof.
  destruct (sortEach_strings tokens) as (os & Hos & Hall).
  exists os. split; [ exact Hall | ].
  rewrite !createQuery_parts. cbn [negb andb truthy isNumber positive].
  rewrite Hos.
  destruct (computeQuery [] filter "") as [cs | ]; cbn [mbind option_bind];
    [ | reflexivity ].
  rewrite !app_nil_r, <- !app_assoc.
  destruct (isNumber off && positive off); reflexivity.
Qed.

(** X8: outside counting mode and without a sort, a positive offset is
    added behind the limit, and on the [mssql] client, and only there, an
    ascending ordering on the identity column is put in front of it. *)
Theorem offset_without_sort (sort lim off : value) :
  truthy sort = false ->
  isNumber off && positive off = true ->
  createQuery this (Some (params sort lim off)) false
  = createQuery this (Some (params VUndefined lim VUndefined)) false
    ≫= fun base =>
         Some (base ++ (if String.eqb (client this) "mssql"
                        then [orderBy (idFieldName this) "asc"] else [])
               ++ [offset off]).
Proof.
  intros Hsort Hoff. rewrite !createQuery_parts.
  cbn [negb andb truthy isNumber positive]. rewrite Hsort, Hoff.
  cbn [mbind option_bind negb andb].
  destruct (computeQuery [] filter "") as [cs | ]; cbn [mbind option_bind];
    [ | reflexivity ].
  rewrite !app_nil_r, <- !app_assoc. reflexivity.
Qed.

(** X9: a limit that is not a positive number (zero, a negative number, a
    numeric string, [undefined]) is ignored, and so is such an offset: the
    assembled query is the one without it. *)
Theorem non_positive_limit_and_offset_are_ignored
    (sort lim off : value) (counting : bool) :
  (isNumber lim && positive lim = false ->
   createQuery this (Some (params sort lim off)) counting
   = createQuery this (Some (params sort VUndefined off)) counting)
  /\ (isNumber off && positive off = false ->
      createQuery this (Some (params sort lim off)) counting
      = createQuery this (Some (params sort lim VUndefined)) counting).
Proof.
  split; intros H; rewrite !createQuery_parts; rewrite H; reflexivity.
Qed.

End Assembler.

Lemma sort_string_is_singleton_witness :
  createQuery Sample.adapter
    (Some {| Params.query := VUndefined; Params.search := VUndefined;
             Params.searchFields := None; Params.sort := VStr "-createdAt";
             Params.limit := VNum 5; Params.offset := VUndefined |}) false
  = Some [orderBy "createdAt" "desc"; limit (VNum 5)].
Proof.
  rewrite (sort_string_is_singleton Sample.adapter VUndefined VUndefined None
             "-createdAt" (VNum 5) VUndefined false eq_refl).
  reflexivity.
Defined.

Lemma offset_without_sort_witness :
  createQuery (init None "mssql" Sample.posts)
    (Some {| Params.query := VObj [("a", VNum 1)]; Params.search := VUndefined;
             Params.searchFields := None; Params.sort := VStr "";
             Params.limit := VNum 5; Params.offset := VNum 10 |}) false
  = Some [where2 "a" (VNum 1); limit (VNum 5); orderBy "id" "asc"; offset (VNum 10)].
Proof.
  rewrite (offset_without_sort (init None "mssql" Sample.posts)
             (VObj [("a", VNum 1)]) VUndefined None (VStr "") (VNum 5) (VNum 10)
             eq_refl eq_refl).
  reflexivity.
Defined.

Lemma non_positive_limit_and_offset_are_ignored_witness :
  createQuery Sample.adapter
    (Some {| Params.query := VUndefined; Params.search := VUndefined;
             Params.searchFields := None; Params.sort := VUndefined;
             Params.limit := VNum 0; Params.offset := VStr "10" |}) false
  = Some [].
Proof.
  rewrite (proj1 (non_positive_limit_and_offset_are_ignored Sample.adapter
                    VUndefined VUndefined None VUndefined (VNum 0) (VStr "10") false)
             eq_refl).
  rewrite (proj2 (non_positive_limit_and_offset_are_ignored Sample.adapter
                    VUndefined VUndefined None VUndefined VUndefined (VStr "10") false)
             eq_refl).
  reflexivity.
Defined.

Lemma sortEach_paging (pSort : list value) (os : builder) :
  sortEach [] pSort = Some os -> forallb paging os = true.
Proof.
  revert os. induction pSort as [ | field pSort IH ]; intros os.
  - intros [= <-]. reflexivity.
  - cbn [sortEach]. destruct field; try discriminate. cbn [sortField].
    repeat match goal with
           | |- context [if ?c then _ else _] => destruct c
           end;
      cbn [mbind option_bind]; rewrite sortEach_from_nil;
      destruct (sortEach [] pSort) as [os' | ]; cbn [mbind option_bind];
      try discriminate; intros [= <-]; unfold calls; cbn [app forallb paging];
      apply (IH os' eq_refl).
Qed.

Section SearchFacts.

Variable row : Type.
Variable compare : row -> string -> string -> value -> truth.
Variable member : row -> string -> value -> truth.
Variable isNull : row -> string -> bool.
Variable rawHolds : row -> value -> value -> truth.

Local Abbreviation stmt := (statement row compare member isNull rawHolds).
Local Abbreviation sel := (selects row compare member isNull rawHolds).

Lemma join_app_and (bs : list truth) (l : list (connective * truth))
    (acc cur : truth) :
  join acc cur ((pair And <$> bs) ++ l) = join acc (and3 cur (all3 bs)) l.
Proof.
  revert cur. induction bs as [ | b bs IH ]; intros cur.
  - cbn. rewrite and3_TRUE_r. reflexivity.
  - cbn [fmap list_fmap app join]. fold (fmap (M:=list) (pair And) bs).
    rewrite IH, and3_assoc. reflexivity.
Qed.

Lemma existsb_holds_fmap {A} (f : A -> truth) (l : list A) :
  existsb holds (f <$> l) = existsb (fun x => holds (f x)) l.
Proof. induction l as [ | x l IH ]; cbn; [ | rewrite IH ]; reflexivity. Qed.

Lemma paging_statements r (cs : list call) :
  forallb paging cs = true -> omap (stmt r) cs = [].
Proof.
  induction cs as [ | c cs IH ]; [ reflexivity | ].
  cbn [forallb]. intros H. apply andb_prop in H as [Hc Hcs].
  cbn [omap list_omap]. fold (omap (stmt r) cs). rewrite (IH Hcs).
  destruct c; try discriminate Hc; reflexivity.
Qed.

(** X10: the text search is joined flat behind the filter: its first
    field with [and], every further field with [or]. With SQL's
    precedence a row is selected exactly when it passes the filter and
    matches the pattern in the first field, or matches the pattern in any
    further field, whatever the filter says about it. *)
Theorem text_search_is_or_joined
    (this : KnexAdapter) (query : value) (s : string) (f0 : string)
    (rest : list string) (sort lim off : value) (counting : bool) (q : builder) :
  String.eqb s "" = false ->
  createQuery this
    (Some {| Params.query := query; Params.search := VStr s;
             Params.searchFields := Some (f0 :: rest); Params.sort := sort;
             Params.limit := lim; Params.offset := off |}) counting = Some q ->
  exists cs,
    computeQuery [] (if truthy query then objectAssign query else VObj []) ""
    = Some cs
    /\ forall r,
         let like f := holds (compare r f "like" (VStr ("%" +:+ s +:+ "%"))) in
         sel r q = (sel r cs && like f0) || existsb like rest.
Proof.
  intros Hs Hq. rewrite createQuery_parts in Hq. rewrite Hs in Hq.
  cbn [negb] in Hq.
  assert (Hmap : exists es, (if truthy query then objectAssign query else VObj [])
                            = VObj es).
  { destruct (truthy query); [ apply objectAssign_isMapping | eauto ]. }
  destruct Hmap as [es Hes]. rewrite Hes in *.
  destruct (computeQuery [] (VObj es) "") as [cs | ] eqn:Hcs;
    cbn [mbind option_bind] in Hq; [ | discriminate Hq ].
  exists cs. split; [ reflexivity | ]. intros r like.
  set (sorted := if negb counting && truthy sort then _ else _) in Hq.
  destruct sorted as [os | ] eqn:Hos; cbn [mbind option_bind] in Hq;
    [ | discriminate Hq ].
  injection Hq as <-.
  assert (Hpaging : forallb paging os = true).
  { subst sorted. destruct (negb counting && truthy sort);
      [ | injection Hos as <-; reflexivity ].
    destruct sort; try discriminate Hos; eapply sortEach_paging, Hos. }
  destruct (andCalls_statements row compare member isNull rawHolds r cs
              (computeQuery_andCall es "" cs Hcs)) as [bs Hbs].
  rewrite (selects_all_and row compare member isNull rawHolds r cs bs Hbs).
  unfold selects, whereClause. rewrite !omap_app, Hbs.
  rewrite (paging_statements r os Hpaging).
  assert (Hpre : omap (stmt r) (if counting then [count_star] else []) = [])
    by (destruct counting; reflexivity).
  assert (Htail : omap (stmt r)
                    (if counting then []
                     else (if isNumber lim && positive lim then [limit lim] else [])
                          ++ (if isNumber off && positive off
                              then (if negb (truthy sort)
                                       && String.eqb (client this) "mssql"
                                    then [orderBy (idFieldName this) "asc"] else [])
                                   ++ [offset off]
                              else [])) = []).
  { destruct counting; [ reflexivity | ].
    destruct (isNumber lim && positive lim);
      destruct (isNumber off && positive off);
      destruct (negb (truthy sort) && String.eqb (client this) "mssql");
      reflexivity. }
  rewrite Hpre, Htail. cbn [app]. rewrite !app_nil_r.
  cbn [searchFrom Nat.eqb]. rewrite searchFrom_from_nil, searchFrom_later.
  unfold calls. cbn [app omap list_omap statement].
  fold (omap (stmt r) ((fun field => orWhere3 field "like" (VStr ("%" +:+ s +:+ "%")))
                         <$> rest)).
  set (test f := compare r f "like" (VStr ("%" +:+ s +:+ "%"))).
  assert (Hors : omap (stmt r)
                   ((fun field => orWhere3 field "like" (VStr ("%" +:+ s +:+ "%")))
                      <$> rest)
                 = pair Or <$> (test <$> rest)).
  { clear. subst test. induction rest as [ | f fs IH ]; [ reflexivity | ].
    cbn [fmap list_fmap omap list_omap statement].
    fold (omap (stmt r) ((fun field => orWhere3 field "like" (VStr ("%" +:+ s +:+ "%")))
                           <$> fs)).
    rewrite IH. reflexivity. }
  rewrite Hors. fold (test f0).
  assert (Hlike : existsb like rest = existsb holds (test <$> rest))
    by (symmetry; apply existsb_holds_fmap).
  rewrite Hlike. change (like f0) with (holds (test f0)).
  destruct bs as [ | b bs ]; cbn [fmap list_fmap app clause forallb].
  - rewrite join_all_or, or3_FALSE_l, holds_or3, holds_any3. reflexivity.
  - fold (fmap (M:=list) (pair And) bs).
    rewrite join_app_and. cbn [join].
    rewrite join_all_or, or3_FALSE_l, holds_or3, holds_any3, !holds_and3, holds_all3.
    reflexivity.
Qed.

End SearchFacts.

Lemma text_search_is_or_joined_witness :
  let r := [("age", VNum 10); ("name", VStr "zed"); ("email", VStr "ann")] in
  let like (r : entity) (column op : string) (v : value) :=
    if String.eqb op "like"
    then match lookup_entry column r with
         | VStr a => ofBool (String.eqb a "ann")
         | _ => UNKNOWN
         end
    else Sample.compare r column op v in
  exists cs,
    computeQuery [] (VObj [("age", VObj [("$gt", VNum 30)])]) "" = Some cs
    /\ selects entity like Sample.member Sample.isNull Sample.rawHolds r
         [whereFn [where3 "age" ">" (VNum 30)];
          where3 "name" "like" (VStr "%ann%"); orWhere3 "email" "like" (VStr "%ann%")]
       = true
    /\ selects entity like Sample.member Sample.isNull Sample.rawHolds r cs = false.
Proof.
  intros r like.
  destruct (text_search_is_or_joined entity like Sample.member Sample.isNull
              Sample.rawHolds Sample.adapter
              (VObj [("age", VObj [("$gt", VNum 30)])]) "ann" "name" ["email"]
              VUndefined VUndefined VUndefined false
              [whereFn [where3 "age" ">" (VNum 30)];
               where3 "name" "like" (VStr "%ann%");
               orWhere3 "email" "like" (VStr "%ann%")]
              eq_refl eq_refl) as (cs & Hcs & Hsel).
  exists cs. split; [ exact Hcs | ]. split.
  - rewrite (Hsel r). injection Hcs as <-. reflexivity.
  - injection Hcs as <-. reflexivity.
Defined.

(** X11: the text search adds nothing unless [search] is a non-empty
    string and [searchFields] holds at least one field: otherwise the
    assembled query is the one without search. *)
Theorem search_needs_text_and_fields
    (this : KnexAdapter) (query search : value) (searchFields : option (list string))
    (sort lim off : value) (counting : bool) :
  isString search = false \/ search = VStr "" \/ searchFields = None
  \/ searchFields = Some [] ->
  createQuery this
    (Some {| Params.query := query; Params.search := search;
             Params.searchFields := searchFields; Params.sort := sort;
             Params.limit := lim; Params.offset := off |}) counting
  = createQuery this
      (Some {| Params.query := query; Params.search := VUndefined;
               Params.searchFields := None; Params.sort := sort;
               Params.limit := lim; Params.offset := off |}) counting.
Proof.
  intros H. rewrite !createQuery_parts.
  assert (Hnone : match search, searchFields with
                  | VStr s, Some fields =>
                      if negb (String.eqb s "")
                      then searchFrom 0 [] fields (VStr ("%" +:+ s +:+ "%")) else []
                  | _, _ => []
                  end = []).
  { destruct H as [H | [-> | [-> | ->]]].
    - destruct search; try discriminate H; reflexivity.
    - destruct searchFields; reflexivity.
    - destruct search; reflexivity.
    - destruct search as [ | | | | s | | ]; try reflexivity.
      destruct (negb (String.eqb s "")); reflexivity. }
  rewrite Hnone. reflexivity.
Qed.

Lemma search_needs_text_and_fields_witness :
  createQuery Sample.adapter
    (Some {| Params.query := VUndefined; Params.search := VStr "ann";
             Params.searchFields := Some []; Params.sort := VUndefined;
             Params.limit := VUndefined; Params.offset := VUndefined |}) false
  = Some [].
Proof.
  rewrite (search_needs_text_and_fields Sample.adapter VUndefined (VStr "ann")
             (Some []) VUndefined VUndefined VUndefined false
             (or_intror (or_intror (or_intror eq_refl)))).
  reflexivity.
Defined.

(* ===================================================================== *)
(** * Further properties of the CRUD operations                           *)
(* ===================================================================== *)

Lemma filter_negb_length {A} (f : A -> bool) (l : list A) :
  List.length (List.filter f l)
  = (List.length l - List.length (List.filter (fun x => negb (f x)) l))%nat.
Proof.
  induction l as [ | x l IH ]; [ reflexivity | ].
  cbn [List.filter]. 
  assert (Hle : (List.length (List.filter (fun x => negb (f x)) l) <= List.length l)%nat)
    by apply List.filter_length_le.
  destruct (f x); cbn [negb List.length]; rewrite IH; lia.
Qed.

Lemma filter_none {A} (f : A -> bool) (l : list A) :
  Forall (fun x => f x = false) l -> List.filter f l = [].
Proof.
  induction 1 as [ | x l Hx _ IH ]; [ reflexivity | ].
  cbn. rewrite Hx. exact IH.
Qed.

Section CrudMore.

Variable E : Type.
Variable compare : entity -> string -> string -> value -> truth.
Variable member : entity -> string -> value -> truth.
Variable isNull : entity -> string -> bool.
Variable rawHolds : entity -> value -> value -> truth.
Variable insertRow : table -> entity -> E + (table * list value).
Variable this : KnexAdapter.
Variable others : list string.
Variable noSuchColumn : string -> E.
Variable updateRow : list write -> entity -> entity.
Variable countValue : nat -> value.
Variable Number : string -> value.

Local Abbreviation matches := (Store.matches compare member isNull rawHolds).
Local Abbreviation hasColumn := (Store.hasColumn this others).
Local Abbreviation refused := (Store.refused E this others noSuchColumn).
Local Abbreviation removeById :=
  (Store.removeById E compare member isNull rawHolds this others noSuchColumn).
Local Abbreviation removeMany :=
  (Store.removeMany E compare member isNull rawHolds this others noSuchColumn).
Local Abbreviation findById :=
  (Store.findById E compare member isNull rawHolds this).
Local Abbreviation insert :=
  (Store.insert E compare member isNull rawHolds insertRow this).
Local Abbreviation updateById :=
  (Store.updateById E compare member isNull rawHolds this others noSuchColumn
     updateRow).
Local Abbreviation replaceById :=
  (Store.replaceById E compare member isNull rawHolds this others noSuchColumn
     updateRow).
Local Abbreviation count :=
  (Store.count E compare member isNull rawHolds this countValue Number).
Local Abbreviation clear :=
  (Store.clear E compare member isNull rawHolds this countValue Number).

(** The store prints the count [n] as the number, or as a text that
    [Number] reads back as the number. *)
Local Abbreviation printed n :=
  (countValue n = VNum (Z.of_nat n)
   \/ exists t, countValue n = VStr t /\ Number t = VNum (Z.of_nat n)).

Lemma count_resolves (params : option Params.t) (q : builder) (s : store) :
  createQuery this params true = Some q ->
  printed (List.length (List.filter (matches q) (rows s))) ->
  count params s
  = (s, inr (VNum (Z.of_nat (List.length (List.filter (matches q) (rows s)))))).
Proof.
  intros Hq Hprinted. unfold Store.count, await, aggregate. rewrite Hq.
  cbn [orThrow resolve lookup_entry String.eqb Ascii.eqb Bool.eqb].
  destruct Hprinted as [-> | (t & -> & ->)]; reflexivity.
Qed.


(** X13: [clear()] resolves with the number of rows the table had and
    leaves the table without a row. *)
Theorem clear_returns_previous_count (s : store) :
  printed (List.length (rows s)) ->
  clear s = ({| rows := []; pending := pending s |},
             inr (VNum (Z.of_nat (List.length (rows s))))).
Proof.
  intros Hprinted.
  assert (Hall : List.filter (matches [count_star]) (rows s) = rows s)
    by (apply filter_all, Forall_forall; intros; reflexivity).
  unfold Store.clear, await.
  rewrite (count_resolves None [count_star] s eq_refl).
  - rewrite Hall. reflexivity.
  - rewrite Hall. exact Hprinted.
Qed.

(** The query of [removeMany] selects the rows equal to the query on
    every member. *)
Lemma whereObject_calls (query : entity) (q : builder) :
  whereObject q query = q ++ ((fun kv => where2 kv.1 kv.2) <$> query).
Proof.
  revert q. induction query as [ | kv query IH ]; intros q.
  - cbn. rewrite app_nil_r. reflexivity.
  - cbn [whereObject fold_left]. fold (whereObject (calls q (where2 kv.1 kv.2)) query).
    rewrite IH. unfold calls. rewrite <- app_assoc. reflexivity.
Qed.

(** The row passes [where(key, value)]: [key is null] for the value
    [null], the equality otherwise. *)
Local Abbreviation passes r kv :=
  (if nullValue kv.2 then isNull r kv.1 else holds (compare r kv.1 "=" kv.2)).

Lemma matches_whereObject (query : entity) (r : entity) :
  matches (whereObject [] query) r = forallb (fun kv => passes r kv) query.
Proof.
  rewrite whereObject_calls. cbn [app]. unfold Store.matches.
  rewrite (selects_all_and entity compare member isNull rawHolds r _
             ((fun kv => if nullValue kv.2 then ofBool (isNull r kv.1)
                         else compare r kv.1 "=" kv.2) <$> query)).
  - induction query as [ | kv query IH ]; [ reflexivity | ].
    cbn [fmap list_fmap forallb]. rewrite IH.
    destruct (nullValue kv.2); [ rewrite holds_ofBool | ]; reflexivity.
  - induction query as [ | kv query IH ]; [ reflexivity | ].
    cbn [fmap list_fmap omap list_omap statement].
    fold (omap (statement entity compare member isNull rawHolds r)
               ((fun kv => where2 kv.1 kv.2) <$> query)).
    rewrite IH. reflexivity.
Qed.

(** The statement of [removeMany]: its bindings and its columns. *)
Lemma unbound_whereObject (query : entity) :
  existsb unbound (whereObject [] query)
  = existsb (fun kv => undefinedIn kv.2) query.
Proof.
  rewrite whereObject_calls. cbn [app].
  induction query as [ | kv query IH ]; [ reflexivity | ].
  cbn [fmap list_fmap existsb unbound]. rewrite <- IH. reflexivity.
Qed.

Lemma columnsIn_whereObject (query : entity) :
  flat_map columnsIn (whereObject [] query) = fst <$> query.
Proof.
  rewrite whereObject_calls. cbn [app].
  induction query as [ | kv query IH ]; [ reflexivity | ].
  cbn [fmap list_fmap flat_map columnsIn app]. rewrite <- IH. reflexivity.
Qed.

Lemma find_none {A} (f : A -> bool) (l : list A) :
  forallb f l = true -> List.find (fun x => negb (f x)) l = None.
Proof.
  induction l as [ | x l IH ]; [ reflexivity | ].
  cbn. intros H. apply andb_prop in H as [Hx Hl]. rewrite Hx. cbn. apply IH, Hl.
Qed.

Lemma forallb_fst {A B} (f : A -> bool) (l : list (A * B)) :
  forallb f (fst <$> l) = forallb (fun kv => f kv.1) l.
Proof. induction l as [ | x l IH ]; cbn; [ | rewrite IH ]; reflexivity. Qed.

Lemma forallb_filter {A} (f g : A -> bool) (l : list A) :
  forallb f l = true -> forallb f (List.filter g l) = true.
Proof.
  induction l as [ | x l IH ]; [ reflexivity | ].
  cbn. intros H. apply andb_prop in H as [Hx Hl].
  destruct (g x); cbn; rewrite ?Hx; apply IH, Hl.
Qed.

Lemma defined_members (query : entity) :
  forallb (fun kv => is_scalar kv.2 || nullValue kv.2) query = true ->
  existsb (fun kv => undefinedIn kv.2) query = false.
Proof.
  induction query as [ | [k v] query IH ]; [ reflexivity | ].
  cbn. intros H. apply andb_prop in H as [Hv Hq]. rewrite (IH Hq).
  destruct v; try discriminate Hv; reflexivity.
Qed.

(** X14: [removeMany(query)] hands its query to Knex as it is: every key
    is a column name, never an operator. For a query whose members are
    scalars or [null] on columns of the table, it deletes the rows in
    which every member's column equals the member's value, or is null
    where the value is [null], and keeps the others in their order; it
    resolves with the number of rows deleted and deletes nothing when run
    again. With an empty query it deletes every row. A query with an
    [undefined] member is refused by Knex, and one that names a column the
    table does not have by the store: the table is then as it was. *)
Theorem removeMany_deletes_equal_rows (query : entity) (s : store) :
  let equal r := forallb (fun kv => passes r kv) query in
  (forallb (fun kv => is_scalar kv.2 || nullValue kv.2) query = true ->
   forallb (fun kv => hasColumn kv.1) query = true ->
   exists s1,
     removeMany query s
     = (s1, inr (List.length (rows s) - List.length (rows s1))%nat)
     /\ rows s1 = List.filter (fun r => negb (equal r)) (rows s)
     /\ pending s1 = pending s
     /\ removeMany query s1 = (s1, inr 0%nat)
     /\ (query = [] -> rows s1 = []))
  /\ (existsb (fun kv => undefinedIn kv.2) query = true ->
      removeMany query s = (s, inl UndefinedBinding))
  /\ (forall key,
        existsb (fun kv => undefinedIn kv.2) query = false ->
        List.find (fun key => negb (hasColumn key)) (fst <$> query)
        = Some key ->
        removeMany query s = (s, inl (StoreError (noSuchColumn key)))).
Proof.
  intros equal.
  assert (Hrefused : refused (whereObject [] query) []
                     = if existsb (fun kv => undefinedIn kv.2) query
                       then Some UndefinedBinding
                       else match List.find (fun key => negb (hasColumn key))
                                            (fst <$> query) with
                            | Some key => Some (StoreError (noSuchColumn key))
                            | None => None
                            end).
  { unfold Store.refused.
    rewrite unbound_whereObject, columnsIn_whereObject, app_nil_r. reflexivity. }
  split; [ | split ].
  2: { intros Hu. unfold Store.removeMany, del. rewrite Hrefused, Hu. reflexivity. }
  2: { intros key Hu Hc. unfold Store.removeMany, del.
       rewrite Hrefused, Hu, Hc. reflexivity. }
  intros Hvalues Hcolumns.
  assert (Hruns : refused (whereObject [] query) [] = None).
  { rewrite Hrefused, (defined_members query Hvalues), find_none; [ reflexivity | ].
    rewrite forallb_fst. exact Hcolumns. }
  assert (Hext : forall l, List.filter (fun r => negb (matches (whereObject [] query) r)) l
                           = List.filter (fun r => negb (equal r)) l).
  { intros l. apply List.filter_ext. intros r. rewrite matches_whereObject.
    reflexivity. }
  assert (Hext' : forall l, List.filter (matches (whereObject [] query)) l
                            = List.filter equal l).
  { intros l. apply List.filter_ext. intros r. apply matches_whereObject. }
  exists {| rows := List.filter (fun r => negb (equal r)) (rows s);
            pending := pending s |}.
  split; [ | split; [ reflexivity | split; [ reflexivity | split ] ] ].
  - unfold Store.removeMany, del. rewrite Hruns, Hext, Hext'. cbn [rows].
    rewrite (filter_negb_length equal). reflexivity.
  - unfold Store.removeMany, del. cbn [rows pending]. rewrite Hruns, Hext, Hext'.
    rewrite filter_filter_same.
    rewrite (filter_none equal); [ reflexivity | ].
    eapply Forall_impl; [ apply filter_Forall | ].
    intros r Hr. cbv beta in Hr. apply negb_true_iff. exact Hr.
  - intros ->. cbn [rows]. apply filter_none. apply Forall_forall. reflexivity.
Qed.

(** X15: after [removeById(id)], [findById(id)] finds no row: for a
    scalar id, under an identity column not named like an operator, it
    resolves with [undefined]. *)
Theorem removed_row_is_not_found (id : value) (s : store) :
  is_scalar id = true ->
  operatorRule (idFieldName this) id = false ->
  exists s1,
    removeById id s = (s1, inr id)
    /\ findById id s1 = (s1, inr VUndefined).
Proof.
  intros Hs Hr.
  exists {| rows := List.filter
                      (fun r => negb (holds (compare r (idFieldName this) "=" id)))
                      (rows s);
            pending := pending s |}.
  split; [ apply (removeById_scalar E compare member isNull rawHolds this others
                    noSuchColumn id s Hs) | ].
  rewrite (findById_scalar E compare member isNull rawHolds this id _ Hs Hr).
  cbn [rows].
  rewrite (filter_none (fun r => holds (compare r (idFieldName this) "=" id)));
    [ reflexivity | ].
  eapply Forall_impl; [ apply filter_Forall | ].
  intros r H. cbv beta in H. apply negb_true_iff. exact H.
Qed.

(** X16: in raw mode [updateById] reads nothing of the changes but
    [$set] and [$inc]: two change objects that agree on both are the same
    update, and when both members are missing or falsy no row is written
    and the call resolves as [findById(id)] on the table as it was. *)
Theorem raw_update_reads_set_and_inc_only (id changes : value) (s : store) :
  (forall changes',
     get changes "$set" = get changes' "$set" ->
     get changes "$inc" = get changes' "$inc" ->
     updateById id changes true s = updateById id changes' true s)
  /\ (forall set inc,
        get changes "$set" = Some set -> truthy set = false ->
        get changes "$inc" = Some inc -> truthy inc = false ->
        updateById id changes true s = findById id s).
Proof.
  split.
  - intros changes' Hset Hinc. unfold Store.updateById, writesOf.
    rewrite Hset, Hinc. reflexivity.
  - intros set inc Hset Hfs Hinc Hfi. unfold Store.updateById, writesOf, await.
    rewrite Hset, Hinc. cbn [mbind option_bind]. rewrite Hfs, Hfi.
    cbn [app orThrow resolve awaitWrites]. reflexivity.
Qed.

Lemma lookup_entry_omit_same (e : entity) (key : string) :
  lookup_entry key (omit e key) = VUndefined.
Proof.
  induction e as [ | [k v] e IH ]; [ reflexivity | ].
  unfold omit. cbn [List.filter fst]. fold (omit e key).
  destruct (String.eqb k key) eqn:Hk; cbn [negb]; [ exact IH | ].
  cbn [lookup_entry]. rewrite Hk. exact IH.
Qed.

Lemma lookup_entry_omit_other (e : entity) (key other : string) :
  other <> key -> lookup_entry other (omit e key) = lookup_entry other e.
Proof.
  intros Hne. induction e as [ | [k v] e IH ]; [ reflexivity | ].
  unfold omit. cbn [List.filter fst]. fold (omit e key).
  destruct (String.eqb_spec k key) as [-> | Hk]; cbn [negb lookup_entry].
  - rewrite (proj2 (String.eqb_neq key other)) by congruence. exact IH.
  - rewrite IH. reflexivity.
Qed.

Lemma forallb_negb_existsb {A} (f : A -> bool) (l : list A) :
  forallb (fun x => negb (f x)) l = negb (existsb f l).
Proof.
  induction l as [ | x l IH ]; [ reflexivity | ].
  cbn. rewrite IH. destruct (f x); reflexivity.
Qed.

(** X17: [replaceById(id, entity)], for a scalar id and an entity whose
    members are columns of the table with a scalar, [null] or [undefined]
    as value, never hands the identity member of the entity to the store:
    the changes of its one [update] have no member under the identity
    field and every other member of the entity. When
    one of them has a value that is not [undefined], the rows whose
    identity column equals the id are updated by these changes, the other
    rows are untouched, and the call resolves as [findById(id)] on the
    updated table. When none has, as for an entity that holds its identity
    alone, Knex finds no column to write: the call is rejected and the
    table is as it was. *)
Theorem replaceById_omits_identity (id : value) (e : entity) (s : store) :
  is_scalar id = true ->
  forallb (fun kv => hasColumn kv.1) e = true ->
  forallb (fun kv => is_scalar kv.2 || nullish kv.2) e = true ->
  let changes := omit e (idFieldName this) in
  lookup_entry (idFieldName this) changes = VUndefined
  /\ (forall key, key <> idFieldName this ->
                  lookup_entry key changes = lookup_entry key e)
  /\ if existsb (fun kv => present kv.2) changes
     then exists s1,
            rows s1
            = (fun r => if holds (compare r (idFieldName this) "=" id)
                        then updateRow [update (VObj changes)] r else r) <$> rows s
            /\ pending s1 = pending s
            /\ replaceById id e s = findById id s1
     else replaceById id e s = (s, inl EmptyUpdate).
Proof.
  intros Hs Hcolumns _ changes.
  split; [ apply lookup_entry_omit_same | ].
  split; [ intros key Hkey; apply lookup_entry_omit_other, Hkey | ].
  assert (Hruns : refused (calls [] (where2 (idFieldName this) id))
                    (flat_map columnsWritten [update (VObj changes)]) = None).
  { unfold Store.refused, calls.
    cbn [app existsb unbound flat_map columnsIn columnsWritten orb].
    rewrite (scalar_defined id Hs), app_nil_r. cbn [orb].
    rewrite find_none; [ reflexivity | ].
    cbn [forallb]. unfold Store.hasColumn at 1. rewrite String.eqb_refl. cbn [orb andb].
    rewrite forallb_fst. subst changes. unfold omit.
    apply forallb_filter, forallb_filter, Hcolumns. }
  unfold Store.replaceById, Store.updateById, writesOf, await, awaitWrites.
  cbn [nullish orThrow resolve forallb existsb noColumn isUpdate andb orb].
  fold changes. rewrite forallb_negb_existsb.
  destruct (existsb (fun kv => present kv.2) changes); cbn [negb andb];
    [ | reflexivity ].
  rewrite Hruns.
  eexists. split; [ | split; [ | reflexivity ] ]; [ | reflexivity ].
  cbn [rows]. apply list_fmap_ext. intros i r _.
  rewrite (matches_where2 compare member isNull rawHolds _ _ r Hs). reflexivity.
Qed.

(** X18: round trip of [insert]. When the store appends the row and
    returns a value for it, the identity derived from the entity and that
    value is a scalar that no earlier row has and that the new row has,
    then [insert(entity)] resolves with the entity itself, read back from
    the table. *)
Theorem inserted_row_is_read_back (e : entity) (s : store)
    (returned : value) (more : list value) (id : value) :
  insertRow (rows s) e = inr (rows s ++ [e], returned :: more) ->
  unwrap this (if truthy (lookup_entry (idFieldName this) e)
               then lookup_entry (idFieldName this) e else returned) = Some id ->
  is_scalar id = true ->
  operatorRule (idFieldName this) id = false ->
  Forall (fun r => holds (compare r (idFieldName this) "=" id) = false) (rows s) ->
  holds (compare e (idFieldName this) "=" id) = true ->
  insert e s = ({| rows := rows s ++ [e]; pending := pending s |}, inr (VObj e)).
Proof.
  intros Hins Hid Hs Hr Hfresh Hnew.
  unfold Store.insert, await, Store.insertOn. cbn [rowsOf setRows].
  rewrite Hins. cbv beta iota zeta. unfold Store.orElse. rewrite Hid.
  cbn [orThrow resolve].
  rewrite (findById_scalar E compare member isNull rawHolds this id _ Hs Hr).
  cbn [rows]. rewrite List.filter_app.
  rewrite (filter_none (fun r => holds (compare r (idFieldName this) "=" id))
             (rows s) Hfresh).
  cbn [List.filter app]. rewrite Hnew. reflexivity.
Qed.

End CrudMore.


Lemma clear_returns_previous_count_witness :
  let s := {| rows := [[("id", VNum 1)]; [("id", VNum 2)]]; pending := None |} in
  Store.clear string Sample.compare Sample.member Sample.isNull Sample.rawHolds
    Sample.adapter (fun n => VNum (Z.of_nat n)) Sample.number s
  = ({| rows := []; pending := None |}, inr (VNum 2)).
Proof.
  intros s.
  apply (clear_returns_previous_count string Sample.compare Sample.member
           Sample.isNull Sample.rawHolds Sample.adapter
           (fun n => VNum (Z.of_nat n)) Sample.number s).
  left. reflexivity.
Defined.

Lemma removeMany_deletes_equal_rows_witness :
  let s := {| rows := [[("id", VNum 1); ("age", VNum 40); ("tag", VNull)];
                       [("id", VNum 2); ("age", VNum 20)];
                       [("id", VNum 3); ("age", VNum 40); ("tag", VStr "x")]];
              pending := None |} in
  let removeMany :=
    Store.removeMany string Sample.compare Sample.member Sample.isNull
      Sample.rawHolds Sample.adapter Sample.others Sample.noSuchColumn in
  (exists s1,
     removeMany [("age", VNum 40); ("tag", VNull)] s = (s1, inr 1%nat)
     /\ rows s1 = [[("id", VNum 2); ("age", VNum 20)];
                   [("id", VNum 3); ("age", VNum 40); ("tag", VStr "x")]])
  /\ removeMany [("age", VUndefined)] s = (s, inl UndefinedBinding)
  /\ removeMany [("$gt", VNum 30)] s = (s, inl (StoreError "no such column: $gt")).
Proof.
  intros s removeMany. split; [ | split ].
  - destruct (proj1 (removeMany_deletes_equal_rows string Sample.compare
                       Sample.member Sample.isNull Sample.rawHolds Sample.adapter
                       Sample.others Sample.noSuchColumn
                       [("age", VNum 40); ("tag", VNull)] s) eq_refl eq_refl)
      as (s1 & Hrun & Hrows & _ & _ & _).
    exists s1. subst removeMany. rewrite Hrun, Hrows. split; reflexivity.
  - apply (proj1 (proj2 (removeMany_deletes_equal_rows string Sample.compare
                           Sample.member Sample.isNull Sample.rawHolds
                           Sample.adapter Sample.others Sample.noSuchColumn
                           [("age", VUndefined)] s)) eq_refl).
  - apply (proj2 (proj2 (removeMany_deletes_equal_rows string Sample.compare
                           Sample.member Sample.isNull Sample.rawHolds
                           Sample.adapter Sample.others Sample.noSuchColumn
                           [("$gt", VNum 30)] s)) "$gt" eq_refl eq_refl).
Defined.

Lemma removed_row_is_not_found_witness :
  let s := {| rows := [[("id", VNum 1)]; [("id", VNum 2)]]; pending := None |} in
  exists s1,
    Store.removeById string Sample.compare Sample.member Sample.isNull
      Sample.rawHolds Sample.adapter Sample.others Sample.noSuchColumn (VNum 2) s
    = (s1, inr (VNum 2))
    /\ Store.findById string Sample.compare Sample.member Sample.isNull
         Sample.rawHolds Sample.adapter (VNum 2) s1 = (s1, inr VUndefined).
Proof.
  intros s.
  apply (removed_row_is_not_found string Sample.compare Sample.member Sample.isNull
           Sample.rawHolds Sample.adapter Sample.others Sample.noSuchColumn
           (VNum 2) s); reflexivity.
Defined.

Lemma raw_update_reads_set_and_inc_only_witness :
  let s := {| rows := [[("id", VNum 1); ("age", VNum 40)]]; pending := None |} in
  Store.updateById string Sample.compare Sample.member Sample.isNull Sample.rawHolds
    Sample.adapter Sample.others Sample.noSuchColumn Sample.updateRow
    (VNum 1) (VObj [("age", VNum 41)]) true s
  = (s, inr (VObj [("id", VNum 1); ("age", VNum 40)])).
Proof.
  intros s.
  rewrite (proj2 (raw_update_reads_set_and_inc_only string Sample.compare
                    Sample.member Sample.isNull Sample.rawHolds Sample.adapter
                    Sample.others Sample.noSuchColumn
                    Sample.updateRow (VNum 1) (VObj [("age", VNum 41)]) s)
             VUndefined VUndefined eq_refl eq_refl eq_refl eq_refl).
  reflexivity.
Defined.

Lemma replaceById_omits_identity_witness :
  let s := {| rows := [[("id", VNum 1); ("title", VStr "a")];
                       [("id", VNum 2); ("title", VStr "b")]];
              pending := None |} in
  let replaceById :=
    Store.replaceById string Sample.compare Sample.member Sample.isNull
      Sample.rawHolds Sample.adapter Sample.others Sample.noSuchColumn
      Sample.updateRow in
  replaceById (VNum 2) [("id", VNum 9); ("title", VStr "c")] s
  = ({| rows := [[("id", VNum 1); ("title", VStr "a")];
                 [("id", VNum 2); ("title", VStr "c")]];
        pending := None |},
     inr (VObj [("id", VNum 2); ("title", VStr "c")]))
  /\ replaceById (VNum 2) [("id", VNum 2); ("title", VUndefined)] s
     = (s, inl EmptyUpdate).
Proof.
  intros s replaceById. split.
  - destruct (replaceById_omits_identity string Sample.compare Sample.member
                Sample.isNull Sample.rawHolds Sample.adapter Sample.others
                Sample.noSuchColumn Sample.updateRow
                (VNum 2) [("id", VNum 9); ("title", VStr "c")] s
                eq_refl eq_refl eq_refl)
      as (_ & _ & s1 & Hrows & Hpending & Hrun).
    subst replaceById. rewrite Hrun. destruct s1 as [t p].
    cbn [rows pending] in Hrows, Hpending. rewrite Hrows, Hpending. reflexivity.
  - exact (proj2 (proj2
             (replaceById_omits_identity string Sample.compare Sample.member
                Sample.isNull Sample.rawHolds Sample.adapter Sample.others
                Sample.noSuchColumn Sample.updateRow
                (VNum 2) [("id", VNum 2); ("title", VUndefined)] s
                eq_refl eq_refl eq_refl))).
Defined.

Lemma inserted_row_is_read_back_witness :
  let s := {| rows := [[("id", VNum 1)]]; pending := None |} in
  let e := [("id", VNum 2); ("title", VStr "t")] in
  Store.insert string Sample.compare Sample.member Sample.isNull Sample.rawHolds
    Sample.insertRow Sample.adapter e s
  = ({| rows := [[("id", VNum 1)]; e]; pending := None |}, inr (VObj e)).
Proof.
  intros s e.
  apply (inserted_row_is_read_back string Sample.compare Sample.member Sample.isNull
           Sample.rawHolds Sample.insertRow Sample.adapter e s
           (VObj [("id", VNum 2)]) [] (VNum 2));
    try reflexivity.
  repeat constructor.
Defined.

(* ===================================================================== *)
(** * Further properties of the schema operations                         *)
(* ===================================================================== *)

Section SchemaMore.

Variable supported : string -> bool.
Variable admits : list tableCall -> bool.
Variable this : KnexAdapter.

Local Abbreviation columnOf := (Schema.columnOf supported).
Local Abbreviation columnsOf := (Schema.columnsOf supported).
Local Abbreviation tableCallback := (Schema.tableCallback supported this).
Local Abbreviation createTable := (Schema.createTable supported admits this).
Local Abbreviation createIndex := (Schema.createIndex admits this).

(** A field that is virtual or has a column type of the vocabulary. *)
Local Abbreviation valid f :=
  (Field.virtual f = true \/ supported (Field.columnType f) = true).

(** The names of the fields that get a column. *)
Local Abbreviation columnNames fields :=
  ((fun f => VStr (Field.columnName f))
     <$> List.filter (fun f => negb (Field.virtual f)) fields).

Lemma columnsOf_valid (fields : list Field.t) :
  Forall (fun f => valid f) fields ->
  exists columns,
    columnsOf fields = inr columns
    /\ omap columnNameOf columns = columnNames fields.
Proof.
  induction 1 as [ | f fields Hf _ (columns & Hcols & Hnames) ].
  - exists []. split; reflexivity.
  - cbn [Schema.columnsOf]. rewrite Hcols. cbn [List.filter].
    unfold Schema.columnOf.
    destruct (Field.virtual f) eqn:Hv; cbn [negb].
    + exists columns. split; [ reflexivity | exact Hnames ].
    + destruct Hf as [Hf | Hf]; [ discriminate Hf | ]. rewrite Hf. cbn [negb].
      destruct (Field.primaryKey f);
        [ destruct (generatedBy f "user") | destruct (String.eqb _ _) ];
        eexists (_ :: columns); (split; [ reflexivity | ]);
        cbn [from_option app omap list_omap columnNameOf fmap list_fmap];
        fold (omap columnNameOf columns); rewrite Hnames; reflexivity.
Qed.

(** The callback makes the columns first: its calls are the column
    calls followed by the index calls. *)
Lemma columnsOf_columns (fields : list Field.t) (columns : list tableCall) :
  columnsOf fields = inr columns -> forallb isColumn columns = true.
Proof.
  revert columns. induction fields as [ | f fields IH ]; intros columns.
  - intros [= <-]. reflexivity.
  - cbn [Schema.columnsOf].
    destruct (columnOf f) as [err | made] eqn:Hf; [ discriminate | ].
    destruct (columnsOf fields) as [err | more]; [ discriminate | ].
    intros [= <-]. specialize (IH more eq_refl).
    unfold Schema.columnOf in Hf.
    destruct (Field.virtual f); [ injection Hf as <-; exact IH | ].
    destruct (negb _); [ discriminate Hf | ].
    destruct (Field.primaryKey f);
      [ destruct (generatedBy f "user") | destruct (String.eqb _ _) ];
      injection Hf as <-; exact IH.
Qed.

Lemma filter_columns (columns : list tableCall) (defs : list Index.t) :
  forallb isColumn columns = true ->
  List.filter isColumn (columns ++ (createTableIndex <$> defs)) = columns
  /\ List.filter (fun c => negb (isColumn c)) (columns ++ (createTableIndex <$> defs))
     = createTableIndex <$> defs.
Proof.
  intros Hcols. rewrite !List.filter_app.
  assert (H1 : List.filter isColumn columns = columns).
  { induction columns as [ | c columns IH ]; [ reflexivity | ].
    cbn in Hcols. apply andb_prop in Hcols as [Hc Hrest].
    cbn. rewrite Hc, (IH Hrest). reflexivity. }
  assert (H2 : List.filter (fun c => negb (isColumn c)) columns = []).
  { induction columns as [ | c columns IH ]; [ reflexivity | ].
    cbn in Hcols. apply andb_prop in Hcols as [Hc Hrest].
    cbn. rewrite Hc. cbn. apply IH; [ exact Hrest | ].
    cbn in H1. rewrite Hc in H1. injection H1 as H1. exact H1. }
  assert (H3 : List.filter isColumn (createTableIndex <$> defs) = []
               /\ List.filter (fun c => negb (isColumn c)) (createTableIndex <$> defs)
                  = createTableIndex <$> defs).
  { induction defs as [ | d defs [IH1 IH2] ]; [ split; reflexivity | ].
    cbn [fmap list_fmap]. fold (fmap (M:=list) createTableIndex defs).
    assert (Hd : isColumn (createTableIndex d) = false)
      by (unfold createTableIndex; destruct (Index.unique d); reflexivity).
    cbn [List.filter]. rewrite Hd. cbn [negb]. rewrite IH1, IH2.
    split; reflexivity. }
  destruct H3 as [H3 H4]. rewrite H1, H2, H3, H4, app_nil_r. split; reflexivity.
Qed.

Lemma tableCallback_valid (fields : list Field.t) (opts : option Opts) :
  Forall (fun f => valid f) fields ->
  exists def,
    tableCallback fields opts = inr def
    /\ omap columnNameOf def = columnNames fields
    /\ def = List.filter isColumn def
             ++ List.filter (fun c => negb (isColumn c)) def.
Proof.
  intros Hvalid. destruct (columnsOf_valid fields Hvalid) as (columns & Hcols & Hnames).
  pose proof (columnsOf_columns fields columns Hcols) as Hall.
  unfold Schema.tableCallback. rewrite Hcols.
  assert (Hidx : forall defs,
             omap columnNameOf (columns ++ (createTableIndex <$> defs))
             = columnNames fields).
  { intros defs. rewrite omap_app, Hnames.
    assert (Hnone : omap columnNameOf (createTableIndex <$> defs) = []).
    { induction defs as [ | d defs IH ]; [ reflexivity | ].
      cbn [fmap list_fmap omap list_omap]. fold (omap columnNameOf (createTableIndex <$> defs)).
      rewrite IH. unfold createTableIndex. destruct (Index.unique d); reflexivity. }
    rewrite Hnone, app_nil_r. reflexivity. }
  assert (Hsplit : forall defs,
             columns ++ (createTableIndex <$> defs)
             = List.filter isColumn (columns ++ (createTableIndex <$> defs))
               ++ List.filter (fun c => negb (isColumn c))
                    (columns ++ (createTableIndex <$> defs))).
  { intros defs. destruct (filter_columns columns defs Hall) as [-> ->]. reflexivity. }
  assert (Hplain : columns = List.filter isColumn columns
                             ++ List.filter (fun c => negb (isColumn c)) columns).
  { pose proof (Hsplit []) as H. cbn [fmap list_fmap] in H.
    rewrite app_nil_r in H. exact H. }
  destruct opts as [o | ]; [ | eauto ].
  destruct (indexes (service this)) as [defs | ]; [ | eauto ].
  destruct (createIndexes o); eauto.
Qed.

(** The statements that all run add all the calls. *)
Lemma addInTurn_all (def calls built : list tableCall) :
  addInTurn admits def calls = (built, true) -> built = def ++ calls.
Proof.
  revert def. induction calls as [ | c calls IH ]; intros def.
  - cbn. intros [= <-]. rewrite app_nil_r. reflexivity.
  - cbn [addInTurn]. destruct (admits (def ++ [c])); [ | discriminate ].
    intros H. rewrite (IH _ H), <- app_assoc. reflexivity.
Qed.

(** [createTable] up to the statements sent to the store: the drop, when
    it is asked for and the table is there. *)
Lemma createTable_sends (fields : option (list Field.t)) (opts : option Opts)
    (cat : catalog) (def : list tableCall) :
  tableCallback (default (serviceFields (service this)) fields) opts = inr def ->
  dropsFirst opts = true \/ cat !! tableName this = None ->
  createTable fields opts cat
  = if admits (List.filter isColumn def) then
      match addInTurn admits (List.filter isColumn def)
              (List.filter (fun c => negb (isColumn c)) def) with
      | (built, true) => (<[tableName this := built]> cat, inr tt)
      | (built, false) =>
          (<[tableName this := built]> cat, inl (Rejected (tableName this)))
      end
    else (delete (tableName this) cat, inl (Rejected (tableName this))).
Proof.
  intros Hdef Hfree. unfold Schema.createTable, knexCreateTable. rewrite Hdef.
  destruct (dropsFirst opts) eqn:Hdrop.
  - unfold hasTable, Schema.dropTable.
    destruct (cat !! tableName this) as [old | ] eqn:Hold.
    + rewrite bool_decide_true by eauto. rewrite lookup_delete_eq.
      cbv zeta. destruct (admits _); [ | reflexivity ].
      destruct (addInTurn _ _ _) as [built [ | ]];
        rewrite insert_delete_eq; reflexivity.
    + rewrite bool_decide_false by (intros [? ?]; congruence).
      cbv beta iota zeta. rewrite Hold, (delete_id _ _ Hold). reflexivity.
  - destruct Hfree as [Hfree | Hfree]; [ discriminate Hfree | ].
    rewrite Hfree, (delete_id _ _ Hfree). reflexivity.
Qed.

(** X19: with fields that are all virtual or of a supported column type,
    and with the drop not switched off or no table of that name, the
    callback of [createTable] defines one column for every non-virtual
    field, named after the field and in the order of the fields, and then
    the indexes. When the store takes the table with these columns and
    then every index, [createTable] succeeds whether or not the table
    existed: afterwards the catalog holds the table as the callback
    defines it and every other table as before, and a second run with the
    drop not switched off gives the same catalog again. When the store
    does not take the columns (a table without a column, where every field
    is virtual), the call is rejected, and a table of that name that was
    there has been dropped. When it does not take an index, the call is
    rejected with the table created, as the statements before made it. *)
Theorem createTable_defines_the_columns
    (fields : option (list Field.t)) (opts : option Opts) (cat : catalog) :
  Forall (fun f => valid f) (default (serviceFields (service this)) fields) ->
  dropsFirst opts = true \/ cat !! tableName this = None ->
  exists def,
    let columns := List.filter isColumn def in
    let indexes := List.filter (fun c => negb (isColumn c)) def in
    tableCallback (default (serviceFields (service this)) fields) opts = inr def
    /\ omap columnNameOf def
       = columnNames (default (serviceFields (service this)) fields)
    /\ def = columns ++ indexes
    /\ (admits columns = true ->
        addInTurn admits columns indexes = (def, true) ->
        createTable fields opts cat = (<[tableName this := def]> cat, inr tt)
        /\ (dropsFirst opts = true ->
            createTable fields opts (<[tableName this := def]> cat)
            = (<[tableName this := def]> cat, inr tt)))
    /\ (admits columns = false ->
        createTable fields opts cat
        = (delete (tableName this) cat, inl (Rejected (tableName this))))
    /\ (forall built,
          admits columns = true ->
          addInTurn admits columns indexes = (built, false) ->
          createTable fields opts cat
          = (<[tableName this := built]> cat, inl (Rejected (tableName this)))).
Proof.
  intros Hvalid Hfree.
  destruct (tableCallback_valid _ opts Hvalid) as (def & Hdef & Hnames & Hsplit).
  exists def. cbv zeta.
  split; [ exact Hdef | ]. split; [ exact Hnames | ]. split; [ exact Hsplit | ].
  split; [ | split ].
  - intros Hadmits Hrun. split.
    + rewrite (createTable_sends fields opts cat def Hdef Hfree), Hadmits, Hrun.
      reflexivity.
    + intros Hdrop.
      rewrite (createTable_sends fields opts _ def Hdef (or_introl Hdrop)),
        Hadmits, Hrun.
      rewrite insert_insert_eq. reflexivity.
  - intros Hadmits.
    rewrite (createTable_sends fields opts cat def Hdef Hfree), Hadmits.
    reflexivity.
  - intros built Hadmits Hrun.
    rewrite (createTable_sends fields opts cat def Hdef Hfree), Hadmits, Hrun.
    reflexivity.
Qed.

(** X20: with the drop switched off ([dropTableIfExists: false], or
    [null] options) and a table of that name in the catalog, [createTable]
    with valid fields is rejected by the store and changes nothing. *)
Theorem createTable_keeps_existing_table
    (fields : option (list Field.t)) (opts : option Opts) (cat : catalog)
    (old : list tableCall) :
  Forall (fun f => valid f) (default (serviceFields (service this)) fields) ->
  dropsFirst opts = false ->
  cat !! tableName this = Some old ->
  createTable fields opts cat = (cat, inl (TableExists (tableName this))).
Proof.
  intros Hvalid Hdrop Hold.
  destruct (tableCallback_valid _ opts Hvalid) as (def & Hdef & _).
  unfold Schema.createTable, knexCreateTable. rewrite Hdef, Hdrop, Hold. reflexivity.
Qed.

(** X21: [dropTable] undoes [createTable]: after a successful
    [createTable], dropping the table succeeds and leaves the catalog
    without a table of that name and with every other table as before the
    creation; dropping it once more is rejected and changes nothing. *)
Theorem dropTable_after_createTable
    (fields : option (list Field.t)) (opts : option Opts) (cat cat1 : catalog) :
  createTable fields opts cat = (cat1, inr tt) ->
  Schema.dropTable (tableName this) cat1 = (delete (tableName this) cat, inr tt)
  /\ Schema.dropTable (tableName this) (delete (tableName this) cat)
     = (delete (tableName this) cat, inl (NoSuchTable (tableName this))).
Proof.
  intros Hrun.
  assert (Hcat1 : exists def, cat1 = <[tableName this := def]> cat).
  { unfold Schema.createTable, knexCreateTable in Hrun.
    destruct (Schema.tableCallback supported this _ opts) as [err | def].
    - destruct (dropsFirst opts); [ | discriminate Hrun ].
      unfold hasTable, Schema.dropTable in Hrun.
      destruct (cat !! tableName this) eqn:Hold.
      + rewrite bool_decide_true in Hrun by eauto. discriminate Hrun.
      + rewrite bool_decide_false in Hrun by (intros [? ?]; congruence).
        discriminate Hrun.
    - cbv zeta in Hrun. destruct (dropsFirst opts).
      + unfold hasTable, Schema.dropTable in Hrun.
        destruct (cat !! tableName this) eqn:Hold.
        * rewrite bool_decide_true in Hrun by eauto.
          rewrite lookup_delete_eq in Hrun.
          destruct (admits _); [ | discriminate Hrun ].
          destruct (addInTurn _ _ _) as [built [ | ]]; [ | discriminate Hrun ].
          exists built. injection Hrun as <-. apply insert_delete_eq.
        * rewrite bool_decide_false in Hrun by (intros [? ?]; congruence).
          cbv beta iota zeta in Hrun. rewrite Hold in Hrun.
          destruct (admits _); [ | discriminate Hrun ].
          destruct (addInTurn _ _ _) as [built [ | ]]; [ | discriminate Hrun ].
          exists built. injection Hrun as <-. reflexivity.
      + destruct (cat !! tableName this) eqn:Hold; [ discriminate Hrun | ].
        destruct (admits _); [ | discriminate Hrun ].
        destruct (addInTurn _ _ _) as [built [ | ]]; [ | discriminate Hrun ].
        exists built. injection Hrun as <-. reflexivity. }
  destruct Hcat1 as [def ->]. unfold Schema.dropTable.
  rewrite lookup_insert_eq, lookup_delete_eq, delete_insert_eq. split; reflexivity.
Qed.

(** X22: [createIndex(def)] asks the store to add one index call behind
    the definition of the table, and no column; the fields of the call are
    never a mapping (a mapping is replaced by the sequence of its keys).
    When the store takes the extended definition the table has it
    afterwards; when it does not (an index name the table already has, a
    column it does not have), or when there is no such table, the call is
    rejected and the catalog is unchanged. *)
Theorem createIndex_adds_one_index (def : Index.t) (cat : catalog) :
  isMapping (indexFields (Index.fields def)) = false
  /\ match cat !! tableName this with
     | Some old =>
         let extended := old ++ [createTableIndex def] in
         omap columnNameOf extended = omap columnNameOf old
         /\ (admits extended = true ->
             createIndex def cat = (<[tableName this := extended]> cat, inr tt))
         /\ (admits extended = false ->
             createIndex def cat = (cat, inl (Rejected (tableName this))))
     | None =>
         createIndex def cat = (cat, inl (NoSuchTable (tableName this)))
     end.
Proof.
  split.
  - destruct (Index.fields def); reflexivity.
  - unfold Schema.createIndex, alterTable.
    destruct (cat !! tableName this) as [old | ] eqn:Hold; [ | reflexivity ].
    cbv zeta. cbn [addInTurn].
    split; [ | split; intros ->; [ reflexivity | ] ].
    + rewrite omap_app. unfold createTableIndex.
      destruct (Index.unique def); cbn; apply app_nil_r.
    + rewrite (insert_id _ _ _ Hold). reflexivity.
Qed.

End SchemaMore.

Lemma createTable_defines_the_columns_witness :
  let title :=
    {| Field.columnName := "title"; Field.columnType := "string";
       Field.primaryKey := false; Field.generated := None;
       Field.columnLength := VNum 0; Field.max := VNum 80;
       Field.length := VUndefined; Field.virtual := false |} in
  let computed :=
    {| Field.columnName := "slug"; Field.columnType := "jsonx";
       Field.primaryKey := false; Field.generated := None;
       Field.columnLength := VUndefined; Field.max := VUndefined;
       Field.length := VUndefined; Field.virtual := true |} in
  let byTitle :=
    {| Index.fields := VStr "title"; Index.name := VStr "by_title";
       Index.type := VUndefined; Index.unique := false |} in
  let indexed :=
    init None "pg"
      {| service_name := "posts"; primaryField := Some Sample.idField;
         serviceFields := [Sample.idField];
         indexes := Some [byTitle; byTitle] |} in
  let opts := Some {| dropTableIfExists := VUndefined; createIndexes := false |} in
  let withIndexes :=
    Some {| dropTableIfExists := VUndefined; createIndexes := true |} in
  let cat : catalog := {[ "posts" := [column "string" [VStr "old"] false] ]} in
  Schema.createTable Sample.supported Sample.admits Sample.adapter
    (Some [Sample.idField; computed; title]) opts cat
  = (<["posts" := [column "increments" [VStr "id"] true;
                   column "string" [VStr "title"; VNum 80] false]]> cat, inr tt)
  /\ Schema.createTable Sample.supported Sample.admits Sample.adapter
       (Some [computed]) opts cat
     = (delete "posts" cat, inl (Rejected "posts"))
  /\ Schema.createTable Sample.supported Sample.admits indexed
       (Some [Sample.idField; title]) withIndexes cat
     = (<["posts" := [column "increments" [VStr "id"] true;
                      column "string" [VStr "title"; VNum 80] false;
                      index (VStr "title") (VStr "by_title") VUndefined]]> cat,
        inl (Rejected "posts")).
Proof.
  intros title computed byTitle indexed opts withIndexes cat.
  split; [ | split ].
  - destruct (createTable_defines_the_columns Sample.supported Sample.admits
                Sample.adapter (Some [Sample.idField; computed; title]) opts cat)
      as (def & Hdef & _ & _ & Hrun & _).
    + cbn [from_option Sample.adapter init service serviceFields Sample.posts id].
      repeat match goal with
             | |- Forall _ (_ :: _) =>
                 constructor; [ first [ left; reflexivity | right; reflexivity ] | ]
             end.
      constructor.
    + left. reflexivity.
    + injection Hdef as <-. apply (proj1 (Hrun eq_refl eq_refl)).
  - destruct (createTable_defines_the_columns Sample.supported Sample.admits
                Sample.adapter (Some [computed]) opts cat)
      as (def & Hdef & _ & _ & _ & Hrun & _).
    + repeat constructor.
    + left. reflexivity.
    + injection Hdef as <-. apply (Hrun eq_refl).
  - destruct (createTable_defines_the_columns Sample.supported Sample.admits
                indexed (Some [Sample.idField; title]) withIndexes cat)
      as (def & Hdef & _ & _ & _ & _ & Hrun).
    + cbn [from_option id].
      repeat match goal with
             | |- Forall _ (_ :: _) =>
                 constructor; [ first [ left; reflexivity | right; reflexivity ] | ]
             end.
      constructor.
    + left. reflexivity.
    + injection Hdef as <-.
      apply (Hrun [column "increments" [VStr "id"] true;
                   column "string" [VStr "title"; VNum 80] false;
                   index (VStr "title") (VStr "by_title") VUndefined]
               eq_refl eq_refl).
Defined.

Lemma createTable_keeps_existing_table_witness :
  let opts := Some {| dropTableIfExists := VBool false; createIndexes := false |} in
  let cat : catalog := {[ "posts" := [column "string" [VStr "old"] false] ]} in
  Schema.createTable Sample.supported Sample.admits Sample.adapter None opts cat
  = (cat, inl (TableExists "posts")).
Proof.
  intros opts cat.
  apply (createTable_keeps_existing_table Sample.supported Sample.admits
           Sample.adapter None opts cat [column "string" [VStr "old"] false]).
  - cbn [from_option Sample.adapter init service serviceFields Sample.posts id].
    repeat match goal with
           | |- Forall _ (_ :: _) =>
               constructor; [ first [ left; reflexivity | right; reflexivity ] | ]
           end.
    constructor.
  - reflexivity.
  - reflexivity.
Defined.

Lemma dropTable_after_createTable_witness :
  let opts := Some {| dropTableIfExists := VUndefined; createIndexes := false |} in
  let cat : catalog := {[ "users" := [column "string" [VStr "name"] false] ]} in
  Schema.dropTable "posts"
    (<["posts" := [column "increments" [VStr "id"] true]]> cat)
  = (delete "posts" cat, inr tt).
Proof.
  intros opts cat.
  apply (dropTable_after_createTable Sample.supported Sample.admits Sample.adapter
           None opts cat
           (<["posts" := [column "increments" [VStr "id"] true]]> cat)).
  reflexivity.
Defined.

Lemma createIndex_adds_one_index_witness :
  let byTitle :=
    {| Index.fields := VObj [("title", VNum 1)]; Index.name := VStr "by_title";
       Index.type := VUndefined; Index.unique := false |} in
  let table := [column "increments" [VStr "id"] true;
                column "string" [VStr "title"] false] in
  let cat : catalog := {[ "posts" := table ]} in
  let indexed := table ++ [index (VArr [VStr "title"]) (VStr "by_title") VUndefined] in
  Schema.createIndex Sample.admits Sample.adapter byTitle cat
  = (<["posts" := indexed]> cat, inr tt)
  /\ Schema.createIndex Sample.admits Sample.adapter byTitle (<["posts" := indexed]> cat)
     = (<["posts" := indexed]> cat, inl (Rejected "posts")).
Proof.
  intros byTitle table cat indexed. split.
  - pose proof (createIndex_adds_one_index Sample.admits Sample.adapter byTitle cat)
      as [_ H].
    change (cat !! tableName Sample.adapter) with (Some table) in H.
    apply (proj1 (proj2 H)). reflexivity.
  - pose proof (createIndex_adds_one_index Sample.admits Sample.adapter byTitle
                  (<["posts" := indexed]> cat)) as [_ H].
    change ((<["posts" := indexed]> cat) !! tableName Sample.adapter)
      with (Some indexed) in H.
    apply (proj2 (proj2 H)). reflexivity.
Defined.
